(** * DichVideo: the project pipeline's persisted model and client API

    A shallow embedding of the Supabase schema
    ([supabase/migrations/001_initial_schema.sql]), of the generated row
    types ([lib/database.types.ts]), of the client API ([lib/api.ts]:
    [projectsApi], [voicesApi]), of the storage helpers
    ([lib/supabase.ts]) and of the project page's polling and processing
    handlers ([app/project/[id]/page.tsx]), followed by the properties of
    the orchestration core that can be settled on them. *)

From Stdlib Require Import ZArith Ascii.
From Stdlib Require QArith.
From stdpp Require Import gmap strings pretty list sorting fin_maps.

Local Open Scope string_scope.

(* ===================================================================== *)
(** * 1. Project status *)
(* ===================================================================== *)

(** [ProjectStatus] in [database.types.ts]: a union of eleven string
    literals. One constructor per literal. *)
Inductive ProjectStatus : Set :=
  | pending
  | uploading
  | diarizing
  | transcribing
  | translating
  | voice_mapping
  | dubbing
  | mixing
  | rendering
  | completed
  | failed.

#[global] Instance ProjectStatus_eq_dec : EqDecision ProjectStatus.
Proof. solve_decision. Defined.

(** The string literal each member of the union stands for. *)
Definition status_string (s : ProjectStatus) : string :=
  match s with
  | pending => "pending"
  | uploading => "uploading"
  | diarizing => "diarizing"
  | transcribing => "transcribing"
  | translating => "translating"
  | voice_mapping => "voice_mapping"
  | dubbing => "dubbing"
  | mixing => "mixing"
  | rendering => "rendering"
  | completed => "completed"
  | failed => "failed"
  end.

(** The members of the union, in the order the type lists them. *)
Definition ProjectStatus_members : list ProjectStatus :=
  [pending; uploading; diarizing; transcribing; translating; voice_mapping;
   dubbing; mixing; rendering; completed; failed].

(** [CREATE TYPE project_status AS ENUM (...)] in the migration: the
    labels of the persisted enum, in declaration order. *)
Definition project_status : list string :=
  ["pending"; "uploading"; "diarizing"; "transcribing"; "translating";
   "voice_mapping"; "dubbing"; "mixing"; "rendering"; "completed"; "failed"].

(** Reading a persisted label back into the client type: the first member
    whose literal is the label. *)
Definition parse_status (l : string) : option ProjectStatus :=
  find (λ s, bool_decide (status_string s = l)) ProjectStatus_members.

(** The status values as the specification's external interface lists
    them. *)
Definition spec_status_values : list string :=
  "pending" :: "uploading" :: "diarizing" :: "transcribing" ::
  "translating" :: "voice_mapping" :: "dubbing" :: "mixing" ::
  "rendering" :: "completed" :: "failed" :: nil.

(** [statusOrder] in [components/ProgressTracker.tsx]: the forward order
    of the pipeline; [failed] is not part of it. *)
Definition statusOrder : list ProjectStatus :=
  [pending; uploading; diarizing; transcribing; translating; voice_mapping;
   dubbing; mixing; rendering; completed].

(** [statusOrder.indexOf(s)]: the position of [s], or [-1]. *)
Fixpoint indexOf_from (i : Z) (l : list ProjectStatus) (s : ProjectStatus) : Z :=
  match l with
  | [] => (-1)%Z
  | x :: l' => if decide (x = s) then i else indexOf_from (i + 1)%Z l' s
  end.

Definition indexOf (l : list ProjectStatus) (s : ProjectStatus) : Z :=
  indexOf_from 0%Z l s.

(** [completed] and [failed] end the pipeline. *)
Definition terminal (s : ProjectStatus) : bool :=
  match s with
  | completed | failed => true
  | _ => false
  end.

(** [x] directly follows [s] in [statusOrder]. *)
Definition immediate_successor (s x : ProjectStatus) : bool :=
  bool_decide (indexOf statusOrder s ≠ (-1)%Z
               ∧ indexOf statusOrder x = (indexOf statusOrder s + 1)%Z).

(* ===================================================================== *)
(** * 2. Persisted rows and the database *)
(* ===================================================================== *)

(** A JavaScript object used as [Record<string, string>]: its own
    enumerable string keys in insertion order (speaker labels are never
    integer-like, so no key is reordered). Keys of a well-formed object are
    pairwise distinct; [obj_wf] says so. *)
Definition Obj : Type := list (string * string).

Definition obj_keys (o : Obj) : list string := o.*1.

Definition obj_wf (o : Obj) : Prop := NoDup (obj_keys o).

(** [o[k]]: [None] stands for [undefined]. *)
Fixpoint obj_get (k : string) (o : Obj) : option string :=
  match o with
  | [] => None
  | (k', v) :: o' => if decide (k' = k) then Some v else obj_get k o'
  end.

(** [{ ...o, [k]: v }]: an existing key keeps its position, a new key goes
    last. *)
Fixpoint obj_set (k v : string) (o : Obj) : Obj :=
  match o with
  | [] => [(k, v)]
  | (k', v') :: o' =>
      if decide (k' = k) then (k, v) :: o' else (k', v') :: obj_set k v o'
  end.

(** A value as JavaScript has it when a property of a row object is read:
    [undefined] for a property the object does not have, [null], a string
    or a number. *)
Inductive Value : Type :=
  | undefined
  | null
  | text (s : string)
  | number (n : Z).

(** A nullable text column as the value of its property. *)
Definition nullable (o : option string) : Value :=
  match o with
  | Some s => text s
  | None => null
  end.

(** [if (v)]: [undefined], [null], the empty string and [0] are falsy. *)
Definition truthy (v : Value) : bool :=
  match v with
  | undefined | null => false
  | text s => negb (bool_decide (s = ""))
  | number n => negb (bool_decide (n = 0%Z))
  end.

(** A value used as a property key ([o[v]], [{ [v]: ... }]) is converted to
    a string. *)
Definition property_key (v : Value) : string :=
  match v with
  | undefined => "undefined"
  | null => "null"
  | text s => s
  | number n => pretty n
  end.

(** A JavaScript number is an IEEE 754 double. [to_double x] is the double
    nearest to the whole number [x], ties going to the even significand;
    it is a whole number too, and [x] itself up to [2^53]. (Past [2^1024]
    a double is [Infinity]; such values are not modelled.) *)
Definition to_double (x : Z) : Z :=
  let a := Z.abs x in
  if (a <=? 2 ^ 53)%Z then x
  else
    let e := (Z.log2 a - 52)%Z in
    let q := (a / 2 ^ e)%Z in
    let r := (a mod 2 ^ e)%Z in
    let half := (2 ^ (e - 1))%Z in
    let q' := if (r <? half)%Z then q
              else if (half <? r)%Z then (q + 1)%Z
              else if Z.even q then q else (q + 1)%Z in
    (Z.sgn x * q' * 2 ^ e)%Z.

(** [o[name]] for an object given by its properties. *)
Fixpoint get_property (name : string) (o : list (string * Value)) : Value :=
  match o with
  | [] => undefined
  | (k, v) :: o' => if decide (k = name) then v else get_property name o'
  end.

(** Rows of the three tables. The primary key [id] is the key under which
    a row is stored in its table, so it is not repeated inside the row.
    A [TIMESTAMPTZ] is the number of microseconds since the epoch, the
    [FLOAT] of [progress] a rational. Of [speakers] and [segments] the
    columns [sample_audio_url] and [created_at], which nothing reads and
    nothing changes after the insertion, are left out. *)
Module Projects.
Record Row : Type := mkRow {
  name : string;
  original_video_url : option string;
  output_video_url : option string;
  original_language : string;
  target_language : string;
  num_speakers : Z;
  voice_mapping : option Obj;
  status : ProjectStatus;
  error_message : option string;
  user_id : option string;
  progress : QArith_base.Q;
  processing_server_task_id : option string;
  created_at : Z;
  updated_at : Z;
  completed_at : option Z
}.

(** What [projectsApi.create] gives of a new row; the schema's defaults
    fill the other columns. *)
Record Insert : Type := mkInsert {
  insert_name : string;
  insert_original_language : string;
  insert_target_language : string;
  insert_num_speakers : Z;
  insert_status : ProjectStatus
}.

(** The row [INSERT] stores for [i] at the server's time [now]: the columns
    left out are [NULL], or their [DEFAULT] ([progress] 0, [created_at] and
    [updated_at] [NOW()]). *)
Definition inserted (now : Z) (i : Insert) : Row :=
  {| name := insert_name i;
     original_video_url := None;
     output_video_url := None;
     original_language := insert_original_language i;
     target_language := insert_target_language i;
     num_speakers := insert_num_speakers i;
     voice_mapping := None;
     status := insert_status i;
     error_message := None;
     user_id := None;
     progress := QArith_base.Qmake 0 1;
     processing_server_task_id := None;
     created_at := now;
     updated_at := now;
     completed_at := None |}.

(** The [Update] shape: every column optional; an absent column is left
    as it is. Only the columns some caller sets are listed. *)
Record Update : Type := mkUpdate {
  set_original_video_url : option string;
  set_voice_mapping : option Obj;
  set_status : option ProjectStatus
}.

Definition apply (u : Update) (r : Row) : Row :=
  {| name := name r;
     original_video_url :=
       match set_original_video_url u with
       | Some url => Some url
       | None => original_video_url r
       end;
     output_video_url := output_video_url r;
     original_language := original_language r;
     target_language := target_language r;
     num_speakers := num_speakers r;
     voice_mapping :=
       match set_voice_mapping u with
       | Some m => Some m
       | None => voice_mapping r
       end;
     status := default (status r) (set_status u);
     error_message := error_message r;
     user_id := user_id r;
     progress := progress r;
     processing_server_task_id := processing_server_task_id r;
     created_at := created_at r;
     updated_at := updated_at r;
     completed_at := completed_at r |}.

(** The trigger function [update_updated_at()]: [NEW.updated_at = NOW()]. *)
Definition update_updated_at (now : Z) (r : Row) : Row :=
  {| name := name r;
     original_video_url := original_video_url r;
     output_video_url := output_video_url r;
     original_language := original_language r;
     target_language := target_language r;
     num_speakers := num_speakers r;
     voice_mapping := voice_mapping r;
     status := status r;
     error_message := error_message r;
     user_id := user_id r;
     progress := progress r;
     processing_server_task_id := processing_server_task_id r;
     created_at := created_at r;
     updated_at := now;
     completed_at := completed_at r |}.

(** What an [UPDATE] at the server's time [now] makes of a row: the new
    values of [u], then the trigger [projects_updated_at] ([BEFORE UPDATE
    ... FOR EACH ROW]). *)
Definition updated (now : Z) (u : Update) (r : Row) : Row :=
  update_updated_at now (apply u r).
End Projects.

Module Speakers.
Record Row : Type := mkRow {
  project_id : string;
  speaker_label : string;
  name : option string;
  elevenlabs_voice_id : option string;
  elevenlabs_voice_name : option string;
  total_duration_ms : Z;
  segment_count : Z
}.

Definition with_voice (v : string) (r : Row) : Row :=
  {| project_id := project_id r;
     speaker_label := speaker_label r;
     name := name r;
     elevenlabs_voice_id := Some v;
     elevenlabs_voice_name := elevenlabs_voice_name r;
     total_duration_ms := total_duration_ms r;
     segment_count := segment_count r |}.

Definition with_stats (d c : Z) (r : Row) : Row :=
  {| project_id := project_id r;
     speaker_label := speaker_label r;
     name := name r;
     elevenlabs_voice_id := elevenlabs_voice_id r;
     elevenlabs_voice_name := elevenlabs_voice_name r;
     total_duration_ms := d;
     segment_count := c |}.

(** The row stored under [id] as the object the client receives: one
    property per column, named as the column ([sample_audio_url] and
    [created_at], which the rows here leave out, are two more). *)
Definition object (id : string) (r : Row) : list (string * Value) :=
  [ ("id", text id);
    ("project_id", text (project_id r));
    ("speaker_label", text (speaker_label r));
    ("name", nullable (name r));
    ("elevenlabs_voice_id", nullable (elevenlabs_voice_id r));
    ("elevenlabs_voice_name", nullable (elevenlabs_voice_name r));
    ("total_duration_ms", number (total_duration_ms r));
    ("segment_count", number (segment_count r)) ].
End Speakers.

Module Segments.
Record Row : Type := mkRow {
  project_id : string;
  speaker_id : option string;
  start_ms : Z;
  end_ms : Z;
  original_text : option string;
  translated_text : option string;
  dubbed_audio_url : option string;
  sequence : Z
}.

Definition with_speaker (s : option string) (r : Row) : Row :=
  {| project_id := project_id r;
     speaker_id := s;
     start_ms := start_ms r;
     end_ms := end_ms r;
     original_text := original_text r;
     translated_text := translated_text r;
     dubbed_audio_url := dubbed_audio_url r;
     sequence := sequence r |}.

Definition duration (r : Row) : Z := (end_ms r - start_ms r)%Z.
End Segments.

(** The database: three tables keyed by primary key. *)
Record Db : Type := mkDb {
  projects : gmap string Projects.Row;
  speakers : gmap string Speakers.Row;
  segments : gmap string Segments.Row
}.

Definition empty_db : Db := mkDb ∅ ∅ ∅.

(** ** What the schema does on each statement *)

(** [INSERT INTO projects]: the row [r] is stored under the key [id]. *)
Definition insert_project (id : string) (r : Projects.Row) (d : Db) : Db :=
  mkDb (<[id := r]> (projects d)) (speakers d) (segments d).

(** [UPDATE projects SET ... WHERE id = ...] at the server's time [now]:
    the row with that key, if any. No column of [projects] constrains
    which [status] may follow which: the only trigger of the schema
    refreshes [updated_at]. *)
Definition update_project (now : Z) (id : string) (u : Projects.Update)
    (d : Db) : Db :=
  mkDb (alter (Projects.updated now u) id (projects d))
       (speakers d) (segments d).

(** [UPDATE speakers SET elevenlabs_voice_id = v WHERE project_id = pid AND
    speaker_label = label]: every matching row, none if there is no
    match. *)
Definition update_speaker_voice (pid label v : string) (d : Db) : Db :=
  mkDb (projects d)
       ((λ r, if decide (Speakers.project_id r = pid
                         ∧ Speakers.speaker_label r = label)
              then Speakers.with_voice v r else r) <$> speakers d)
       (segments d).

(** [segments.speaker_id ... REFERENCES speakers(id) ON DELETE SET NULL]:
    what happens to a segment when the speakers in [gone] are deleted. *)
Definition set_null (gone : gset string) (r : Segments.Row) : Segments.Row :=
  match Segments.speaker_id r with
  | Some s => if decide (s ∈ gone) then Segments.with_speaker None r else r
  | None => r
  end.

(** [DELETE FROM speakers WHERE id = sid]. *)
Definition delete_speaker (sid : string) (d : Db) : Db :=
  mkDb (projects d)
       (delete sid (speakers d))
       (set_null {[sid]} <$> segments d).

(** [DELETE FROM projects WHERE id = pid]: the row goes, and through
    [ON DELETE CASCADE] so do the speakers and the segments whose
    [project_id] is [pid]; the segments that survive and referenced a
    deleted speaker have the reference nulled. *)
Definition delete_project (pid : string) (d : Db) : Db :=
  let gone := dom (filter (λ kv, Speakers.project_id kv.2 = pid) (speakers d)) in
  mkDb (delete pid (projects d))
       (filter (λ kv, Speakers.project_id kv.2 ≠ pid) (speakers d))
       (set_null gone <$>
          filter (λ kv, Segments.project_id kv.2 ≠ pid) (segments d)).

(* ===================================================================== *)
(** * 3. The client's world: Supabase, storage, the processing server *)
(* ===================================================================== *)

(** The outcome of one request to Supabase (database or storage), decided
    by the server and the network: the statement is applied, or it is
    refused and the client gets [{ error }] back (supabase-js reports
    failures in the result, it does not throw). *)
Inductive Reply : Type :=
  | Applied
  | Refused (error : string).

(** [Voice] in [lib/api.ts]. *)
Record Voice : Type := mkVoice {
  voice_id : string;
  voice_name : string;
  category : string;
  labels : Obj;
  preview_url : option string
}.

(** What [response.json()] yields: the endpoint's payload; [None] in
    [Fetched] below stands for a body that does not parse (the promise
    rejects). [/api/voices/] answers [{ voices }], the command endpoints an
    acknowledgement. *)
Inductive Body : Type :=
  | voices_body (voices : list Voice)
  | ack_body (text : string).

(** The outcome of one [fetch] to the processing server: the promise
    rejects (network error), or a response arrives with its [ok] flag. *)
Inductive Fetched : Type :=
  | NetworkError (error : string)
  | Response (ok : bool) (json : option Body).

(** A command sent to the processing server: the path below
    [PROCESSING_SERVER_URL] and the JSON body, if any. *)
Record Posted : Type := mkPosted {
  path : string;
  posted_voice_mapping : option Obj
}.

Record World : Type := mkWorld {
  db : Db;
  storage : gset string;          (* object paths in the bucket *)
  replies : list Reply;           (* outcomes of the coming Supabase requests *)
  fetches : list Fetched;         (* outcomes of the coming fetches *)
  uuids : list string;            (* what uuid_generate_v4() will return *)
  clock : Z;                      (* Date.now() *)
  supabaseUrl : string;           (* NEXT_PUBLIC_SUPABASE_URL *)
  history : list Db;              (* the database after each applied write *)
  posted : list Posted;           (* commands the processing server received *)
  server_time : list Z            (* what NOW() will return on the server *)
}.

Definition with_db (d : Db) (w : World) : World :=
  mkWorld d (storage w) (replies w) (fetches w) (uuids w) (clock w)
          (supabaseUrl w) (history w ++ [d]) (posted w) (server_time w).

Definition with_storage (s : gset string) (w : World) : World :=
  mkWorld (db w) s (replies w) (fetches w) (uuids w) (clock w)
          (supabaseUrl w) (history w) (posted w) (server_time w).

Definition with_replies (rs : list Reply) (w : World) : World :=
  mkWorld (db w) (storage w) rs (fetches w) (uuids w) (clock w)
          (supabaseUrl w) (history w) (posted w) (server_time w).

Definition with_fetches (fs : list Fetched) (w : World) : World :=
  mkWorld (db w) (storage w) (replies w) fs (uuids w) (clock w)
          (supabaseUrl w) (history w) (posted w) (server_time w).

Definition with_uuids (us : list string) (w : World) : World :=
  mkWorld (db w) (storage w) (replies w) (fetches w) us (clock w)
          (supabaseUrl w) (history w) (posted w) (server_time w).

Definition with_posted (p : Posted) (w : World) : World :=
  mkWorld (db w) (storage w) (replies w) (fetches w) (uuids w) (clock w)
          (supabaseUrl w) (history w) (posted w ++ [p]) (server_time w).

Definition with_server_time (ts : list Z) (w : World) : World :=
  mkWorld (db w) (storage w) (replies w) (fetches w) (uuids w) (clock w)
          (supabaseUrl w) (history w) (posted w) ts.

(** A world in which nothing is queued: every request is applied. *)
Definition calm (d : Db) : World :=
  mkWorld d ∅ [] [] [] 0 "https://db.example" [] [] [].

(** ** The monad of asynchronous client code

    An [async] function either resolves with a value or rejects with an
    error, and changes the world on the way. *)
Inductive Res (A : Type) : Type :=
  | Ok (a : A)
  | Throw (error : string).
Arguments Ok {A} a.
Arguments Throw {A} error.

Definition M (A : Type) : Type := World → Res A * World.

Definition ret {A} (a : A) : M A := λ w, (Ok a, w).

Definition throw {A} (e : string) : M A := λ w, (Throw e, w).

Definition bind {A B} (m : M A) (k : A → M B) : M B :=
  λ w, match m w with
       | (Ok a, w') => k a w'
       | (Throw e, w') => (Throw e, w')
       end.

(** [try { m } catch (e) { h e }]. *)
Definition try_catch {A} (m : M A) (h : string → M A) : M A :=
  λ w, match m w with
       | (Ok a, w') => (Ok a, w')
       | (Throw e, w') => h e w'
       end.

Declare Scope async_scope.
Delimit Scope async_scope with async.
Notation "'let*' x ':=' m 'in' k" := (bind m (fun x => k))
  (at level 10, x pattern, m at level 100, k at level 200) : async_scope.
Notation "m ';;' k" := (bind m (fun _ => k))
  (at level 100, k at level 200, right associativity) : async_scope.
Local Open Scope async_scope.

(** The next outcomes; an empty queue means the request goes through. *)
Definition next_reply : M Reply :=
  λ w, match replies w with
       | [] => (Ok Applied, w)
       | r :: rs => (Ok r, with_replies rs w)
       end.

Definition next_fetch : M Fetched :=
  λ w, match fetches w with
       | [] => (Ok (Response true (Some (ack_body "ok"))), w)
       | f :: fs => (Ok f, with_fetches fs w)
       end.

(** One write request: if it is applied the database changes; the result
    is the [error] field of what supabase-js returns. *)
Definition write (f : Db → Db) : M (option string) :=
  let* r := next_reply in
  match r with
  | Applied => λ w, (Ok None, with_db (f (db w)) w)
  | Refused e => ret (Some e)
  end.

(** [NOW()] in a statement the server carries out. *)
Definition NOW : M Z :=
  λ w, match server_time w with
       | [] => (Ok 0%Z, w)
       | t :: ts => (Ok t, with_server_time ts w)
       end.

(** One write request whose statement reads the server's clock. *)
Definition write_now (f : Z → Db → Db) : M (option string) :=
  let* r := next_reply in
  match r with
  | Applied =>
      let* t := NOW in
      λ w, (Ok None, with_db (f t (db w)) w)
  | Refused e => ret (Some e)
  end.

(** One read request: [data] or [error]. *)
Definition read {A} (f : Db → A) : M (A + string) :=
  let* r := next_reply in
  match r with
  | Applied => λ w, (Ok (inl (f (db w))), w)
  | Refused e => ret (inr e)
  end.

Definition get_db : M Db := λ w, (Ok (db w), w).

Definition next_uuid : M string :=
  λ w, match uuids w with
       | [] => (Ok "00000000-0000-0000-0000-000000000000", w)
       | u :: us => (Ok u, with_uuids us w)
       end.

Definition now : M Z := λ w, (Ok (clock w), w).

Definition post (p : Posted) : M unit := λ w, (Ok (), with_posted p w).

(* ===================================================================== *)
(** * 4. Storage helpers ([lib/supabase.ts]) *)
(* ===================================================================== *)

Definition STORAGE_BUCKET : string := "videos".

(** A browser [File]; only its name is used. *)
Record File : Type := mkFile { file_name : string }.

(** [encodeURI]. A string is the sequence of the bytes of its UTF-8
    encoding. The letters, the digits and the marks [- _ . ! ~ * ' ( )] and
    [; / ? : @ & = + $ , #] stay; every other byte becomes [%XX], its value
    in two upper-case hexadecimal digits. *)
Fixpoint occurs (c : Ascii.ascii) (s : string) : bool :=
  match s with
  | EmptyString => false
  | String x s' => bool_decide (x = c) || occurs c s'
  end.

Definition uri_unescaped (c : Ascii.ascii) : bool :=
  let n := Ascii.N_of_ascii c in
  ((65 <=? n)%N && (n <=? 90)%N)
  || ((97 <=? n)%N && (n <=? 122)%N)
  || ((48 <=? n)%N && (n <=? 57)%N)
  || occurs c "-_.!~*'();/?:@&=+$,#".

Definition hex_digit (n : N) : Ascii.ascii :=
  default "0"%char (String.get (N.to_nat n) "0123456789ABCDEF").

Definition percent (c : Ascii.ascii) : string :=
  let n := Ascii.N_of_ascii c in
  String "%" (String (hex_digit (n / 16)) (String (hex_digit (n mod 16)) "")).

Fixpoint encodeURI (s : string) : string :=
  match s with
  | EmptyString => EmptyString
  | String c s' =>
      if uri_unescaped c then String c (encodeURI s')
      else percent c +:+ encodeURI s'
  end.

(** [storage.from(bucket).getPublicUrl(path)] of supabase-js: computed
    locally, no request; the library returns the URL of the object passed
    through [encodeURI]. *)
Definition getPublicUrl (base bucket p : string) : string :=
  encodeURI (base +:+ "/storage/v1/object/public/" +:+ bucket +:+ "/" +:+ p).

(** [storage.from(bucket).upload(fileName, file, { upsert: false })]: one
    request; an existing object is not overwritten. *)
Definition storage_upload (fileName : string) : M (string + string) :=
  let* r := next_reply in
  match r with
  | Refused e => ret (inr e)
  | Applied => λ w,
      if decide (fileName ∈ storage w)
      then (Ok (inr "The resource already exists"), w)
      else (Ok (inl fileName), with_storage ({[fileName]} ∪ storage w) w)
  end.

(** [storage.from(bucket).remove(paths)]: one request. *)
Definition storage_remove (paths : list string) : M (option string) :=
  let* r := next_reply in
  match r with
  | Refused e => ret (Some e)
  | Applied => λ w,
      (Ok None, with_storage (storage w ∖ list_to_set paths) w)
  end.

Definition uploadVideo (file : File) (projectId : string) : M string :=
  let* t := now in
  let fileName :=
    projectId +:+ "/original_" +:+ pretty t +:+ "_" +:+ file_name file in
  let* r := storage_upload fileName in
  match r with
  | inr error => throw error
  | inl data_path =>
      λ w, (Ok (getPublicUrl (supabaseUrl w) STORAGE_BUCKET data_path), w)
  end.

Definition getVideoUrl (p : string) : M string :=
  λ w, (Ok (getPublicUrl (supabaseUrl w) STORAGE_BUCKET p), w).

Definition deleteVideo (p : string) : M unit :=
  let* error := storage_remove [p] in
  match error with
  | Some e => throw e
  | None => ret ()
  end.

(* ===================================================================== *)
(** * 5. [projectsApi] and [voicesApi] ([lib/api.ts]) *)
(* ===================================================================== *)

(** [.single()] on a result without a row. *)
Definition PGRST116 : string :=
  "JSON object requested, multiple (or no) rows returned".

Definition duplicate_key : string :=
  "duplicate key value violates unique constraint".

(** [from("projects").insert(row).select().single()]: one request; the key
    comes from [uuid_generate_v4()], the timestamps from [NOW()]. *)
Definition insert_select_single (i : Projects.Insert)
  : M (string * Projects.Row + string) :=
  let* rep := next_reply in
  match rep with
  | Refused e => ret (inr e)
  | Applied =>
      let* id := next_uuid in
      let* d := get_db in
      if decide (id ∈ dom (projects d))
      then ret (inr duplicate_key)
      else
        let* t := NOW in
        let r := Projects.inserted t i in
        λ w, (Ok (inl (id, r)), with_db (insert_project id r (db w)) w)
  end.

(** [from("projects").update(u).eq("id", id).select().single()]. *)
Definition update_select_single (id : string) (u : Projects.Update)
  : M (string * Projects.Row + string) :=
  let* e := write_now (λ now, update_project now id u) in
  match e with
  | Some error => ret (inr error)
  | None =>
      let* d := get_db in
      match projects d !! id with
      | Some r => ret (inl (id, r))
      | None => ret (inr PGRST116)
      end
  end.

Record CreateData : Type := mkCreateData {
  data_name : string;
  data_original_language : string;
  data_target_language : string;
  data_num_speakers : Z;
  data_video : File
}.

(** [ProjectWithSpeakers]: a project row with its key and the rows of its
    speakers. *)
Record ProjectWithSpeakers : Type := mkProjectWithSpeakers {
  project_id : string;
  project_row : Projects.Row;
  project_speakers : list (string * Speakers.Row)
}.

(** [ORDER BY speaker_label]. *)
Definition label_le (a b : string * Speakers.Row) : Prop :=
  String.leb (Speakers.speaker_label a.2) (Speakers.speaker_label b.2) = true.

#[global] Instance label_le_dec a b : Decision (label_le a b).
Proof. unfold label_le. apply _. Defined.

Definition speakers_of (id : string) (d : Db) : list (string * Speakers.Row) :=
  merge_sort label_le
    (map_to_list (filter (λ kv, Speakers.project_id kv.2 = id) (speakers d))).

Module projectsApi.

Definition get (id : string) : M ProjectWithSpeakers :=
  let* selected := read (λ d, projects d !! id) in
  match selected with
  | inr projectError => throw projectError
  | inl None => throw PGRST116
  | inl (Some project) =>
      let* listed := read (speakers_of id) in
      match listed with
      | inr speakersError => throw speakersError
      | inl speakers => ret (mkProjectWithSpeakers id project speakers)
      end
  end.

Definition create (data : CreateData) : M (string * Projects.Row) :=
  (* 1. Create project record *)
  let* inserted :=
    insert_select_single
      {| Projects.insert_name := data_name data;
         Projects.insert_original_language := data_original_language data;
         Projects.insert_target_language := data_target_language data;
         Projects.insert_num_speakers := data_num_speakers data;
         Projects.insert_status := uploading |} in
  match inserted with
  | inr createError => throw createError
  | inl (project_id, _) =>
      try_catch
        ((* 2. Upload video to Supabase Storage *)
         let* videoUrl := uploadVideo (data_video data) project_id in
         (* 3. Update project with video URL *)
         let* updated :=
           update_select_single project_id
             {| Projects.set_original_video_url := Some videoUrl;
                Projects.set_voice_mapping := None;
                Projects.set_status := Some pending |} in
         match updated with
         | inr updateError => throw updateError
         | inl row => ret row
         end)
        (λ error,
           (* Cleanup on error *)
           write (delete_project project_id);;
           throw error)
  end.

(** [s.split(sep)[1]], for a non-empty [sep]: what lies between the first
    and the second occurrence of [sep]; [None] ([undefined]) when [sep]
    does not occur. *)
Fixpoint after_first (sep s : string) : option string :=
  if String.prefix sep s then Some (String.substring (String.length sep)
                                      (String.length s - String.length sep) s)
  else match s with
       | EmptyString => None
       | String _ s' => after_first sep s'
       end.

Fixpoint before_first (sep s : string) : string :=
  if String.prefix sep s then ""
  else match s with
       | EmptyString => ""
       | String c s' => String c (before_first sep s')
       end.

Definition split_1 (sep s : string) : option string :=
  before_first sep <$> after_first sep s.

(** The object path a public URL points at, when it is truthy. *)
Definition storage_path (url : option string) : list string :=
  match url with
  | Some u =>
      match split_1 (STORAGE_BUCKET +:+ "/") u with
      | Some p => if decide (p = "") then [] else [p]
      | None => []
      end
  | None => []
  end.

Definition delete (id : string) : M unit :=
  (* Delete from storage first *)
  let* selected := read (λ d, projects d !! id) in
  (match selected with
   | inl (Some project) =>
       let filesToDelete :=
         (storage_path (Projects.original_video_url project)
          ++ storage_path (Projects.output_video_url project))%list in
       if decide (0 < length filesToDelete)
       then storage_remove filesToDelete;; ret ()
       else ret ()
   | _ => ret ()
   end);;
  (* Delete project (cascades to speakers/segments) *)
  let* error := write (delete_project id) in
  match error with
  | Some e => throw e
  | None => ret ()
  end.

Definition analyze (id : string) : M Body :=
  let* f := next_fetch in
  match f with
  | NetworkError e => throw e
  | Response ok json =>
      post (mkPosted ("/api/projects/" +:+ id +:+ "/analyze") None);;
      if ok
      then match json with
           | Some b => ret b
           | None => throw "Unexpected end of JSON input"
           end
      else throw "Failed to start analysis"
  end.

(** The loop of [assignVoices] over [Object.entries(mappings)]: one
    update per entry, in order; the result of each is dropped. *)
Fixpoint assign_each (id : string) (entries : Obj) : M unit :=
  match entries with
  | [] => ret ()
  | (label, voiceId) :: rest =>
      write (update_speaker_voice id label voiceId);;
      assign_each id rest
  end.

Definition assignVoices (id : string) (mappings : Obj) : M (string * Obj) :=
  (* Update voice mapping in Supabase *)
  let* projectError :=
    write_now (λ now, update_project now id
                 {| Projects.set_original_video_url := None;
                    Projects.set_voice_mapping := Some mappings;
                    Projects.set_status := None |}) in
  match projectError with
  | Some e => throw e
  | None =>
      (* Update individual speakers *)
      assign_each id mappings;;
      ret ("updated", mappings)
  end.

Definition startProcessing (id : string) (voiceMapping : Obj) : M Body :=
  (* Update voice mapping first *)
  assignVoices id voiceMapping;;
  (* Call processing server *)
  let* f := next_fetch in
  match f with
  | NetworkError e => throw e
  | Response ok json =>
      post (mkPosted ("/api/projects/" +:+ id +:+ "/process")
              (Some voiceMapping));;
      if ok
      then match json with
           | Some b => ret b
           | None => throw "Unexpected end of JSON input"
           end
      else throw "Failed to start processing"
  end.

(** [list(page = 1, pageSize = 20)]: the positions asked of
    [.range(from, to)], both inclusive. [page] and [pageSize] are numbers
    (whole ones here), and so is the result of each operation:
    [(page - 1) * pageSize] and [from + pageSize - 1]. *)
Definition list_from (page pageSize : Z) : Z :=
  to_double (to_double (page - 1) * pageSize).

Definition list_to (page pageSize : Z) : Z :=
  to_double (to_double (list_from page pageSize + pageSize) - 1).

Record Page : Type := mkPage {
  items : Datatypes.list (string * Projects.Row);
  total : Z;
  page : Z;
  page_size : Z
}.

(** The query [select("*", { count: "exact" }).order("created_at",
    { ascending: false }).range(from, to)] is carried out by the server;
    [query from to d] is its [data] and [count], either of which may be
    [null] (rows with the same [created_at] come in an order the server
    chooses). *)
Definition list
    (query : Z → Z → Db
             → option (Datatypes.list (string * Projects.Row)) * option Z)
    (page pageSize : Z) : M Page :=
  let from := list_from page pageSize in
  let to := list_to page pageSize in
  let* answered := read (query from to) in
  match answered with
  | inr error => throw error
  | inl (data, count) =>
      ret {| items := default [] data;
             total := default 0%Z count;
             page := page;
             page_size := pageSize |}
  end.

End projectsApi.

Module voicesApi.

(** The fallback list of [voicesApi.list]. *)
Definition premade (id name gender : string) : Voice :=
  mkVoice id name "premade" [("gender", gender)] None.

Definition default_voices : list Voice :=
  [ premade "21m00Tcm4TlvDq8ikWAM" "Rachel" "female";
    premade "AZnzlk1XvdvUeBnXmlld" "Domi" "female";
    premade "EXAVITQu4vr4xnSDxMaL" "Bella" "female";
    premade "ErXwobaYiN019PkySvjV" "Antoni" "male";
    premade "MF3mGyEYCl7XYWbV9V6O" "Elli" "female";
    premade "TxGEqnHWrfWFTfGW9XjX" "Josh" "male";
    premade "VR6AewLTigWG4xSOukaG" "Arnold" "male";
    premade "pNInz6obpgDQGcFmaJgB" "Adam" "male";
    premade "yoZ06aMxZJJ28mfd3POQ" "Sam" "male" ].

(** [return response.json()] inside the [try] is not awaited there: a
    body that fails to parse rejects the promise [list] returned, past
    the [catch]. The parsed body is returned as it is. *)
Definition list : M Body :=
  let* f := next_fetch in
  match f with
  | Response true json =>
      match json with
      | Some b => ret b
      | None => throw "Unexpected end of JSON input"
      end
  | Response false _ => ret (voices_body default_voices)
  | NetworkError e => (* console.error *) ret (voices_body default_voices)
  end.

(** [data.voices] of a result; [None] is [undefined]. *)
Definition voices_of (data : Body) : option (Datatypes.list Voice) :=
  match data with
  | voices_body vs => Some vs
  | ack_body _ => None
  end.

End voicesApi.

Record Language : Type := mkLanguage {
  code : string;
  language_name : string;
  native_name : string
}.

Module languagesApi.

Definition list : Datatypes.list Language :=
  [ mkLanguage "vi" "Vietnamese" "Tiếng Việt";
    mkLanguage "en" "English" "English";
    mkLanguage "zh-cn" "Chinese (Simplified)" "简体中文";
    mkLanguage "zh-tw" "Chinese (Traditional)" "繁體中文";
    mkLanguage "ja" "Japanese" "日本語";
    mkLanguage "ko" "Korean" "한국어";
    mkLanguage "fr" "French" "Français";
    mkLanguage "de" "German" "Deutsch";
    mkLanguage "es" "Spanish" "Español";
    mkLanguage "pt" "Portuguese" "Português";
    mkLanguage "ru" "Russian" "Русский";
    mkLanguage "th" "Thai" "ไทย";
    mkLanguage "id" "Indonesian" "Bahasa Indonesia";
    mkLanguage "it" "Italian" "Italiano";
    mkLanguage "ar" "Arabic" "العربية";
    mkLanguage "hi" "Hindi" "हिन्दी";
    mkLanguage "tr" "Turkish" "Türkçe" ].

End languagesApi.

(** [statusLabels] in [lib/api.ts]. *)
Definition statusLabels (s : ProjectStatus) : string :=
  match s with
  | pending => "Chờ xử lý"
  | uploading => "Đang tải lên"
  | diarizing => "Phân tích giọng nói"
  | transcribing => "Chuyển đổi văn bản"
  | translating => "Đang dịch"
  | voice_mapping => "Chọn giọng nói"
  | dubbing => "Tạo giọng mới"
  | mixing => "Trộn âm thanh"
  | rendering => "Xuất video"
  | completed => "Hoàn thành"
  | failed => "Lỗi"
  end.

(* ===================================================================== *)
(** * 6. The project page ([app/project/[id]/page.tsx]) *)
(* ===================================================================== *)

Module ProjectPage.

(** The page keeps what [projectsApi.get] returned and reads a project
    through [status] and [speakers]. A speaker is the object of its row. The
    page and the speaker card read it through [speaker.label] and
    [speaker.voice_id]; the row objects have the properties
    [speaker_label] and [elevenlabs_voice_id] and none of those two names,
    so both reads give [undefined], whatever the row. *)
Definition Speaker : Type := list (string * Value).

Definition label (speaker : Speaker) : Value := get_property "label" speaker.

Definition voice_id (speaker : Speaker) : Value :=
  get_property "voice_id" speaker.

Record Project : Type := mkProject {
  status : ProjectStatus;
  speakers : list Speaker
}.

Definition view (data : ProjectWithSpeakers) : Project :=
  {| status := Projects.status (project_row data);
     speakers := (λ kv, Speakers.object kv.1 kv.2) <$> project_speakers data |}.

(** The [useState] cells of the component that the handlers touch. *)
Record State : Type := mkState {
  project : option Project;
  voiceMapping : Obj;
  isProcessing : bool;
  error : option string
}.

Definition setProject (p : Project) (s : State) : State :=
  mkState (Some p) (voiceMapping s) (isProcessing s) (error s).
Definition setVoiceMapping (m : Obj) (s : State) : State :=
  mkState (project s) m (isProcessing s) (error s).
Definition setIsProcessing (b : bool) (s : State) : State :=
  mkState (project s) (voiceMapping s) b (error s).
Definition setError (e : string) (s : State) : State :=
  mkState (project s) (voiceMapping s) (isProcessing s) (Some e).

Definition not_found : string := "Không tìm thấy dự án".
Definition select_all_voices : string :=
  "Vui lòng chọn giọng nói cho tất cả nhân vật".
Definition processing_failed : string := "Xử lý thất bại".

(** The mapping [fetchProject] rebuilds:
    [if (speaker.voice_id) mapping[speaker.label] = speaker.voice_id] for
    each speaker in turn. (The mapping holds strings; a number, which no
    row has here, is entered by its digits.) *)
Fixpoint initial_mapping (l : list Speaker) (mapping : Obj) : Obj :=
  match l with
  | [] => mapping
  | speaker :: rest =>
      if truthy (voice_id speaker)
      then initial_mapping rest
             (obj_set (property_key (label speaker))
                (property_key (voice_id speaker)) mapping)
      else initial_mapping rest mapping
  end.

Definition fetchProject (projectId : string) (s : State) : M State :=
  try_catch
    (let* data := projectsApi.get projectId in
     let p := view data in
     ret (setVoiceMapping (initial_mapping (speakers p) [])
            (setProject p s)))
    (λ _, ret (setError not_found s)).

(** [{ ...prev, [speakerLabel]: voiceId }]; [speakerLabel] stands for the
    property key the argument is used as. *)
Definition handleVoiceSelect (speakerLabel voiceId : string) (s : State)
  : State :=
  setVoiceMapping (obj_set speakerLabel voiceId (voiceMapping s)) s.

(** [Object.keys(voiceMapping).length !== project?.speakers.length]: with
    no project the right-hand side is [undefined] and the two differ. *)
Definition incomplete (s : State) : bool :=
  match project s with
  | Some p =>
      negb (length (obj_keys (voiceMapping s)) =? length (speakers p))%nat
  | None => true
  end.

Definition handleProcess (projectId : string) (s : State) : M State :=
  if incomplete s then ret (setError select_all_voices s)
  else
    let s1 := setIsProcessing true s in
    let* s2 :=
      try_catch
        (projectsApi.startProcessing projectId (voiceMapping s1);;
         fetchProject projectId s1)
        (λ _, ret (setError processing_failed s1)) in
    ret (setIsProcessing false s2).

(** ** Polling *)

Definition processingStatuses : list ProjectStatus :=
  [uploading; diarizing; transcribing; translating; dubbing; mixing;
   rendering].

Definition includes (l : list ProjectStatus) (x : ProjectStatus) : bool :=
  bool_decide (x ∈ l).

(** The body of the polling effect: does it call [setInterval] (and
    return the cleanup that clears it)? *)
Definition polls (p : option Project) : bool :=
  match p with
  | None => false
  | Some p => includes processingStatuses (status p)
  end.

(** The component as far as the effect goes: whether it is mounted, the
    [project] cell, the value of the dependency [project?.status] at the
    last run of the effect, whether that run returned a cleanup, and the
    number of intervals that are set and not cleared. *)
Record Observer : Type := mkObserver {
  mounted : bool;
  observed : option Project;
  last_dep : option ProjectStatus;
  has_cleanup : bool;
  intervals : nat
}.

Definition dep (p : option Project) : option ProjectStatus := status <$> p.

(** Run the cleanup of the previous run, if it returned one:
    [clearInterval]. *)
Definition cleanup (o : Observer) : nat :=
  if has_cleanup o then pred (intervals o) else intervals o.

(** Cleanup of the previous run, then the effect body. *)
Definition run_effect (p : option Project) (o : Observer) : Observer :=
  mkObserver true p (dep p) (polls p)
    (if polls p then S (cleanup o) else cleanup o).

(** First render: [project] is [null]. *)
Definition mount : Observer :=
  run_effect None (mkObserver true None None false 0).

Inductive Event : Type :=
  | SetProject (p : Project)    (* [setProject(data)] and the re-render *)
  | Unmount.

(** React re-runs the effect only when a dependency changed; [fetchProject]
    is stable for a given page. *)
Definition step (o : Observer) (e : Event) : Observer :=
  match e with
  | SetProject p =>
      if mounted o then
        if decide (dep (Some p) = last_dep o)
        then mkObserver true (Some p) (last_dep o) (has_cleanup o)
                        (intervals o)
        else run_effect (Some p) o
      else o
  | Unmount =>
      if mounted o
      then mkObserver false (observed o) (last_dep o) false (cleanup o)
      else o
  end.

Definition run (es : list Event) : Observer := foldl step mount es.

(** The polling timer is live. *)
Definition polling (o : Observer) : bool := bool_decide (0 < intervals o).

(** ** Analysis and what the page shows *)

Definition analysis_failed : string := "Phân tích thất bại".

Definition handleAnalyze (projectId : string) (s : State) : M State :=
  let s1 := setIsProcessing true s in
  let* s2 :=
    try_catch
      (projectsApi.analyze projectId;;
       fetchProject projectId s1)
      (λ _, ret (setError analysis_failed s1)) in
  ret (setIsProcessing false s2).

Definition isVoiceMappingStep (p : Project) : bool :=
  bool_decide (status p = voice_mapping).
Definition isCompleted (p : Project) : bool :=
  bool_decide (status p = completed).
Definition isFailed (p : Project) : bool := bool_decide (status p = failed).
Definition isPending (p : Project) : bool := bool_decide (status p = pending).
Definition isProcessingStatus (p : Project) : bool :=
  includes [diarizing; transcribing; translating; dubbing; mixing; rendering]
    (status p).

(** The voice-mapping panel is rendered when the project is in
    [voice_mapping] and has speakers. *)
Definition shows_voice_mapping (p : Project) : bool :=
  isVoiceMappingStep p && bool_decide (0 < length (speakers p)).

(** The counter [{Object.keys(voiceMapping).length}/{project.speakers.length}]
    of that panel. *)
Definition chosen (s : State) : nat := length (obj_keys (voiceMapping s)).

End ProjectPage.

(* ===================================================================== *)
(** * 6b. The components and the landing page *)
(* ===================================================================== *)

(** [components/ProgressTracker.tsx]. *)
Module ProgressTracker.

(** The [key] and the [label] of each step (the icons are left out). *)
Definition steps : list (ProjectStatus * string) :=
  [ (uploading, "Tải lên");
    (diarizing, "Phân tích");
    (transcribing, "Chuyển văn bản");
    (translating, "Dịch");
    (dubbing, "Tạo giọng");
    (mixing, "Trộn audio");
    (rendering, "Xuất video");
    (completed, "Hoàn thành") ].

Definition currentIndex (status : ProjectStatus) : Z :=
  indexOf statusOrder status.

Definition isFailed (status : ProjectStatus) : bool :=
  bool_decide (status = failed).

Definition stepIndex (key : ProjectStatus) : Z := indexOf statusOrder key.

Definition isActive (status key : ProjectStatus) : bool :=
  bool_decide (status = key).

Definition isCompleted (status key : ProjectStatus) : bool :=
  (stepIndex key <? currentIndex status)%Z && negb (isFailed status).

Definition isPending (status key : ProjectStatus) : bool :=
  (currentIndex status <? stepIndex key)%Z.

(** What is drawn inside the square of a step: the spinner, the failure
    mark, the step's own icon. *)
Definition spinner (status key : ProjectStatus) : bool :=
  isActive status key && negb (isFailed status)
  && negb (bool_decide (status = completed)).

Definition failure_mark (status key : ProjectStatus) : bool :=
  isActive status key && isFailed status.

Definition icon (status key : ProjectStatus) : bool :=
  negb (isActive status key) || (isActive status key && negb (isFailed status)).

End ProgressTracker.

(** [components/SpeakerCard.tsx]. *)
Module SpeakerCard.

Definition colors : list string :=
  [ "from-primary-500 to-teal-400";
    "from-accent-500 to-pink-400";
    "from-blue-500 to-cyan-400";
    "from-orange-500 to-yellow-400";
    "from-green-500 to-emerald-400";
    "from-purple-500 to-violet-400" ].

(** [colors[index % colors.length]]; [None] would be [undefined]. *)
Definition color (index : nat) : option string :=
  colors !! (index mod length colors)%nat.

(** [voices.find((v) => v.voice_id === selectedVoice)]. *)
Definition selectedVoiceData (voices : list Voice) (selectedVoice : option string)
  : option Voice :=
  find (λ v, bool_decide (Some (voice_id v) = selectedVoice)) voices.

Definition placeholder : string := "Chọn giọng nói...".

(** [selectedVoiceData?.name || placeholder]: an empty name is falsy. *)
Definition shown_name (voices : list Voice) (selectedVoice : option string)
  : string :=
  match selectedVoiceData voices selectedVoice with
  | Some v => if decide (voice_name v = "") then placeholder else voice_name v
  | None => placeholder
  end.

(** The check mark of the selector: [selectedVoice] is truthy. *)
Definition checked (selectedVoice : option string) : bool :=
  match selectedVoice with
  | Some v => negb (bool_decide (v = ""))
  | None => false
  end.

(** The page renders one card per speaker, with
    [selectedVoice={voiceMapping[speaker.label]}] and
    [onVoiceSelect={handleVoiceSelect}]. *)
Definition selectedVoice (speaker : ProjectPage.Speaker)
    (s : ProjectPage.State) : option string :=
  obj_get (property_key (ProjectPage.label speaker))
    (ProjectPage.voiceMapping s).


End SpeakerCard.

(** The landing page ([app/page.tsx]). *)
Module Home.

Record FormData : Type := mkFormData {
  name : string;
  original_language : string;
  target_language : string;
  num_speakers : Z
}.

Inductive Step : Type := upload | config.

Record State : Type := mkState {
  formData : FormData;
  videoFile : option File;
  step : Step;
  isUploading : bool;
  uploadProgress : Z
}.


(** The class [[^/.]] and the tail [[^/.]+$]: one character or more, none
    of them a slash or a dot, up to the end. *)
Definition plain (c : Ascii.ascii) : bool :=
  negb (bool_decide (c = "/"%char)) && negb (bool_decide (c = "."%char)).

Fixpoint all_plain (s : string) : bool :=
  match s with
  | EmptyString => true
  | String c s' => plain c && all_plain s'
  end.

Definition extension (s : string) : bool :=
  negb (bool_decide (s = "")) && all_plain s.

(** [name.replace(/\.[^/.]+$/, "")]: the leftmost place where the pattern
    matches is cut off; without a match the name is kept. *)
Fixpoint strip_extension (s : string) : string :=
  match s with
  | EmptyString => EmptyString
  | String c s' =>
      if bool_decide (c = "."%char) && extension s' then EmptyString
      else String c (strip_extension s')
  end.

Definition handleVideoSelect (file : File) (s : State) : State :=
  mkState (mkFormData (strip_extension (file_name file))
                      (original_language (formData s))
                      (target_language (formData s))
                      (num_speakers (formData s)))
          (Some file) config (isUploading s) (uploadProgress s).

(** One firing of the interval of [handleSubmit]:
    [setUploadProgress((prev) => Math.min(prev + 10, 90))]. *)
Definition tick (prev : Z) : Z := Z.min (prev + 10) 90.

Fixpoint ticks (n : nat) (prev : Z) : Z :=
  match n with
  | O => prev
  | S n' => ticks n' (tick prev)
  end.

(** [disabled={isUploading || !formData.name}] of the submit button. *)
Definition submit_disabled (s : State) : bool :=
  isUploading s || bool_decide (name (formData s) = "").

End Home.

(* ===================================================================== *)
(** * 7. The segment ledger and the speaker registry *)
(* ===================================================================== *)

(** The share of one segment in the statistics of speaker [sid]. *)
Definition refers (sid : string) (r : Segments.Row) : bool :=
  bool_decide (Segments.speaker_id r = Some sid).

(** The sum of [g] over the rows of the table. *)
Definition total (g : Segments.Row → Z) (segs : gmap string Segments.Row) : Z :=
  map_fold (λ _ r acc, (acc + g r)%Z) 0%Z segs.

(** The sum of [end_ms - start_ms] over the segments that reference [sid],
    and their number. *)
Definition duration_of (sid : string) (segs : gmap string Segments.Row) : Z :=
  total (λ r, if refers sid r then Segments.duration r else 0%Z) segs.

Definition count_of (sid : string) (segs : gmap string Segments.Row) : Z :=
  total (λ r, if refers sid r then 1%Z else 0%Z) segs.

(** The invariant of the Speaker record. *)
Definition stats_ok (d : Db) : Prop :=
  ∀ sid r, speakers d !! sid = Some r →
    Speakers.total_duration_ms r = duration_of sid (segments d)
    ∧ Speakers.segment_count r = count_of sid (segments d).

(** The foreign key [segments.speaker_id REFERENCES speakers(id)]. *)
Definition fk_ok (d : Db) : Prop :=
  ∀ k r sid, segments d !! k = Some r → Segments.speaker_id r = Some sid →
    is_Some (speakers d !! sid).

(** What the ledger keeps true. *)
Definition ledger_ok (d : Db) : Prop := stats_ok d ∧ fk_ok d.

Module Ledger.

(** Modelled from the spec: the validation failures of the Registry and
    Ledger operations (error taxonomy), which are not among the sources;
    a rejected operation writes nothing. [UnknownSegment] and
    [InvalidSegment] stand for a segment that does not exist and for a new
    segment that breaks the rules of [appendSegments]. *)
Inductive Rejected : Type :=
  | UnknownSpeakerError
  | StageMismatchError
  | UnknownSegment
  | InvalidSegment.

(** Modelled from the spec: the incremental adjustment of a Speaker's
    derived statistics, by [dd] milliseconds and [dc] segments. *)
Definition adjust (dd dc : Z) (r : Speakers.Row) : Speakers.Row :=
  Speakers.with_stats (Speakers.total_duration_ms r + dd)%Z
                      (Speakers.segment_count r + dc)%Z r.

(** Some speaker of project [pid] carries the label [l]. *)
Definition has_label (pid l : string) (d : Db) : bool :=
  bool_decide (Exists (λ kv : string * Speakers.Row,
                         Speakers.project_id kv.2 = pid
                         ∧ Speakers.speaker_label kv.2 = l)
                      (map_to_list (speakers d))).

(** The first of [ids] that is not the key of a speaker, and the ids after
    it. *)
Fixpoint unused_key (ids : list string) (d : Db)
  : option (string * list string) :=
  match ids with
  | [] => None
  | i :: ids' =>
      if decide (i ∈ dom (speakers d)) then unused_key ids' d
      else Some (i, ids')
  end.

(** Modelled from the spec: [registerSpeakers] of the Speaker Registry,
    which is not among the sources. Idempotent: a Speaker is created for
    each label the project does not have yet, with no voice and zero
    statistics. The keys of the new rows are taken from [ids]; a label
    for which no unused key is left is skipped. *)
Fixpoint registerSpeakers (pid : string) (labels ids : list string) (d : Db)
  : Db :=
  match labels with
  | [] => d
  | l :: labels' =>
      if has_label pid l d then registerSpeakers pid labels' ids d
      else
        match unused_key ids d with
        | None => registerSpeakers pid labels' [] d
        | Some (i, ids') =>
            registerSpeakers pid labels' ids'
              (mkDb (projects d)
                    (<[i := Speakers.mkRow pid l None None None 0 0]>
                       (speakers d))
                    (segments d))
        end
  end.

(** The largest [sequence] assigned so far in project [pid], if any. *)
Definition max_sequence (pid : string) (segs : gmap string Segments.Row)
  : option Z :=
  map_fold (λ _ r acc,
              if decide (Segments.project_id r = pid)
              then Some (match acc with
                         | Some m => Z.max m (Segments.sequence r)
                         | None => Segments.sequence r
                         end)
              else acc) None segs.

(** [x] exceeds the largest sequence, if there is one. *)
Definition above (o : option Z) (x : Z) : bool :=
  match o with
  | Some m => (m <? x)%Z
  | None => true
  end.

(** Modelled from the spec: one segment of [appendSegments]. A new segment
    belongs to the project, has [start_ms < end_ms], a [sequence] above
    every sequence assigned so far in the project, an unused key and, if it
    names a speaker, an existing one; the speaker's derived statistics are
    maintained incrementally. *)
Definition append_one (pid : string) (kr : string * Segments.Row) (d : Db)
  : Db + Rejected :=
  let (k, r) := kr in
  if bool_decide (Segments.project_id r = pid
                  ∧ (Segments.start_ms r < Segments.end_ms r)%Z
                  ∧ segments d !! k = None)
     && above (max_sequence pid (segments d)) (Segments.sequence r)
  then
    match Segments.speaker_id r with
    | None =>
        inl (mkDb (projects d) (speakers d) (<[k := r]> (segments d)))
    | Some sid =>
        match speakers d !! sid with
        | Some _ =>
            inl (mkDb (projects d)
                      (alter (adjust (Segments.duration r) 1) sid
                             (speakers d))
                      (<[k := r]> (segments d)))
        | None => inr UnknownSpeakerError
        end
    end
  else inr InvalidSegment.

(** Modelled from the spec: [appendSegments] of the Segment Ledger, which
    is not among the sources. The segments are appended in order; one bad
    segment rejects the whole call, with no partial write. *)
Fixpoint appendSegments (pid : string) (new : list (string * Segments.Row))
  (d : Db) : Db + Rejected :=
  match new with
  | [] => inl d
  | kr :: rest =>
      match append_one pid kr d with
      | inl d' => appendSegments pid rest d'
      | inr e => inr e
      end
  end.

(** Modelled from the spec: [reassignSpeaker] of the Segment Ledger, which
    is not among the sources. Updates the back-reference and adjusts the
    losing and the gaining Speaker's [total_duration_ms] and
    [segment_count] by the segment's duration and by one, without
    recomputing either. *)
Definition reassignSpeaker (k newSpeakerId : string) (d : Db)
  : Db + Rejected :=
  match segments d !! k with
  | None => inr UnknownSegment
  | Some seg =>
      match speakers d !! newSpeakerId with
      | None => inr UnknownSpeakerError
      | Some _ =>
          let dur := Segments.duration seg in
          let losing :=
            match Segments.speaker_id seg with
            | Some old => alter (adjust (- dur) (-1)) old (speakers d)
            | None => speakers d
            end in
          inl (mkDb (projects d)
                    (alter (adjust dur 1) newSpeakerId losing)
                    (<[k := Segments.with_speaker (Some newSpeakerId) seg]>
                       (segments d)))
      end
  end.

(** The project of the segment is in stage [st]. *)
Definition in_stage (st : ProjectStatus) (seg : Segments.Row) (d : Db) : bool :=
  bool_decide (Projects.status <$> projects d !! Segments.project_id seg
               = Some st).

(** Modelled from the spec: [setTranslation] of the Segment Ledger, which
    is not among the sources. A field-level update, rejected with
    [StageMismatchError] unless the project is in [translating]. *)
Definition setTranslation (k text : string) (d : Db) : Db + Rejected :=
  match segments d !! k with
  | None => inr UnknownSegment
  | Some seg =>
      if in_stage translating seg d
      then inl (mkDb (projects d) (speakers d)
                  (<[k := Segments.mkRow (Segments.project_id seg)
                            (Segments.speaker_id seg) (Segments.start_ms seg)
                            (Segments.end_ms seg) (Segments.original_text seg)
                            (Some text) (Segments.dubbed_audio_url seg)
                            (Segments.sequence seg)]> (segments d)))
      else inr StageMismatchError
  end.

(** Modelled from the spec: [setDubbedAudio] of the Segment Ledger, which
    is not among the sources. A field-level update, rejected with
    [StageMismatchError] unless the project is in [dubbing]. *)
Definition setDubbedAudio (k url : string) (d : Db) : Db + Rejected :=
  match segments d !! k with
  | None => inr UnknownSegment
  | Some seg =>
      if in_stage dubbing seg d
      then inl (mkDb (projects d) (speakers d)
                  (<[k := Segments.mkRow (Segments.project_id seg)
                            (Segments.speaker_id seg) (Segments.start_ms seg)
                            (Segments.end_ms seg) (Segments.original_text seg)
                            (Segments.translated_text seg) (Some url)
                            (Segments.sequence seg)]> (segments d)))
      else inr StageMismatchError
  end.

(** Modelled from the spec: the operations that touch speakers and
    segments, those of the Ledger and of the Registry; to them is added the
    deletion of a speaker, carried out as the schema has it. *)
Inductive Op : Type :=
  | RegisterSpeakers (pid : string) (labels ids : list string)
  | AppendSegments (pid : string) (new : list (string * Segments.Row))
  | ReassignSpeaker (k newSpeakerId : string)
  | SetTranslation (k text : string)
  | SetDubbedAudio (k url : string)
  | DeleteSpeaker (sid : string).

(** Modelled from the spec: a rejected operation writes nothing. *)
Definition keep (d : Db) (r : Db + Rejected) : Db :=
  match r with
  | inl d' => d'
  | inr _ => d
  end.

(** Modelled from the spec: one operation, then a sequence of them. *)
Definition exec (d : Db) (op : Op) : Db :=
  match op with
  | RegisterSpeakers pid labels ids => registerSpeakers pid labels ids d
  | AppendSegments pid new => keep d (appendSegments pid new d)
  | ReassignSpeaker k s => keep d (reassignSpeaker k s d)
  | SetTranslation k t => keep d (setTranslation k t d)
  | SetDubbedAudio k u => keep d (setDubbedAudio k u d)
  | DeleteSpeaker sid => delete_speaker sid d
  end.

Definition exec_all (ops : list Op) (d : Db) : Db := foldl exec d ops.

End Ledger.

(* ===================================================================== *)
(** * 8. Functions the statements below are written with *)
(* ===================================================================== *)

(** The outcome the next Supabase request will get, and the world once it
    has been taken from the queue. *)
Definition head_reply (w : World) : Reply :=
  match replies w with
  | [] => Applied
  | r :: _ => r
  end.

Definition pop (w : World) : World :=
  match replies w with
  | [] => w
  | _ :: rs => with_replies rs w
  end.

(** What [NOW()] gives the next statement, and the world once that time
    has been read. *)
Definition head_time (w : World) : Z :=
  match server_time w with
  | [] => 0%Z
  | t :: _ => t
  end.

Definition pop_time (w : World) : World :=
  match server_time w with
  | [] => w
  | _ :: ts => with_server_time ts w
  end.

(** The entries of a mapping whose speaker update is applied, given the
    outcomes of the requests in order. *)
Fixpoint applied_entries (entries : Obj) (rs : list Reply) : Obj :=
  match entries, rs with
  | [], _ => []
  | _, [] => entries
  | kv :: rest, Applied :: rs' => kv :: applied_entries rest rs'
  | _ :: rest, Refused _ :: rs' => applied_entries rest rs'
  end.

(** The speaker updates of the given entries, carried out in order. *)
Definition assign_db (id : string) (entries : Obj) (d : Db) : Db :=
  foldl (λ d kv, update_speaker_voice id kv.1 kv.2 d) d entries.

(** The update [assignVoices] sends for the project row. *)
Definition mapping_update (mappings : Obj) : Projects.Update :=
  {| Projects.set_original_video_url := None;
     Projects.set_voice_mapping := Some mappings;
     Projects.set_status := None |}.

(** The database states a reader can see while the speaker updates of
    [entries] go through one after the other, starting from [d]: [d]
    itself, then one state per further entry written. *)
Fixpoint prefixes_seen (id : string) (entries : Obj) (d : Db) : list Db :=
  match entries with
  | [] => [d]
  | kv :: rest =>
      d :: prefixes_seen id rest (update_speaker_voice id kv.1 kv.2 d)
  end.

(** The voice a speaker row ends up with once the entries of [m] have been
    written for project [id]: the entry under its label if it belongs to
    the project and has one, its old voice otherwise. *)
Definition assigned (id : string) (m : Obj) (r : Speakers.Row) : Speakers.Row :=
  if decide (Speakers.project_id r = id)
  then match obj_get (Speakers.speaker_label r) m with
       | Some v => Speakers.with_voice v r
       | None => r
       end
  else r.

(** The [process] command for project [id]. *)
Definition process_command (id : string) (m : Obj) : Posted :=
  mkPosted ("/api/projects/" +:+ id +:+ "/process") (Some m).

(** What holds of the page's observer after every event: the recorded
    dependency is that of the project on display, a cleanup is pending
    exactly when the last run of the effect set an interval, and that
    interval is the only one. *)
Definition observer_ok (o : ProjectPage.Observer) : Prop :=
  ProjectPage.last_dep o = ProjectPage.dep (ProjectPage.observed o)
  ∧ ProjectPage.has_cleanup o
    = ProjectPage.mounted o && ProjectPage.polls (ProjectPage.observed o)
  ∧ ProjectPage.intervals o = (if ProjectPage.has_cleanup o then 1 else 0)%nat.

(** Two segment rows that differ at most in [speaker_id]. *)
Definition same_but_speaker (r r' : Segments.Row) : Prop :=
  Segments.project_id r' = Segments.project_id r
  ∧ Segments.start_ms r' = Segments.start_ms r
  ∧ Segments.end_ms r' = Segments.end_ms r
  ∧ Segments.original_text r' = Segments.original_text r
  ∧ Segments.translated_text r' = Segments.translated_text r
  ∧ Segments.dubbed_audio_url r' = Segments.dubbed_audio_url r
  ∧ Segments.sequence r' = Segments.sequence r.

(** A run of the ledger on an empty project: two speakers are registered,
    one segment is appended for the first and then reassigned to the
    second. *)
Definition sample_ops : list Ledger.Op :=
  [Ledger.RegisterSpeakers "p1" ["spk0"; "spk1"] ["s0"; "s1"];
   Ledger.AppendSegments "p1"
     [("g0", Segments.mkRow "p1" (Some "s0") 1000 3000 None None None 1)];
   Ledger.ReassignSpeaker "g0" "s1"].

Definition sample_start : Db :=
  mkDb {[ "p1" := Projects.inserted 0
                    (Projects.mkInsert "clip" "en" "vi" 2 diarizing) ]} ∅ ∅.



(** Two project rows that differ at most in [status] and [updated_at]. *)
Definition same_but_status (r r' : Projects.Row) : Prop :=
  Projects.name r' = Projects.name r
  ∧ Projects.original_video_url r' = Projects.original_video_url r
  ∧ Projects.output_video_url r' = Projects.output_video_url r
  ∧ Projects.original_language r' = Projects.original_language r
  ∧ Projects.target_language r' = Projects.target_language r
  ∧ Projects.num_speakers r' = Projects.num_speakers r
  ∧ Projects.voice_mapping r' = Projects.voice_mapping r
  ∧ Projects.error_message r' = Projects.error_message r
  ∧ Projects.user_id r' = Projects.user_id r
  ∧ Projects.progress r' = Projects.progress r
  ∧ Projects.processing_server_task_id r' = Projects.processing_server_task_id r
  ∧ Projects.created_at r' = Projects.created_at r
  ∧ Projects.completed_at r' = Projects.completed_at r.

(** A string [encodeURI] leaves as it is character by character. *)
Fixpoint uri_plain (s : string) : bool :=
  match s with
  | EmptyString => true
  | String c s' => uri_unescaped c && uri_plain s'
  end.

(** [sep] starts nowhere inside [pre] when [pre] is followed by [rest]. *)
Fixpoint clear_before (sep pre rest : string) : bool :=
  match pre with
  | EmptyString => true
  | String c pre' =>
      negb (String.prefix sep (pre +:+ rest)) && clear_before sep pre' rest
  end.

(** ** Sample data *)

Definition sample_data : CreateData :=
  mkCreateData "clip" "en" "vi" 2 (mkFile "clip.mp4").

Definition sample_project (s : ProjectStatus) : Projects.Row :=
  Projects.inserted 0 (Projects.mkInsert "clip" "en" "vi" 2 s).

Definition sample_speaker (l : string) : Speakers.Row :=
  Speakers.mkRow "p1" l None None None 0 0.

(** Project [p1] waiting for voices, with its two speakers and no
    segments. *)
Definition sample_db : Db :=
  mkDb {[ "p1" := sample_project voice_mapping ]}
       (<[ "s0" := sample_speaker "spk0" ]> {[ "s1" := sample_speaker "spk1" ]})
       ∅.

Definition sample_mapping : Obj := [("spk0", "v1"); ("spk1", "v2")].

(** A state of the page showing that project, with a mapping that has an
    entry under the label of each speaker. *)
Definition sample_page : ProjectPage.State :=
  ProjectPage.mkState
    (Some (ProjectPage.mkProject voice_mapping
             [Speakers.object "s0" (sample_speaker "spk0");
              Speakers.object "s1" (sample_speaker "spk1")]))
    sample_mapping false None.

(** The same project once two segments have been attributed: [g0] to
    [spk0] (1000 ms to 3000 ms) and [g1] to [spk1] (3000 ms to 4500 ms). *)
Definition sample_segment (sid : string) (a b n : Z) : Segments.Row :=
  Segments.mkRow "p1" (Some sid) a b None None None n.

Definition sample_ledger : Db :=
  mkDb {[ "p1" := sample_project voice_mapping ]}
       (<[ "s0" := Speakers.with_stats 2000 1 (sample_speaker "spk0") ]>
          {[ "s1" := Speakers.with_stats 1500 1 (sample_speaker "spk1") ]})
       (<[ "g0" := sample_segment "s0" 1000 3000 1 ]>
          {[ "g1" := sample_segment "s1" 3000 4500 2 ]}).

(* ===================================================================== *)
(** * 9. Properties *)
(* ===================================================================== *)

(** ** Status values *)

Lemma members_complete (s : ProjectStatus) : s ∈ ProjectStatus_members.
Proof. destruct s; unfold ProjectStatus_members; set_solver. Qed.

Lemma status_string_inj (s t : ProjectStatus) :
  status_string s = status_string t → s = t.
Proof. destruct s, t; simpl; congruence. Qed.

(** C7. The project status values are exactly the eleven strings of the
    external interface: the labels of the persisted enum [project_status]
    are that list; the members of the client-side type [ProjectStatus] stand
    for that list, label by label; no two values share a label; every
    member is listed; a string is a label of the enum exactly when it is the
    literal of a member of the client type, and reading a label back gives
    that member. *)
Theorem C7_status_values_exact :
  project_status = spec_status_values
  ∧ status_string <$> ProjectStatus_members = spec_status_values
  ∧ length spec_status_values = 11
  ∧ NoDup spec_status_values
  ∧ (∀ s : ProjectStatus, s ∈ ProjectStatus_members)
  ∧ (∀ s t, status_string s = status_string t → s = t)
  ∧ (∀ l : string, l ∈ project_status ↔ ∃ s, status_string s = l)
  ∧ (∀ s : ProjectStatus, parse_status (status_string s) = Some s)
  ∧ (∀ l s, parse_status l = Some s → status_string s = l).
Proof.
  split; [reflexivity|]. split; [reflexivity|]. split; [reflexivity|].
  split.
  { unfold spec_status_values. compute_done. }
  split; [exact members_complete|].
  split; [exact status_string_inj|].
  split.
  { intros l. split.
    - intros Hl. unfold project_status in Hl.
      repeat (apply elem_of_cons in Hl as [-> | Hl];
              [ first [ by exists pending | by exists uploading
                      | by exists diarizing | by exists transcribing
                      | by exists translating | by exists voice_mapping
                      | by exists dubbing | by exists mixing
                      | by exists rendering | by exists completed
                      | by exists failed ] | ]).
      by apply elem_of_nil in Hl.
    - intros [s <-]. destruct s; unfold project_status; set_solver. }
  split.
  { intros s. destruct s; reflexivity. }
  intros l s Hp. unfold parse_status in Hp.
  apply find_some in Hp as [_ Hp].
  by apply bool_decide_eq_true in Hp.
Qed.

Lemma C7_status_values_exact_witness :
  parse_status "voice_mapping" = Some voice_mapping
  ∧ status_string voice_mapping = "voice_mapping".
Proof.
  split; [reflexivity|].
  destruct C7_status_values_exact as (_ & _ & _ & _ & _ & _ & _ & _ & Hparse).
  apply (Hparse "voice_mapping" voice_mapping). reflexivity.
Defined.

(** ** Requests, one at a time *)

Lemma next_reply_eq (w : World) : next_reply w = (Ok (head_reply w), pop w).
Proof. unfold next_reply, head_reply, pop. by destruct (replies w). Qed.

Lemma db_pop (w : World) : db (pop w) = db w.
Proof. unfold pop. by destruct (replies w). Qed.

Lemma write_eq (f : Db → Db) (w : World) :
  write f w =
    match head_reply w with
    | Applied => (Ok None, with_db (f (db w)) (pop w))
    | Refused e => (Ok (Some e), pop w)
    end.
Proof.
  unfold write, bind. rewrite next_reply_eq.
  destruct (head_reply w); [|done]. by rewrite db_pop.
Qed.

Lemma NOW_eq (w : World) : NOW w = (Ok (head_time w), pop_time w).
Proof. unfold NOW, head_time, pop_time. by destruct (server_time w). Qed.

Lemma db_pop_time (w : World) : db (pop_time w) = db w.
Proof. unfold pop_time. by destruct (server_time w). Qed.

Lemma pop_time_fields (w : World) :
  replies (pop_time w) = replies w ∧ fetches (pop_time w) = fetches w
  ∧ posted (pop_time w) = posted w ∧ history (pop_time w) = history w
  ∧ storage (pop_time w) = storage w.
Proof. unfold pop_time. by destruct (server_time w). Qed.

Lemma head_time_pop (w : World) : head_time (pop w) = head_time w.
Proof. unfold pop, head_time. by destruct (replies w). Qed.

Lemma write_now_eq (f : Z → Db → Db) (w : World) :
  write_now f w =
    match head_reply w with
    | Applied => (Ok None, with_db (f (head_time w) (db w)) (pop_time (pop w)))
    | Refused e => (Ok (Some e), pop w)
    end.
Proof.
  unfold write_now, bind. rewrite next_reply_eq.
  destruct (head_reply w); [|done].
  by rewrite NOW_eq, db_pop_time, db_pop, head_time_pop.
Qed.

Lemma read_eq {A} (f : Db → A) (w : World) :
  read f w =
    match head_reply w with
    | Applied => (Ok (inl (f (db w))), pop w)
    | Refused e => (Ok (inr e), pop w)
    end.
Proof.
  unfold read, bind. rewrite next_reply_eq.
  destruct (head_reply w); [|done]. by rewrite db_pop.
Qed.

(** ** Status transitions *)

(** C2, as the code has it. The schema and the client constrain no status
    change: for every project row, whatever its status (terminal or not),
    and every target status, the update of [status] that the server applies
    succeeds and returns the row with the target status. The trigger of the
    table sets [updated_at] to the time of the update; every other column
    of the row, every other project, the speakers and the segments are as
    before. *)
Theorem C2_status_update_unconstrained
    (id : string) (x : ProjectStatus) (w : World) (r : Projects.Row) :
  projects (db w) !! id = Some r →
  head_reply w = Applied →
  let u := Projects.mkUpdate None None (Some x) in
  let t := head_time w in
  let r' := Projects.updated t u r in
  update_select_single id u w
    = (Ok (inl (id, r')),
       with_db (update_project t id u (db w)) (pop_time (pop w)))
  ∧ projects (update_project t id u (db w)) = <[id := r']> (projects (db w))
  ∧ Projects.status r' = x
  ∧ Projects.updated_at r' = t
  ∧ same_but_status r r'
  ∧ speakers (update_project t id u (db w)) = speakers (db w)
  ∧ segments (update_project t id u (db w)) = segments (db w).
Proof.
  intros Hr Ha u t r'.
  assert (Hl : projects (update_project t id u (db w)) !! id = Some r').
  { unfold update_project. simpl. rewrite lookup_alter_eq, Hr. done. }
  split.
  { unfold update_select_single, bind. rewrite write_now_eq, Ha.
    unfold get_db. cbn [db with_db]. fold t. rewrite Hl. done. }
  split.
  { unfold update_project. simpl. apply map_eq. intros k.
    destruct (decide (k = id)) as [->|Hne].
    - by rewrite lookup_alter_eq, lookup_insert_eq, Hr.
    - by rewrite lookup_alter_ne, lookup_insert_ne. }
  split; [done|]. split; [done|]. split; [|done].
  unfold same_but_status. by repeat split.
Qed.

Lemma C2_status_update_unconstrained_witness :
  let w := with_server_time [7%Z]
             (calm (mkDb {[ "p1" := sample_project completed ]} ∅ ∅)) in
  let r' := Projects.updated 7
              (Projects.mkUpdate None None (Some pending))
              (sample_project completed) in
  projects (db w) !! "p1" = Some (sample_project completed)
  ∧ head_reply w = Applied
  ∧ Projects.status r' = pending
  ∧ Projects.updated_at r' = 7%Z.
Proof.
  intros w r'.
  split; [reflexivity|]. split; [reflexivity|].
  destruct (C2_status_update_unconstrained "p1" pending w
              (sample_project completed) eq_refl eq_refl)
    as (_ & _ & Hstatus & Hat & _).
  split; [exact Hstatus | exact Hat].
Defined.

(** C2 fails as stated: [projectsApi.create] inserts its project in
    [uploading] and then moves it to [pending]; the request succeeds, and
    [pending] is neither the successor of [uploading] in [statusOrder] nor
    [failed]. *)
Lemma C2_counterexample :
  let w := with_uuids ["p1"] (calm empty_db) in
  ∃ before after row w',
    projectsApi.create sample_data w = (Ok ("p1", row), w')
    ∧ history w' = [before; after]
    ∧ Projects.status <$> projects before !! "p1" = Some uploading
    ∧ Projects.status <$> projects after !! "p1" = Some pending
    ∧ terminal uploading = false
    ∧ immediate_successor uploading pending = false
    ∧ pending ≠ failed.
Proof.
  intros w.
  pose (res := projectsApi.create sample_data w).
  pose (h := history res.2).
  exists (default empty_db (h !! 0%nat)), (default empty_db (h !! 1%nat)).
  eexists _, res.2.
  split; [vm_compute; reflexivity|].
  split; [vm_compute; reflexivity|].
  split; [vm_compute; reflexivity|].
  split; [vm_compute; reflexivity|].
  split; [reflexivity|]. split; [reflexivity|]. discriminate.
Qed.

(** ** Project creation *)

Ltac fields :=
  cbn [replies uuids db storage clock fetches supabaseUrl history posted
       server_time with_replies with_uuids with_db with_storage with_fetches
       with_posted with_server_time].

Ltac run_async :=
  repeat (progress (unfold bind, try_catch, ret, throw, next_reply, next_uuid,
                      now, NOW, get_db, write, write_now, read, post,
                      next_fetch; fields)).

Lemma fresh_not_in_dom (d : Db) (id : string) :
  projects d !! id = None → id ∉ dom (projects d).
Proof. intros H. by apply not_elem_of_dom. Qed.

Lemma delete_inserted_project (d : Db) (id : string) (r : Projects.Row) :
  projects d !! id = None →
  projects (delete_project id (insert_project id r d)) = projects d.
Proof.
  intros H. unfold delete_project, insert_project. simpl.
  rewrite delete_insert_eq. by apply delete_id.
Qed.

Lemma updated_inserted_project (d : Db) (id : string) (r : Projects.Row)
    (u : Projects.Update) (now : Z) :
  projects (update_project now id u (insert_project id r d)) !! id
  = Some (Projects.updated now u r).
Proof.
  unfold update_project, insert_project. simpl.
  by rewrite lookup_alter_eq, lookup_insert_eq.
Qed.

(** C9, as the code has it. [projectsApi.create] cleans up after a failure
    that follows the insertion, as far as the cleanup itself goes through.
    With the project inserted under the key [id]: if the upload is refused,
    if the object already exists, or if the follow-up update is refused,
    [create] sends the delete of the inserted row before it re-throws the
    error it caught, and when that delete is applied the [projects] table
    is what it was before the call, with no row under [id]. When every
    request goes through, [create] returns the row stored under [id], with
    [original_video_url] set to the public URL of the uploaded object and
    [status] [pending]. *)
Theorem C9_create_cleans_up
    (data : CreateData) (w : World) (id : string) (us : list string) :
  uuids w = id :: us →
  projects (db w) !! id = None →
  let fileName := id +:+ "/original_" +:+ pretty (clock w) +:+ "_"
                  +:+ file_name (data_video data) in
  (∀ e rs, replies w = Applied :: Refused e :: Applied :: rs →
     ∃ w', projectsApi.create data w = (Throw e, w')
           ∧ projects (db w') = projects (db w)
           ∧ projects (db w') !! id = None)
  ∧ (∀ rs, replies w = Applied :: Applied :: Applied :: rs →
     fileName ∈ storage w →
     ∃ w', projectsApi.create data w = (Throw "The resource already exists", w')
           ∧ projects (db w') = projects (db w)
           ∧ projects (db w') !! id = None)
  ∧ (∀ e rs, replies w = Applied :: Applied :: Refused e :: Applied :: rs →
     fileName ∉ storage w →
     ∃ w', projectsApi.create data w = (Throw e, w')
           ∧ projects (db w') = projects (db w)
           ∧ projects (db w') !! id = None)
  ∧ (replies w = [] →
     fileName ∉ storage w →
     ∃ row w', projectsApi.create data w = (Ok (id, row), w')
           ∧ projects (db w') !! id = Some row
           ∧ Projects.original_video_url row
             = Some (getPublicUrl (supabaseUrl w) STORAGE_BUCKET fileName)
           ∧ Projects.status row = pending).
Proof.
  intros Hu Hf fileName.
  destruct w as [d st rp fe uu cl su hi po ti]. simpl in Hu, Hf. subst uu.
  subst fileName. fields.
  destruct ti as [|t0 [|t1 ti]]; repeat split.
  1,5,9: intros e rs ->;
    unfold projectsApi.create, insert_select_single; run_async;
    rewrite decide_False by (by apply fresh_not_in_dom); run_async;
    unfold uploadVideo, storage_upload; run_async;
    eexists; (split; [reflexivity|]); fields;
    rewrite delete_inserted_project by done; done.
  1,4,7: intros rs -> Hin;
    unfold projectsApi.create, insert_select_single; run_async;
    rewrite decide_False by (by apply fresh_not_in_dom); run_async;
    unfold uploadVideo, storage_upload; run_async;
    rewrite decide_True by done; run_async;
    eexists; (split; [reflexivity|]); fields;
    rewrite delete_inserted_project by done; done.
  1,3,5: intros e rs -> Hnin;
    unfold projectsApi.create, insert_select_single; run_async;
    rewrite decide_False by (by apply fresh_not_in_dom); run_async;
    unfold uploadVideo, storage_upload; run_async;
    rewrite decide_False by done; run_async;
    unfold update_select_single; run_async;
    eexists; (split; [reflexivity|]); fields;
    rewrite delete_inserted_project by done; done.
  all: intros -> Hnin;
    unfold projectsApi.create, insert_select_single; run_async;
    rewrite decide_False by (by apply fresh_not_in_dom); run_async;
    unfold uploadVideo, storage_upload; run_async;
    rewrite decide_False by done; run_async;
    unfold update_select_single; run_async;
    rewrite updated_inserted_project;
    eexists _, _; (split; [reflexivity|]); fields;
    rewrite updated_inserted_project; done.
Qed.

Lemma C9_create_cleans_up_witness :
  let w := with_replies [Applied; Refused "offline"; Applied]
             (with_uuids ["p1"] (calm empty_db)) in
  uuids w = ["p1"]
  ∧ projects (db w) !! "p1" = None
  ∧ ∃ w', projectsApi.create sample_data w = (Throw "offline", w')
          ∧ projects (db w') !! "p1" = None.
Proof.
  intros w. split; [reflexivity|]. split; [reflexivity|].
  destruct (C9_create_cleans_up sample_data w "p1" [] eq_refl eq_refl)
    as (Hupload & _).
  destruct (Hupload "offline" [] eq_refl) as (w' & Hrun & _ & Hgone).
  exists w'. split; [exact Hrun | exact Hgone].
Defined.

(** C9 fails as stated: the upload is refused and so is the cleanup delete,
    whose result [create] does not look at; the error of the upload is
    re-thrown and the inserted row stays behind, in [uploading]. *)
Lemma C9_counterexample :
  let w := with_replies [Applied; Refused "offline"; Refused "offline"]
             (with_uuids ["p1"] (calm empty_db)) in
  ∃ w', projectsApi.create sample_data w = (Throw "offline", w')
        ∧ Projects.status <$> projects (db w') !! "p1" = Some uploading.
Proof.
  intros w. exists (projectsApi.create sample_data w).2.
  split; vm_compute; reflexivity.
Qed.

(** ** The voice catalogue *)

(** C10, as the code has it. When the request is rejected by the network
    or answered with a status that is not ok, [voicesApi.list] resolves
    with the nine default voices; when it is answered ok with a body that
    parses, [list] resolves with that body as it is, whatever voices it
    holds. *)
Theorem C10_list_fallback (w : World) (fs : list Fetched) :
  (∀ e, voicesApi.list (with_fetches (NetworkError e :: fs) w)
        = (Ok (voices_body voicesApi.default_voices), with_fetches fs w))
  ∧ (∀ json, voicesApi.list (with_fetches (Response false json :: fs) w)
        = (Ok (voices_body voicesApi.default_voices), with_fetches fs w))
  ∧ (∀ b, voicesApi.list (with_fetches (Response true (Some b) :: fs) w)
        = (Ok b, with_fetches fs w))
  ∧ length voicesApi.default_voices = 9
  ∧ NoDup (voice_id <$> voicesApi.default_voices).
Proof.
  repeat split; try (intros; unfold voicesApi.list; run_async; done).
  compute_done.
Qed.

(** C10 fails as stated: the server answers ok with an empty list of
    voices, and the list [voicesApi.list] returns is empty. *)
Lemma C10_counterexample :
  let w := with_fetches [Response true (Some (voices_body []))]
             (calm empty_db) in
  ∃ data w', voicesApi.list w = (Ok data, w')
             ∧ voicesApi.voices_of data = Some [].
Proof.
  intros w. exists (voices_body []), (with_fetches [] w).
  split; reflexivity.
Qed.

(** A body that does not parse rejects the promise [list] returned: the
    [return] inside the [try] does not wait for [response.json()]. *)
Example list_unparsable_body :
  let w := with_fetches [Response true None] (calm empty_db) in
  (voicesApi.list w).1 = Throw "Unexpected end of JSON input".
Proof. reflexivity. Qed.

(** ** Polling *)

Section Polling.
Import ProjectPage.

Lemma includes_processing (s : ProjectStatus) :
  includes processingStatuses s
  = negb (terminal s) && bool_decide (s ≠ pending)
    && bool_decide (s ≠ voice_mapping).
Proof. destruct s; reflexivity. Qed.

Lemma polls_dep (p q : option Project) : dep p = dep q → polls p = polls q.
Proof.
  destruct p as [p|], q as [q|]; simpl; try done.
  intros [= H]. by rewrite H.
Qed.

Lemma mount_ok : observer_ok mount.
Proof. by unfold observer_ok. Qed.

Lemma step_ok (o : Observer) (e : Event) : observer_ok o → observer_ok (step o e).
Proof.
  intros (Hd & Hc & Hi). destruct e as [p|]; simpl.
  - destruct (mounted o) eqn:Hm;
      [|unfold observer_ok; rewrite Hm; exact (conj Hd (conj Hc Hi))].
    case_decide as Heq.
    + unfold observer_ok; simpl. split; [by rewrite <- Heq|].
      split; [|done]. rewrite Hc. simpl.
      apply (polls_dep (observed o) (Some p)). by rewrite <- Hd, <- Heq.
    + unfold observer_ok, run_effect, cleanup; simpl.
      split; [done|]. split; [done|].
      rewrite Hi. by destruct (has_cleanup o), (includes _ _).
  - destruct (mounted o) eqn:Hm;
      [|unfold observer_ok; rewrite Hm; exact (conj Hd (conj Hc Hi))].
    unfold observer_ok, cleanup; simpl. split; [done|]. split; [done|].
    rewrite Hi. by destruct (has_cleanup o).
Qed.

Lemma run_ok (es : list Event) : observer_ok (run es).
Proof.
  unfold run. induction es as [|e es IH] using rev_ind.
  - exact mount_ok.
  - rewrite foldl_app. simpl. by apply step_ok.
Qed.

(** C6, as the code has it. After any sequence of project updates and
    unmounting, the polling timer is live exactly when the component is
    mounted and the project's status is one of [processingStatuses], that
    is, non-terminal, not [pending] and not [voice_mapping]; at most one
    timer is ever live. *)
Theorem C6_polling_exactly_processing (es : list Event) :
  let o := run es in
  polling o = mounted o && polls (observed o)
  ∧ (intervals o ≤ 1)%nat
  ∧ (polling o = true ↔
       mounted o = true
       ∧ ∃ p, observed o = Some p
              ∧ terminal (status p) = false
              ∧ status p ≠ pending
              ∧ status p ≠ voice_mapping).
Proof.
  intros o. destruct (run_ok es) as (Hd & Hc & Hi). fold o in Hd, Hc, Hi.
  assert (Hp : polling o = mounted o && polls (observed o)).
  { unfold polling. rewrite Hi, <- Hc. by destruct (has_cleanup o). }
  split; [exact Hp|]. split; [rewrite Hi; destruct (has_cleanup o); lia|].
  rewrite Hp, andb_true_iff. apply and_iff_compat_l.
  destruct (observed o) as [p|]; simpl.
  - rewrite includes_processing, !andb_true_iff, negb_true_iff,
      !bool_decide_eq_true.
    split.
    + intros [[? ?] ?]. by exists p.
    + intros (q & [= <-] & ? & ? & ?). done.
  - split; [done|]. by intros (? & ? & _).
Qed.

Lemma C6_polling_exactly_processing_witness :
  let o := ProjectPage.run
             [ProjectPage.SetProject (ProjectPage.mkProject dubbing []);
              ProjectPage.SetProject (ProjectPage.mkProject dubbing [])] in
  ProjectPage.polling o = true ∧ (ProjectPage.intervals o ≤ 1)%nat.
Proof.
  intros o.
  destruct (C6_polling_exactly_processing
              [ProjectPage.SetProject (ProjectPage.mkProject dubbing []);
               ProjectPage.SetProject (ProjectPage.mkProject dubbing [])])
    as (Hpoll & Hone & _).
  split; [exact Hpoll | exact Hone].
Defined.

(** C6 fails as stated: a project observed in [voice_mapping], an active
    stage that is neither terminal nor [pending], is not polled. *)
Lemma C6_counterexample :
  let o := run [SetProject (mkProject voice_mapping [])] in
  mounted o = true
  ∧ status <$> observed o = Some voice_mapping
  ∧ terminal voice_mapping = false
  ∧ voice_mapping ≠ pending
  ∧ polling o = false.
Proof. repeat split; done. Qed.

End Polling.

(** ** Deletion *)

Lemma set_null_same (gone : gset string) (r : Segments.Row) :
  same_but_speaker r (set_null gone r).
Proof.
  unfold set_null. destruct (Segments.speaker_id r); [case_decide|];
    by repeat split.
Qed.

Lemma storage_remove_db (paths : list string) (w : World) :
  ∃ r w', storage_remove paths w = (Ok r, w') ∧ db w' = db w
          ∧ replies w' = replies (pop w).
Proof.
  unfold storage_remove, bind. rewrite next_reply_eq.
  destruct (head_reply w); eexists _, _; (split; [reflexivity|]);
    by rewrite <- (db_pop w).
Qed.

Lemma bind_eq {A B} (m : M A) (k : A → M B) (w w1 : World) (a : A) :
  m w = (Ok a, w1) → bind m k w = k a w1.
Proof. intros H. unfold bind. by rewrite H. Qed.

Lemma read_ok {A} (f : Db → A) (w : World) :
  ∃ x, read f w = (Ok x, pop w).
Proof. rewrite read_eq. destruct (head_reply w); by eexists. Qed.

(** The storage step of [projectsApi.delete] leaves the database alone. *)
Lemma delete_files_db (selected : option Projects.Row + string) (w : World) :
  ∃ w1,
    (match selected with
     | inl (Some project) =>
         let filesToDelete :=
           (projectsApi.storage_path (Projects.original_video_url project)
            ++ projectsApi.storage_path (Projects.output_video_url project))%list
         in
         if decide (0 < length filesToDelete)
         then bind (storage_remove filesToDelete) (λ _, ret ())
         else ret ()
     | _ => ret ()
     end) w = (Ok (), w1)
    ∧ db w1 = db w.
Proof.
  destruct selected as [[project|]|e]; try (by eexists).
  simpl. case_decide; [|by eexists].
  destruct (storage_remove_db
    (projectsApi.storage_path (Projects.original_video_url project)
     ++ projectsApi.storage_path (Projects.output_video_url project)) w)
    as (r & w1 & Hrun & Hdb & _).
  exists w1. by rewrite (bind_eq _ _ _ _ _ Hrun).
Qed.

Lemma delete_outcome (id : string) (w : World) :
  (∃ w', projectsApi.delete id w = (Ok (), w')
         ∧ db w' = delete_project id (db w))
  ∨ (∃ e w', projectsApi.delete id w = (Throw e, w') ∧ db w' = db w).
Proof.
  unfold projectsApi.delete.
  destruct (read_ok (λ d, projects d !! id) w) as (selected & Hread).
  rewrite (bind_eq _ _ _ _ _ Hread).
  destruct (delete_files_db selected (pop w)) as (w1 & Hfiles & Hdb).
  rewrite (bind_eq _ _ _ _ _ Hfiles).
  rewrite db_pop in Hdb.
  unfold bind. rewrite write_eq.
  destruct (head_reply w1) as [|e].
  - left. eexists. split; [reflexivity|]. simpl. by rewrite Hdb.
  - right. eexists _, _. split; [reflexivity|]. by rewrite db_pop.
Qed.

Lemma set_null_singleton (sid : string) (r : Segments.Row) :
  set_null {[sid]} r
  = if refers sid r then Segments.with_speaker None r else r.
Proof.
  unfold set_null, refers. destruct (Segments.speaker_id r) as [s|] eqn:Hs.
  - case_decide as Hin; case_bool_decide as Heq; try done.
    + apply elem_of_singleton in Hin. congruence.
    + exfalso. apply Hin, elem_of_singleton. congruence.
  - by case_bool_decide.
Qed.

(** C8. Deleting a project removes its row, every speaker and every
    segment whose [project_id] is that project, and nothing else: the
    speakers and segments of other projects stay (a segment that stays
    differs at most in [speaker_id]). Deleting a speaker removes that
    speaker only and keeps every segment: a segment that referenced the
    speaker has [speaker_id] null and all its other columns as before, any
    other segment is unchanged. [projectsApi.delete] either resolves, and
    then the database is the one after that project deletion, or rejects,
    and then the database is unchanged. *)
Theorem C8_cascade_and_set_null :
  (∀ (pid : string) (d : Db),
     let d' := delete_project pid d in
     projects d' !! pid = None
     ∧ (∀ k, k ≠ pid → projects d' !! k = projects d !! k)
     ∧ (∀ k r, speakers d' !! k = Some r ↔
               speakers d !! k = Some r ∧ Speakers.project_id r ≠ pid)
     ∧ (∀ k r', segments d' !! k = Some r' →
               ∃ r, segments d !! k = Some r
                    ∧ Segments.project_id r ≠ pid
                    ∧ same_but_speaker r r')
     ∧ (∀ k r, segments d !! k = Some r → Segments.project_id r ≠ pid →
               ∃ r', segments d' !! k = Some r' ∧ same_but_speaker r r'))
  ∧ (∀ (sid : string) (d : Db),
     let d' := delete_speaker sid d in
     projects d' = projects d
     ∧ speakers d' !! sid = None
     ∧ (∀ k, k ≠ sid → speakers d' !! k = speakers d !! k)
     ∧ dom (segments d') = dom (segments d)
     ∧ (∀ k r, segments d !! k = Some r →
               Segments.speaker_id r = Some sid →
               ∃ r', segments d' !! k = Some r'
                     ∧ Segments.speaker_id r' = None
                     ∧ same_but_speaker r r')
     ∧ (∀ k r, segments d !! k = Some r →
               Segments.speaker_id r ≠ Some sid →
               segments d' !! k = Some r))
  ∧ (∀ (id : string) (w : World),
     (∃ w', projectsApi.delete id w = (Ok (), w')
            ∧ db w' = delete_project id (db w))
     ∨ (∃ e w', projectsApi.delete id w = (Throw e, w') ∧ db w' = db w)).
Proof.
  split; [|split; [|exact delete_outcome]].
  - intros pid d d'. subst d'. unfold delete_project. simpl.
    split; [apply lookup_delete_eq|].
    split; [intros k Hk; by apply lookup_delete_ne|].
    split; [intros k r; by rewrite map_lookup_filter_Some|].
    split.
    + intros k r' Hk. rewrite lookup_fmap in Hk.
      destruct (filter _ (segments d) !! k) as [r|] eqn:Hf; [|done].
      apply map_lookup_filter_Some in Hf as [Hr Hp]. simpl in Hp, Hk.
      injection Hk as <-. exists r. split; [done|]. split; [done|].
      apply set_null_same.
    + intros k r Hr Hp. eexists. rewrite lookup_fmap.
      rewrite (proj2 (map_lookup_filter_Some _ (segments d) k r));
        [|by split].
      split; [reflexivity|]. apply set_null_same.
  - intros sid d d'. subst d'. unfold delete_speaker. simpl.
    split; [done|]. split; [apply lookup_delete_eq|].
    split; [intros k Hk; by apply lookup_delete_ne|].
    split; [apply dom_fmap_L|].
    split.
    + intros k r Hr Hs. rewrite lookup_fmap, Hr. simpl.
      rewrite set_null_singleton. unfold refers.
      rewrite bool_decide_eq_true_2 by done.
      eexists. split; [reflexivity|]. split; [done|]. by repeat split.
    + intros k r Hr Hs. rewrite lookup_fmap, Hr. simpl.
      rewrite set_null_singleton. unfold refers.
      by rewrite bool_decide_eq_false_2.
Qed.

Lemma C8_cascade_and_set_null_witness :
  segments sample_ledger !! "g0" = Some (sample_segment "s0" 1000 3000 1)
  ∧ Segments.speaker_id (sample_segment "s0" 1000 3000 1) = Some "s0"
  ∧ ∃ r', segments (delete_speaker "s0" sample_ledger) !! "g0" = Some r'
          ∧ Segments.speaker_id r' = None
          ∧ same_but_speaker (sample_segment "s0" 1000 3000 1) r'.
Proof.
  split; [reflexivity|]. split; [reflexivity|].
  destruct C8_cascade_and_set_null as (_ & Hspeaker & _).
  destruct (Hspeaker "s0" sample_ledger) as (_ & _ & _ & _ & Hnull & _).
  apply (Hnull "g0" (sample_segment "s0" 1000 3000 1)); reflexivity.
Defined.


(** ** Voice assignment *)

Lemma prefixes_seen_lookup (id : string) (entries : Obj) (d : Db) (n : nat) :
  (n ≤ length entries)%nat →
  prefixes_seen id entries d !! n = Some (assign_db id (take n entries) d).
Proof.
  revert d n. induction entries as [|kv rest IH]; intros d n Hn.
  - simpl in Hn. by replace n with 0%nat by lia.
  - destruct n as [|n]; [done|]. simpl in Hn. simpl.
    apply IH. lia.
Qed.

Lemma prefixes_seen_length (id : string) (entries : Obj) (d : Db) :
  length (prefixes_seen id entries d) = S (length entries).
Proof.
  revert d. induction entries as [|kv rest IH]; intros d; [done|].
  simpl. by rewrite IH.
Qed.

Lemma applied_entries_nil (entries : Obj) : applied_entries entries [] = entries.
Proof. by destruct entries. Qed.

(** The loop of [assignVoices] never throws; it ends in the state in which
    exactly the applied entries are written, having shown every state on
    the way. *)
Lemma assign_each_run (id : string) (entries : Obj) (w : World) :
  ∃ w', projectsApi.assign_each id entries w = (Ok (), w')
        ∧ db w' = assign_db id (applied_entries entries (replies w)) (db w)
        ∧ history w'
          = (history w
             ++ tail (prefixes_seen id (applied_entries entries (replies w))
                        (db w)))%list
        ∧ fetches w' = fetches w
        ∧ posted w' = posted w
        ∧ replies w' = drop (length entries) (replies w)
        ∧ storage w' = storage w
        ∧ server_time w' = server_time w.
Proof.
  revert w. induction entries as [|[label voiceId] rest IH]; intros w.
  - exists w. simpl. by rewrite app_nil_r, drop_0.
  - cbn [projectsApi.assign_each].
    unfold bind at 1. rewrite write_eq.
    unfold head_reply, pop. destruct w as [d st rp fe uu cl su hi po ti]. fields.
    destruct rp as [|[|e] rs]; fields.
    + match goal with
      | |- context [projectsApi.assign_each id rest ?w0] =>
          destruct (IH w0) as (w' & -> & Hdb & Hh & Hf & Hp & Hr & Hst & Hti)
      end.
      exists w'. revert Hdb Hh Hf Hp Hr Hst Hti. fields.
      rewrite !applied_entries_nil. intros -> -> -> -> -> -> ->.
      repeat split.
      * simpl. rewrite <- app_assoc. f_equal. by destruct rest.
      * by rewrite !drop_nil.
    + match goal with
      | |- context [projectsApi.assign_each id rest ?w0] =>
          destruct (IH w0) as (w' & -> & Hdb & Hh & Hf & Hp & Hr & Hst & Hti)
      end.
      exists w'. revert Hdb Hh Hf Hp Hr Hst Hti. fields.
      intros -> -> -> -> -> -> ->.
      repeat split.
      simpl. rewrite <- app_assoc. f_equal.
      by destruct (applied_entries rest rs).
    + match goal with
      | |- context [projectsApi.assign_each id rest ?w0] =>
          destruct (IH w0) as (w' & -> & Hdb & Hh & Hf & Hp & Hr & Hst & Hti)
      end.
      exists w'. revert Hdb Hh Hf Hp Hr Hst Hti. fields.
      intros -> -> -> -> -> -> ->.
      repeat split.
Qed.

Lemma assign_db_cons (id : string) (kv : string * string) (rest : Obj) (d : Db) :
  assign_db id (kv :: rest) d
  = assign_db id rest (update_speaker_voice id kv.1 kv.2 d).
Proof. done. Qed.

Lemma assign_db_tables (id : string) (entries : Obj) (d : Db) :
  projects (assign_db id entries d) = projects d
  ∧ segments (assign_db id entries d) = segments d.
Proof.
  revert d. induction entries as [|kv rest IH]; intros d; [done|].
  rewrite assign_db_cons. destruct (IH (update_speaker_voice id kv.1 kv.2 d))
    as [-> ->]. done.
Qed.

Lemma obj_get_not_key (k : string) (o : Obj) :
  k ∉ obj_keys o → obj_get k o = None.
Proof.
  induction o as [|[k' v] o IH]; [done|]. simpl.
  intros Hk. apply not_elem_of_cons in Hk as [Hne Hk].
  rewrite decide_False by done. by apply IH.
Qed.

(** With pairwise distinct keys, the loop gives every speaker of the
    project the voice its label is mapped to, and touches no other
    speaker. *)
Lemma assign_db_speakers (id : string) (entries : Obj) (d : Db) :
  obj_wf entries →
  speakers (assign_db id entries d) = assigned id entries <$> speakers d.
Proof.
  revert d. induction entries as [|[k v] rest IH]; intros d Hwf.
  - simpl. rewrite <- (map_fmap_id (speakers d)) at 1.
    apply map_fmap_ext. intros i r _. unfold assigned. simpl.
    by case_decide.
  - rewrite assign_db_cons. unfold obj_wf in Hwf. simpl in Hwf.
    apply NoDup_cons in Hwf as [Hk Hwf]. rewrite (IH _ Hwf).
    unfold update_speaker_voice at 1. simpl.
    rewrite <- map_fmap_compose. apply map_fmap_ext. intros i r _. simpl.
    destruct (decide (Speakers.project_id r = id
                      ∧ Speakers.speaker_label r = k)) as [[Hp Hl]|Hn].
    + unfold assigned. simpl. rewrite !decide_True by done.
      by rewrite Hl, (obj_get_not_key k rest Hk).
    + unfold assigned. simpl.
      destruct (decide (Speakers.project_id r = id)) as [Hp|Hp]; [|done].
      by rewrite decide_False by (intros Heq; by apply Hn).
Qed.

(** C1, as the code has it. [assignVoices] writes in separate requests,
    the project's [voice_mapping] first and then one speaker after the
    other in the order of the mapping. If the first request is refused it
    throws and nothing is written. Otherwise it reports [updated] whatever
    becomes of the speaker updates: the database ends with the project's
    mapping replaced and exactly the speaker updates that were applied,
    and every state on the way, with the mapping written and only some of
    the speakers, has been a state of the database. *)
Theorem C1_assignVoices_stepwise (id : string) (mappings : Obj) (w : World) :
  match head_reply w with
  | Refused e =>
      projectsApi.assignVoices id mappings w = (Throw e, pop w)
      ∧ db (pop w) = db w
      ∧ history (pop w) = history w
  | Applied =>
      let d1 := update_project (head_time w) id (mapping_update mappings)
                  (db w) in
      let written := applied_entries mappings (replies (pop w)) in
      ∃ w', projectsApi.assignVoices id mappings w
            = (Ok ("updated", mappings), w')
            ∧ db w' = assign_db id written d1
            ∧ history w' = (history w ++ prefixes_seen id written d1)%list
            ∧ ∀ n, (n ≤ length written)%nat →
                   prefixes_seen id written d1 !! n
                   = Some (assign_db id (take n written) d1)
  end.
Proof.
  unfold projectsApi.assignVoices. fold (mapping_update mappings).
  destruct (head_reply w) as [|e] eqn:Hhead;
    unfold bind at 1; rewrite write_now_eq, Hhead.
  - set (d1 := update_project (head_time w) id (mapping_update mappings)
                 (db w)).
    set (written := applied_entries mappings (replies (pop w))).
    destruct (assign_each_run id mappings (with_db d1 (pop_time (pop w))))
      as (w' & Hrun & Hdb & Hh & _).
    destruct (pop_time_fields (pop w)) as (Hrp & _ & _ & Hhp & _).
    revert Hdb Hh. fields. rewrite Hrp, Hhp. fold written. intros Hdb Hh.
    unfold bind. rewrite Hrun. exists w'.
    split; [done|]. split; [exact Hdb|].
    split; [|intros n Hn; by apply prefixes_seen_lookup].
    rewrite Hh.
    replace (history (pop w)) with (history w)
      by (unfold pop; by destruct (replies w)).
    rewrite <- app_assoc. f_equal. by destruct written.
  - split; [done|]. unfold pop. by destruct (replies w).
Qed.

Lemma C1_assignVoices_stepwise_witness :
  let w := calm sample_db in
  let d1 := update_project 0 "p1" (mapping_update sample_mapping) sample_db in
  head_reply w = Applied
  ∧ prefixes_seen "p1" sample_mapping d1 !! 1%nat
    = Some (assign_db "p1" (take 1 sample_mapping) d1).
Proof.
  intros w d1. split; [reflexivity|].
  pose proof (C1_assignVoices_stepwise "p1" sample_mapping w) as H.
  change (head_reply w) with Applied in H. cbv zeta in H.
  destruct H as (w' & _ & _ & _ & Hseen).
  apply (Hseen 1%nat). simpl. lia.
Defined.

(** C1 fails as stated: with two speakers and a mapping for both, the
    update of the second speaker is refused; [assignVoices] still reports
    [updated], and what is left behind has the project's mapping and the
    first speaker written, the second speaker not. *)
Lemma C1_counterexample :
  let w := with_replies [Applied; Applied; Refused "timeout"]
             (calm sample_db) in
  ∃ w', projectsApi.assignVoices "p1" sample_mapping w
        = (Ok ("updated", sample_mapping), w')
        ∧ Projects.voice_mapping <$> projects (db w') !! "p1"
          = Some (Some sample_mapping)
        ∧ Speakers.elevenlabs_voice_id <$> speakers (db w') !! "s0"
          = Some (Some "v1")
        ∧ Speakers.elevenlabs_voice_id <$> speakers (db w') !! "s1"
          = Some None.
Proof.
  intros w. exists (projectsApi.assignVoices "p1" sample_mapping w).2.
  repeat split; vm_compute; reflexivity.
Qed.

(** Even when every request is applied, the states in between are states of
    the database: after the first request the project carries the mapping
    and no speaker has a voice yet. *)
Example assignVoices_in_between :
  let w' := (projectsApi.assignVoices "p1" sample_mapping (calm sample_db)).2 in
  length (history w') = 3%nat
  ∧ ∃ d, history w' !! 0%nat = Some d
         ∧ Projects.voice_mapping <$> projects d !! "p1"
           = Some (Some sample_mapping)
         ∧ Speakers.elevenlabs_voice_id <$> speakers d !! "s0" = Some None
         ∧ Speakers.elevenlabs_voice_id <$> speakers d !! "s1" = Some None.
Proof.
  intros w'. split; [vm_compute; reflexivity|].
  exists (update_project 0 "p1" (mapping_update sample_mapping) sample_db).
  repeat split; vm_compute; reflexivity.
Qed.

Lemma pop_fields (w : World) :
  fetches (pop w) = fetches w ∧ posted (pop w) = posted w
  ∧ history (pop w) = history w.
Proof. unfold pop. by destruct (replies w). Qed.

Lemma pop_calm (w : World) : replies w = [] → pop w = w.
Proof. intros H. unfold pop. by rewrite H. Qed.

Lemma head_calm (w : World) : replies w = [] → head_reply w = Applied.
Proof. intros H. unfold head_reply. by rewrite H. Qed.

(** [assignVoices] when every request is applied. *)
Lemma assignVoices_calm (id : string) (mappings : Obj) (w : World) :
  replies w = [] →
  ∃ w', projectsApi.assignVoices id mappings w
        = (Ok ("updated", mappings), w')
        ∧ db w' = assign_db id mappings
                    (update_project (head_time w) id (mapping_update mappings)
                       (db w))
        ∧ fetches w' = fetches w
        ∧ posted w' = posted w
        ∧ replies w' = []
        ∧ storage w' = storage w
        ∧ server_time w' = server_time (pop_time w).
Proof.
  intros Hr. unfold projectsApi.assignVoices. fold (mapping_update mappings).
  unfold bind at 1. rewrite write_now_eq, (head_calm w Hr), (pop_calm w Hr).
  destruct (assign_each_run id mappings
              (with_db (update_project (head_time w) id
                          (mapping_update mappings) (db w)) (pop_time w)))
    as (w' & Hrun & Hdb & _ & Hf & Hp & Hrs & Hst & Hti).
  destruct (pop_time_fields w) as (Hrp & Hfp & Hpp & _ & Hsp).
  unfold bind. rewrite Hrun. exists w'. revert Hdb Hf Hp Hrs Hst Hti. fields.
  rewrite Hrp, Hfp, Hpp, Hsp, Hr, applied_entries_nil, drop_nil. done.
Qed.

Lemma update_unknown_label (id label v : string) (d : Db) :
  (∀ sid r, speakers d !! sid = Some r → Speakers.project_id r = id →
            Speakers.speaker_label r ≠ label) →
  update_speaker_voice id label v d = d.
Proof.
  intros Hno. destruct d as [ps sp sg]. unfold update_speaker_voice. simpl.
  f_equal. rewrite <- (map_fmap_id sp) at 2.
  apply map_fmap_ext. intros sid r Hr. simpl.
  rewrite decide_False; [done|]. intros [Hp Hl]. by apply (Hno sid r).
Qed.

(** C4, as the code has it. [assignVoices] checks no key. For every
    mapping with distinct keys, when every request is applied it reports
    [updated]; the project's [voice_mapping] is replaced by the whole
    mapping, keys that are no speaker's label included; every speaker of the
    project whose label is a key gets the mapped voice and the other
    speakers are as before, so that the update for a label that no speaker
    of the project carries changes nothing. *)
Theorem C4_assignVoices_no_validation
    (id : string) (mappings : Obj) (w : World) :
  obj_wf mappings →
  replies w = [] →
  (∃ w', projectsApi.assignVoices id mappings w
         = (Ok ("updated", mappings), w')
         ∧ projects (db w')
           = alter (Projects.updated (head_time w) (mapping_update mappings))
               id (projects (db w))
         ∧ (∀ r, projects (db w) !! id = Some r →
                 Projects.voice_mapping <$> projects (db w') !! id
                 = Some (Some mappings))
         ∧ speakers (db w') = assigned id mappings <$> speakers (db w)
         ∧ segments (db w') = segments (db w))
  ∧ (∀ label v d,
       (∀ sid r, speakers d !! sid = Some r → Speakers.project_id r = id →
                 Speakers.speaker_label r ≠ label) →
       update_speaker_voice id label v d = d).
Proof.
  intros Hwf Hr. split; [|intros label v d; apply update_unknown_label].
  destruct (assignVoices_calm id mappings w Hr) as (w' & Hrun & Hdb & _).
  exists w'. split; [exact Hrun|]. rewrite Hdb.
  destruct (assign_db_tables id mappings
              (update_project (head_time w) id (mapping_update mappings)
                 (db w)))
    as [-> ->].
  rewrite assign_db_speakers by done. simpl.
  repeat split. intros r Hrow. by rewrite lookup_alter_eq, Hrow.
Qed.

Lemma C4_assignVoices_no_validation_witness :
  let m := [("spk0", "v1"); ("spk9", "v9")] in
  obj_wf m
  ∧ replies (calm sample_db) = []
  ∧ ∃ w', projectsApi.assignVoices "p1" m (calm sample_db)
          = (Ok ("updated", m), w')
          ∧ speakers (db w') = assigned "p1" m <$> speakers sample_db.
Proof.
  intros m.
  assert (Hwf : obj_wf m) by (unfold obj_wf, m; compute_done).
  split; [exact Hwf|]. split; [reflexivity|].
  destruct (C4_assignVoices_no_validation "p1" m (calm sample_db) Hwf eq_refl)
    as ((w' & Hrun & _ & _ & Hsp & _) & _).
  exists w'. split; [exact Hrun | exact Hsp].
Defined.

(** C4 fails as stated: [spk9] is the label of no speaker of the project,
    yet [assignVoices] reports [updated] and the project's [voice_mapping]
    is overwritten with the mapping that names it. *)
Lemma C4_counterexample :
  let m := [("spk9", "v9")] in
  Ledger.has_label "p1" "spk9" sample_db = false
  ∧ ∃ w', projectsApi.assignVoices "p1" m (calm sample_db)
          = (Ok ("updated", m), w')
          ∧ Projects.voice_mapping <$> projects sample_db !! "p1" = Some None
          ∧ Projects.voice_mapping <$> projects (db w') !! "p1"
            = Some (Some m).
Proof.
  intros m. split; [vm_compute; reflexivity|].
  exists (projectsApi.assignVoices "p1" m (calm sample_db)).2.
  repeat split; vm_compute; reflexivity.
Qed.

(** ** Starting the processing *)


(** [projectsApi.get] writes nothing. *)
Lemma get_quiet (id : string) (w : World) :
  ∃ r w', projectsApi.get id w = (r, w')
          ∧ db w' = db w ∧ posted w' = posted w.
Proof.
  unfold projectsApi.get.
  destruct (read_ok (λ d, projects d !! id) w) as (selected & Hsel).
  rewrite (bind_eq _ _ _ _ _ Hsel).
  assert (Hpop : ∀ w0, db (pop w0) = db w0 ∧ posted (pop w0) = posted w0).
  { intros w0. split; [apply db_pop | apply pop_fields]. }
  destruct selected as [[project|]|e].
  - destruct (read_ok (speakers_of id) (pop w)) as (listed & Hl).
    rewrite (bind_eq _ _ _ _ _ Hl).
    destruct (Hpop w) as [Hd Hp]. destruct (Hpop (pop w)) as [Hd' Hp'].
    destruct listed; eexists _, _; (split; [reflexivity|]); split; congruence.
  - eexists _, _. split; [reflexivity|]. apply Hpop.
  - eexists _, _. split; [reflexivity|]. apply Hpop.
Qed.

(** [fetchProject] never throws and writes nothing. *)
Lemma fetchProject_quiet (id : string) (s : ProjectPage.State) (w : World) :
  ∃ s' w', ProjectPage.fetchProject id s w = (Ok s', w')
           ∧ db w' = db w
           ∧ posted w' = posted w
           ∧ ProjectPage.isProcessing s' = ProjectPage.isProcessing s.
Proof.
  unfold ProjectPage.fetchProject, try_catch.
  destruct (get_quiet id w) as (r & w' & Hget & Hd & Hp).
  unfold bind. rewrite Hget. destruct r; eexists _, _; by split.
Qed.

Lemma obj_get_key (k : string) (o : Obj) :
  k ∈ obj_keys o → is_Some (obj_get k o).
Proof.
  induction o as [|[k' v] o IH]; simpl.
  - by intros ?%elem_of_nil.
  - intros Hk. case_decide; [by eexists|].
    apply elem_of_cons in Hk as [->|Hk]; [done|]. by apply IH.
Qed.

Lemma obj_get_None (k : string) (o : Obj) :
  obj_get k o = None ↔ k ∉ obj_keys o.
Proof.
  split; [|apply obj_get_not_key].
  intros Hn Hk. apply obj_get_key in Hk as [v Hv]. congruence.
Qed.

Lemma obj_set_keys (k v x : string) (o : Obj) :
  x ∈ obj_keys (obj_set k v o) ↔ x = k ∨ x ∈ obj_keys o.
Proof.
  induction o as [|[k' v'] o IH]; simpl.
  - rewrite list_elem_of_singleton. split; [by left|].
    intros [->|Hx]; [done|]. by apply elem_of_nil in Hx.
  - case_decide as Hk; simpl.
    + subst k'. rewrite !elem_of_cons. tauto.
    + rewrite !elem_of_cons, IH. tauto.
Qed.

Lemma obj_set_wf (k v : string) (o : Obj) : obj_wf o → obj_wf (obj_set k v o).
Proof.
  unfold obj_wf. induction o as [|[k' v'] o IH]; simpl.
  - intros _. apply NoDup_singleton.
  - intros [Hk' Hwf]%NoDup_cons. case_decide as Hk; simpl.
    + subst k'. by apply NoDup_cons.
    + apply NoDup_cons. split; [|by apply IH].
      fold (obj_keys (obj_set k v o)). rewrite obj_set_keys.
      intros [->|Hin]; [done|]. by apply Hk'.
Qed.






(** [startProcessing] itself has no check: called with an empty mapping
    for a project in [voice_mapping] whose speakers have no voice, it
    resolves; the [process] command goes out and the speakers still have
    no voice. *)
Example startProcessing_unguarded :
  Projects.status <$> projects sample_db !! "p1" = Some voice_mapping
  ∧ Speakers.elevenlabs_voice_id <$> speakers sample_db !! "s0" = Some None
  ∧ ∃ w', projectsApi.startProcessing "p1" [] (calm sample_db)
          = (Ok (ack_body "ok"), w')
          ∧ posted w' = [process_command "p1" []]
          ∧ Speakers.elevenlabs_voice_id <$> speakers (db w') !! "s0"
            = Some None.
Proof.
  split; [vm_compute; reflexivity|]. split; [vm_compute; reflexivity|].
  exists (projectsApi.startProcessing "p1" [] (calm sample_db)).2.
  repeat split; vm_compute; reflexivity.
Qed.

(** The check does not see what becomes of the writes either: with a
    mapping that has an entry for each of the two speakers, when the update
    of the second speaker is refused the command is sent all the same and
    that speaker is left without a voice. *)
Example handleProcess_speaker_left_unassigned :
  let w := with_replies [Applied; Applied; Refused "timeout"]
             (calm sample_db) in
  let w' := (ProjectPage.handleProcess "p1" sample_page w).2 in
  posted w' = [process_command "p1" sample_mapping]
  ∧ Speakers.elevenlabs_voice_id <$> speakers (db w') !! "s1" = Some None.
Proof. split; vm_compute; reflexivity. Qed.

(** ** The ledger's statistics *)

Section Totals.
Context (g : Segments.Row → Z).
Implicit Types segs : gmap string Segments.Row.

Lemma total_empty : total g ∅ = 0%Z.
Proof. unfold total. by rewrite map_fold_empty. Qed.

Lemma total_insert_fresh segs k r :
  segs !! k = None → total g (<[k := r]> segs) = (total g segs + g r)%Z.
Proof.
  intros Hk. unfold total.
  rewrite map_fold_insert_L; [done| |done].
  intros. lia.
Qed.

Lemma total_delete segs k r :
  segs !! k = Some r → total g segs = (total g (delete k segs) + g r)%Z.
Proof.
  intros Hk. rewrite <- (insert_delete_id segs k r Hk) at 1.
  apply total_insert_fresh, lookup_delete_eq.
Qed.

Lemma total_insert segs k r0 r :
  segs !! k = Some r0 →
  total g (<[k := r]> segs) = (total g segs - g r0 + g r)%Z.
Proof.
  intros Hk. rewrite <- insert_delete_eq.
  rewrite total_insert_fresh by apply lookup_delete_eq.
  rewrite (total_delete segs k r0 Hk). lia.
Qed.

End Totals.

Lemma total_ext (g h : Segments.Row → Z) (segs : gmap string Segments.Row) :
  (∀ k r, segs !! k = Some r → g r = h r) → total g segs = total h segs.
Proof.
  induction segs as [|k r segs Hk IH] using map_ind; intros Hgh.
  - by rewrite !total_empty.
  - rewrite !total_insert_fresh by done.
    rewrite (Hgh k r) by apply lookup_insert_eq.
    rewrite IH; [done|].
    intros k' r' Hk'. apply (Hgh k'). rewrite lookup_insert_ne; [done|].
    intros ->. congruence.
Qed.

Lemma total_fmap (g : Segments.Row → Z) (f : Segments.Row → Segments.Row)
    (segs : gmap string Segments.Row) :
  total g (f <$> segs) = total (g ∘ f) segs.
Proof. unfold total. by rewrite map_fold_fmap. Qed.

Lemma total_zero (g : Segments.Row → Z) (segs : gmap string Segments.Row) :
  (∀ k r, segs !! k = Some r → g r = 0%Z) → total g segs = 0%Z.
Proof.
  induction segs as [|k r segs Hk IH] using map_ind; intros Hg.
  - apply total_empty.
  - rewrite total_insert_fresh by done.
    rewrite (Hg k r) by apply lookup_insert_eq.
    rewrite IH; [done|].
    intros k' r' Hk'. apply (Hg k'). rewrite lookup_insert_ne; [done|].
    intros ->. congruence.
Qed.

(** The share of a row in a speaker's statistics depends on its
    [speaker_id] and its two times only. *)
Lemma refers_with_speaker (sid : string) (s : option string) (r : Segments.Row) :
  refers sid (Segments.with_speaker s r) = bool_decide (s = Some sid).
Proof. done. Qed.

Lemma refers_true (sid : string) (r : Segments.Row) :
  refers sid r = true ↔ Segments.speaker_id r = Some sid.
Proof. unfold refers. apply bool_decide_eq_true. Qed.

Lemma refers_false (sid : string) (r : Segments.Row) :
  refers sid r = false ↔ Segments.speaker_id r ≠ Some sid.
Proof. unfold refers. apply bool_decide_eq_false. Qed.

(** One step of bookkeeping: if every speaker's two statistics move by the
    same amounts as the sums over the segments, the statistics stay
    exact. *)
Lemma stats_step (d : Db) (ps : gmap string Projects.Row)
    (sp' : gmap string Speakers.Row) (sg' : gmap string Segments.Row) :
  stats_ok d →
  (∀ sid r', sp' !! sid = Some r' →
     ∃ r, speakers d !! sid = Some r
          ∧ (Speakers.total_duration_ms r' - Speakers.total_duration_ms r
             = duration_of sid sg' - duration_of sid (segments d))%Z
          ∧ (Speakers.segment_count r' - Speakers.segment_count r
             = count_of sid sg' - count_of sid (segments d))%Z) →
  stats_ok (mkDb ps sp' sg').
Proof.
  intros Hok Hstep sid r' Hr'. simpl in *.
  destruct (Hstep sid r' Hr') as (r & Hr & Hd & Hc).
  destruct (Hok sid r Hr) as [Hd0 Hc0]. lia.
Qed.

Lemma adjust_stats (dd dc : Z) (r : Speakers.Row) :
  Speakers.total_duration_ms (Ledger.adjust dd dc r)
  = (Speakers.total_duration_ms r + dd)%Z
  ∧ Speakers.segment_count (Ledger.adjust dd dc r)
    = (Speakers.segment_count r + dc)%Z.
Proof. done. Qed.

Lemma append_one_ok (pid : string) (kr : string * Segments.Row) (d d' : Db) :
  ledger_ok d → Ledger.append_one pid kr d = inl d' → ledger_ok d'.
Proof.
  intros [Hstats Hfk]. destruct kr as [k r]. unfold Ledger.append_one.
  destruct (bool_decide _ && _) eqn:Hguard; [|done].
  apply andb_true_iff in Hguard as [Hguard _].
  apply bool_decide_eq_true in Hguard as (_ & _ & Hfresh).
  destruct (Segments.speaker_id r) as [sid0|] eqn:Hsp.
  - destruct (speakers d !! sid0) as [r0|] eqn:Hr0; [|done].
    intros [= <-]. split.
    + apply (stats_step d); [done|]. intros sid r' Hr'.
      unfold duration_of, count_of.
      rewrite !total_insert_fresh by done.
      rewrite lookup_alter in Hr'. case_decide as Hsid.
      * subst sid. rewrite Hr0 in Hr'. injection Hr' as <-.
        exists r0. split; [done|].
        destruct (adjust_stats (Segments.duration r) 1 r0) as [-> ->].
        unfold refers. rewrite !bool_decide_eq_true_2 by done. lia.
      * exists r'. split; [done|].
        unfold refers. rewrite !bool_decide_eq_false_2 by congruence. lia.
    + intros k' r' sid Hk' Hs. simpl in *.
      rewrite lookup_alter. 
      destruct (decide (k = k')) as [->|Hne].
      * rewrite lookup_insert_eq in Hk'. injection Hk' as <-.
        assert (sid = sid0) as -> by congruence.
        rewrite decide_True by done. by rewrite Hr0.
      * rewrite lookup_insert_ne in Hk' by done.
        destruct (Hfk k' r' sid Hk' Hs) as [x Hx].
        case_decide as Hsid; [subst; by rewrite Hr0 | by rewrite Hx].
  - intros [= <-]. split.
    + apply (stats_step d); [done|]. intros sid r' Hr'. simpl in Hr'.
      exists r'. split; [done|].
      unfold duration_of, count_of.
      rewrite !total_insert_fresh by done.
      unfold refers. rewrite !bool_decide_eq_false_2 by congruence. lia.
    + intros k' r' sid Hk' Hs. simpl in *.
      destruct (decide (k = k')) as [->|Hne].
      * rewrite lookup_insert_eq in Hk'. congruence.
      * rewrite lookup_insert_ne in Hk' by done. by apply (Hfk k' r').
Qed.

Lemma appendSegments_ok (pid : string) (new : list (string * Segments.Row))
    (d d' : Db) :
  ledger_ok d → Ledger.appendSegments pid new d = inl d' → ledger_ok d'.
Proof.
  revert d. induction new as [|kr rest IH]; intros d Hok; simpl.
  - by intros [= <-].
  - destruct (Ledger.append_one pid kr d) as [d1|e] eqn:Hone; [|done].
    apply IH. by apply (append_one_ok pid kr d).
Qed.

Lemma alter_lookup_cases {A} (f : A → A) (i j : string) (m : gmap string A) :
  alter f i m !! j = (if decide (i = j) then f else id) <$> m !! j.
Proof.
  rewrite lookup_alter. case_decide; [by subst|].
  by destruct (m !! j).
Qed.

Lemma reassignSpeaker_ok (k newSpeakerId : string) (d d' : Db) :
  ledger_ok d → Ledger.reassignSpeaker k newSpeakerId d = inl d' →
  ledger_ok d'.
Proof.
  intros [Hstats Hfk]. unfold Ledger.reassignSpeaker.
  destruct (segments d !! k) as [seg|] eqn:Hseg; [|done].
  destruct (speakers d !! newSpeakerId) as [rn|] eqn:Hnew; [|done].
  intros [= <-]. split.
  - apply (stats_step d); [done|]. intros sid r' Hr'.
    unfold duration_of, count_of.
    rewrite !(total_insert _ _ _ seg) by done.
    rewrite !refers_with_speaker.
    change (Segments.duration (Segments.with_speaker (Some newSpeakerId) seg))
      with (Segments.duration seg).
    unfold refers.
    rewrite alter_lookup_cases in Hr'.
    destruct (Segments.speaker_id seg) as [old|] eqn:Hold.
    + rewrite alter_lookup_cases in Hr'.
      destruct (speakers d !! sid) as [r|] eqn:Hr; [|done].
      exists r. split; [done|]. simpl in Hr'. injection Hr' as <-.
      destruct (decide (newSpeakerId = sid)) as [->|Hn];
        destruct (decide (old = sid)) as [->|Ho];
        simpl; repeat case_bool_decide; try congruence; lia.
    + destruct (speakers d !! sid) as [r|] eqn:Hr; [|done].
      exists r. split; [done|]. simpl in Hr'. injection Hr' as <-.
      destruct (decide (newSpeakerId = sid)) as [->|Hn];
        simpl; repeat case_bool_decide; try congruence; lia.
  - intros k' r' sid Hk' Hs. simpl in *.
    assert (Hdom : ∀ s, is_Some (speakers d !! s) →
              is_Some (alter (Ledger.adjust (Segments.duration seg) 1)
                         newSpeakerId
                         match Segments.speaker_id seg with
                         | Some old =>
                             alter (Ledger.adjust (- Segments.duration seg) (-1))
                               old (speakers d)
                         | None => speakers d
                         end !! s)).
    { intros s Hsome. rewrite <- elem_of_dom, dom_alter.
      destruct (Segments.speaker_id seg); rewrite ?dom_alter;
        by apply elem_of_dom. }
    apply Hdom.
    destruct (decide (k = k')) as [->|Hne].
    + rewrite lookup_insert_eq in Hk'. injection Hk' as <-.
      simpl in Hs. injection Hs as <-. by rewrite Hnew.
    + rewrite lookup_insert_ne in Hk' by done. by apply (Hfk k' r').
Qed.

(** A field-level update that keeps [speaker_id], [start_ms] and [end_ms]
    moves no statistic. *)
Lemma replace_segment_ok (d : Db) (k : string) (seg seg' : Segments.Row) :
  ledger_ok d →
  segments d !! k = Some seg →
  Segments.speaker_id seg' = Segments.speaker_id seg →
  Segments.duration seg' = Segments.duration seg →
  ledger_ok (mkDb (projects d) (speakers d) (<[k := seg']> (segments d))).
Proof.
  intros [Hstats Hfk] Hseg Hsp Hdur. split.
  - apply (stats_step d); [done|]. intros sid r' Hr'. simpl in Hr'.
    exists r'. split; [done|]. unfold duration_of, count_of.
    rewrite !(total_insert _ _ _ seg) by done.
    unfold refers. rewrite Hsp, Hdur. lia.
  - intros k' r' sid Hk' Hs. simpl in *.
    destruct (decide (k = k')) as [->|Hne].
    + rewrite lookup_insert_eq in Hk'. injection Hk' as <-.
      apply (Hfk k' seg); congruence.
    + rewrite lookup_insert_ne in Hk' by done. by apply (Hfk k' r').
Qed.

Lemma setTranslation_ok (k text : string) (d d' : Db) :
  ledger_ok d → Ledger.setTranslation k text d = inl d' → ledger_ok d'.
Proof.
  intros Hok. unfold Ledger.setTranslation.
  destruct (segments d !! k) as [seg|] eqn:Hseg; [|done].
  destruct (Ledger.in_stage translating seg d); [|done].
  intros [= <-]. by apply (replace_segment_ok d k seg).
Qed.

Lemma setDubbedAudio_ok (k url : string) (d d' : Db) :
  ledger_ok d → Ledger.setDubbedAudio k url d = inl d' → ledger_ok d'.
Proof.
  intros Hok. unfold Ledger.setDubbedAudio.
  destruct (segments d !! k) as [seg|] eqn:Hseg; [|done].
  destruct (Ledger.in_stage dubbing seg d); [|done].
  intros [= <-]. by apply (replace_segment_ok d k seg).
Qed.

Lemma delete_speaker_ok (sid : string) (d : Db) :
  ledger_ok d → ledger_ok (delete_speaker sid d).
Proof.
  intros [Hstats Hfk]. unfold delete_speaker. split.
  - apply (stats_step d); [done|]. intros s r' Hr'.
    apply lookup_delete_Some in Hr' as [Hne Hr'].
    exists r'. split; [done|]. unfold duration_of, count_of.
    rewrite !total_fmap.
    rewrite (total_ext _ (λ r, if refers s r then Segments.duration r else 0%Z)
               (segments d)).
    rewrite (total_ext (_ ∘ _) (λ r, if refers s r then 1%Z else 0%Z)
               (segments d)).
    + lia.
    + intros k r _. simpl. rewrite set_null_singleton.
      destruct (refers sid r) eqn:Hsid; [|done].
      apply refers_true in Hsid. rewrite refers_with_speaker.
      unfold refers. rewrite Hsid.
      by rewrite !bool_decide_eq_false_2 by congruence.
    + intros k r _. simpl. rewrite set_null_singleton.
      destruct (refers sid r) eqn:Hsid; [|done].
      apply refers_true in Hsid. rewrite refers_with_speaker.
      unfold refers. rewrite Hsid.
      by rewrite !bool_decide_eq_false_2 by congruence.
  - intros k r' s Hk Hs. simpl in *.
    rewrite lookup_fmap in Hk.
    destruct (segments d !! k) as [r|] eqn:Hr; [|done].
    simpl in Hk. injection Hk as <-. rewrite set_null_singleton in Hs.
    destruct (refers sid r) eqn:Hsid; [done|].
    apply refers_false in Hsid.
    rewrite lookup_delete_ne by congruence. by apply (Hfk k r).
Qed.

Lemma unused_key_fresh (ids ids' : list string) (d : Db) (i : string) :
  Ledger.unused_key ids d = Some (i, ids') → speakers d !! i = None.
Proof.
  induction ids as [|j ids IH]; [done|]. simpl.
  case_decide as Hin; [exact IH|].
  intros [= <- <-]. by apply not_elem_of_dom.
Qed.

(** A speaker registered under an unused key is referenced by no segment
    yet, so its zero statistics are exact. *)
Lemma register_one_ok (d : Db) (i pid l : string) :
  ledger_ok d → speakers d !! i = None →
  ledger_ok (mkDb (projects d)
               (<[i := Speakers.mkRow pid l None None None 0 0]> (speakers d))
               (segments d)).
Proof.
  intros [Hstats Hfk] Hi. split.
  - intros sid r Hr. simpl in *.
    destruct (decide (i = sid)) as [->|Hne].
    + rewrite lookup_insert_eq in Hr. injection Hr as <-. simpl.
      unfold duration_of, count_of.
      rewrite !total_zero; [done| |];
        intros k r Hk; unfold refers; case_bool_decide as Href; try done;
        destruct (Hfk k r sid Hk Href) as [x Hx]; congruence.
    + rewrite lookup_insert_ne in Hr by done. by apply Hstats.
  - intros k r sid Hk Hs. simpl in *.
    destruct (decide (i = sid)) as [->|Hne].
    + by rewrite lookup_insert_eq.
    + rewrite lookup_insert_ne by done. by apply (Hfk k r).
Qed.

Lemma registerSpeakers_ok (pid : string) (labels ids : list string) (d : Db) :
  ledger_ok d → ledger_ok (Ledger.registerSpeakers pid labels ids d).
Proof.
  revert ids d. induction labels as [|l labels IH]; intros ids d Hok; [done|].
  simpl. destruct (Ledger.has_label pid l d); [by apply IH|].
  destruct (Ledger.unused_key ids d) as [[i ids']|] eqn:Hkey; [|by apply IH].
  apply IH, register_one_ok; [done|]. by apply (unused_key_fresh ids ids').
Qed.

Lemma exec_ok (d : Db) (op : Ledger.Op) : ledger_ok d → ledger_ok (Ledger.exec d op).
Proof.
  intros Hok. destruct op as [pid labels ids|pid new|k s|k t|k u|sid]; simpl.
  - by apply registerSpeakers_ok.
  - destruct (Ledger.appendSegments pid new d) eqn:H; [|done].
    by apply (appendSegments_ok pid new d).
  - destruct (Ledger.reassignSpeaker k s d) eqn:H; [|done].
    by apply (reassignSpeaker_ok k s d).
  - destruct (Ledger.setTranslation k t d) eqn:H; [|done].
    by apply (setTranslation_ok k t d).
  - destruct (Ledger.setDubbedAudio k u d) eqn:H; [|done].
    by apply (setDubbedAudio_ok k u d).
  - by apply delete_speaker_ok.
Qed.

Lemma exec_all_ok (ops : list Ledger.Op) (d : Db) :
  ledger_ok d → ledger_ok (Ledger.exec_all ops d).
Proof.
  revert d. induction ops as [|op ops IH]; intros d Hok; [done|].
  simpl. by apply IH, exec_ok.
Qed.

Lemma no_rows_ok (ps : gmap string Projects.Row) : ledger_ok (mkDb ps ∅ ∅).
Proof. split; intros ? ? **; simpl in *; by rewrite lookup_empty in *. Qed.

(** C5. After any sequence of ledger operations (registering speakers,
    appending segments, reassigning the speaker of a segment, setting a
    translation or a dubbed audio, deleting a speaker), accepted or
    rejected, started in a state where the statistics are exact and every
    referenced speaker exists, each speaker's [total_duration_ms] is the
    sum of [end_ms - start_ms] over the segments whose [speaker_id]
    references it, and its [segment_count] is the number of those
    segments. *)
Theorem C5_stats_exact (ops : list Ledger.Op) (d : Db) :
  stats_ok d →
  fk_ok d →
  ∀ sid r, speakers (Ledger.exec_all ops d) !! sid = Some r →
    Speakers.total_duration_ms r
    = duration_of sid (segments (Ledger.exec_all ops d))
    ∧ Speakers.segment_count r
      = count_of sid (segments (Ledger.exec_all ops d)).
Proof.
  intros Hstats Hfk.
  destruct (exec_all_ok ops d (conj Hstats Hfk)) as [Hok _]. exact Hok.
Qed.

Lemma C5_stats_exact_witness :
  stats_ok sample_start
  ∧ fk_ok sample_start
  ∧ ∃ r, speakers (Ledger.exec_all sample_ops sample_start) !! "s1" = Some r
         ∧ Speakers.total_duration_ms r = 2000%Z
         ∧ Speakers.total_duration_ms r
           = duration_of "s1" (segments (Ledger.exec_all sample_ops sample_start))
         ∧ Speakers.segment_count r
           = count_of "s1" (segments (Ledger.exec_all sample_ops sample_start)).
Proof.
  destruct (no_rows_ok (projects sample_start)) as [Hstats Hfk].
  split; [exact Hstats|]. split; [exact Hfk|].
  eexists. split; [vm_compute; reflexivity|]. split; [reflexivity|].
  apply (C5_stats_exact sample_ops sample_start Hstats Hfk "s1").
  vm_compute. reflexivity.
Defined.

(** The scenario of the specification: the segment from 1000 ms to 3000 ms
    of [spk0] is reassigned to [spk1]; [spk0] loses 2000 ms and one
    segment, [spk1] gains them. *)
Example reassign_scenario :
  let d' := Ledger.keep sample_ledger
              (Ledger.reassignSpeaker "g0" "s1" sample_ledger) in
  (λ r, (Speakers.total_duration_ms r, Speakers.segment_count r))
    <$> speakers sample_ledger !! "s0" = Some (2000, 1)%Z
  ∧ (λ r, (Speakers.total_duration_ms r, Speakers.segment_count r))
    <$> speakers sample_ledger !! "s1" = Some (1500, 1)%Z
  ∧ (λ r, (Speakers.total_duration_ms r, Speakers.segment_count r))
    <$> speakers d' !! "s0" = Some (0, 0)%Z
  ∧ (λ r, (Speakers.total_duration_ms r, Speakers.segment_count r))
    <$> speakers d' !! "s1" = Some (3500, 2)%Z.
Proof. repeat split; vm_compute; reflexivity. Qed.

(* ===================================================================== *)
(** * 10. Further properties of the client code *)
(* ===================================================================== *)

(** ** Paging *)

Lemma to_double_exact (x : Z) :
  (Z.abs x ≤ 2 ^ 53)%Z → to_double x = x.
Proof.
  intros Hx. unfold to_double.
  by rewrite (proj2 (Z.leb_le _ _) Hx).
Qed.

(** X1. The ranges [projectsApi.list] asks for tile the positions as long
    as the numbers are exact: for a positive page size and a page from 1
    on with [page * pageSize] at most [2^53], the page covers the
    [pageSize] positions from [(page - 1) * pageSize] on, the next page
    starts right after, and a position lies on the page exactly when the
    page is [position / pageSize + 1]. Past [2^53] the numbers are rounded
    and the ranges of consecutive pages can overlap: with a page size of
    94906267, page 94906268 ends at the position page 94906269 starts
    at. *)
Theorem X1_list_ranges_tile (pageSize page : Z) :
  (0 < pageSize)%Z → (1 ≤ page)%Z → (page * pageSize ≤ 2 ^ 53)%Z →
  projectsApi.list_from page pageSize = ((page - 1) * pageSize)%Z
  ∧ projectsApi.list_to page pageSize = (page * pageSize - 1)%Z
  ∧ ((page + 1) * pageSize ≤ 2 ^ 53 →
     projectsApi.list_from (page + 1) pageSize
     = projectsApi.list_to page pageSize + 1)%Z
  ∧ (∀ i, (0 ≤ i)%Z →
       ((projectsApi.list_from page pageSize ≤ i
         ∧ i ≤ projectsApi.list_to page pageSize)%Z
        ↔ page = (i `div` pageSize + 1)%Z))
  ∧ projectsApi.list_to 94906268 94906267
    = projectsApi.list_from 94906269 94906267.
Proof.
  intros Hsize Hpage Hbound.
  assert (Hexact : ∀ q, (1 ≤ q)%Z → (q * pageSize ≤ 2 ^ 53)%Z →
            projectsApi.list_from q pageSize = ((q - 1) * pageSize)%Z
            ∧ projectsApi.list_to q pageSize = (q * pageSize - 1)%Z).
  { intros q Hq Hb. unfold projectsApi.list_to, projectsApi.list_from.
    assert (0 ≤ (q - 1) * pageSize ≤ 2 ^ 53)%Z by nia.
    assert (0 ≤ q - 1 ≤ 2 ^ 53)%Z by nia.
    rewrite (to_double_exact (q - 1)) by lia.
    rewrite (to_double_exact ((q - 1) * pageSize)) by lia.
    rewrite (to_double_exact ((q - 1) * pageSize + pageSize)) by nia.
    rewrite to_double_exact by nia.
    split; lia. }
  destruct (Hexact page Hpage Hbound) as [Hfrom Hto].
  split; [exact Hfrom|]. split; [exact Hto|].
  split.
  { intros Hnext. destruct (Hexact (page + 1)%Z ltac:(lia) Hnext) as [-> _].
    rewrite Hto. lia. }
  split; [|vm_compute; reflexivity].
  intros i Hi. rewrite Hfrom, Hto.
  pose proof (Z.div_mod i pageSize ltac:(lia)) as Hdm.
  pose proof (Z.mod_pos_bound i pageSize Hsize) as Hmod.
  split.
  - intros [Hlo Hhi]. nia.
  - intros ->. nia.
Qed.

Lemma X1_list_ranges_tile_witness :
  (0 < 20)%Z ∧ (1 ≤ 3)%Z ∧ (3 * 20 ≤ 2 ^ 53)%Z
  ∧ (projectsApi.list_from 3 20 ≤ 47 ∧ 47 ≤ projectsApi.list_to 3 20)%Z.
Proof.
  split; [lia|]. split; [lia|]. split; [lia|].
  destruct (X1_list_ranges_tile 20 3 ltac:(lia) ltac:(lia) ltac:(lia))
    as (_ & _ & _ & Hpage & _).
  apply (Hpage 47%Z); [lia | reflexivity].
Defined.

(** ** The landing page *)

Lemma all_plain_app (a b : string) :
  Home.all_plain (a +:+ b) = Home.all_plain a && Home.all_plain b.
Proof.
  induction a as [|c a IH]; [done|]. simpl. rewrite IH.
  by rewrite andb_assoc.
Qed.

Lemma strip_no_dot (s : string) :
  Home.all_plain s = true → Home.strip_extension s = s.
Proof.
  induction s as [|c s IH]; [done|]. simpl.
  intros [Hc Hs]%andb_true_iff.
  unfold Home.plain in Hc. apply andb_true_iff in Hc as [_ Hdot].
  apply negb_true_iff in Hdot. rewrite Hdot. simpl. by rewrite IH.
Qed.

(** X2. The project name proposed for a video is its file name without the
    last extension: for every [base], a name [base.ext] whose [ext] is not
    empty and holds no dot and no slash becomes [base] (earlier dots stay);
    a name without any dot or slash is kept as it is. *)
Theorem X2_strip_extension (base ext : string) :
  Home.extension ext = true →
  Home.strip_extension (base +:+ "." +:+ ext) = base
  ∧ Home.strip_extension ext = ext
  ∧ ∀ s, Home.name (Home.formData
                      (Home.handleVideoSelect (mkFile (base +:+ "." +:+ ext)) s))
         = base.
Proof.
  intros Hext.
  assert (Hmain : Home.strip_extension (base +:+ "." +:+ ext) = base).
  { induction base as [|c base IH].
    - change ("" +:+ "." +:+ ext) with (String "." ext).
      cbn [Home.strip_extension]. by rewrite Hext.
    - change (String c base +:+ "." +:+ ext)
        with (String c (base +:+ "." +:+ ext)).
      cbn [Home.strip_extension]. rewrite IH.
      replace (Home.extension (base +:+ "." +:+ ext)) with false;
        [by rewrite andb_false_r|].
      symmetry. unfold Home.extension. apply andb_false_iff. right.
      rewrite all_plain_app.
      change ("." +:+ ext) with (String "." ext). cbn [Home.all_plain].
      replace (Home.plain ".") with false by reflexivity.
      by rewrite andb_false_r. }
  split; [exact Hmain|]. split; [|intros s; exact Hmain].
  apply strip_no_dot. unfold Home.extension in Hext.
  by apply andb_true_iff in Hext as [_ ?].
Qed.

Lemma X2_strip_extension_witness :
  Home.extension "mp4" = true
  ∧ Home.strip_extension "holiday.2024.mp4" = "holiday.2024".
Proof.
  split; [reflexivity|].
  destruct (X2_strip_extension "holiday.2024" "mp4" eq_refl) as [H _].
  exact H.
Defined.

Lemma ticks_from (n : nat) (prev : Z) :
  (prev ≤ 90)%Z → Home.ticks n prev = Z.min (prev + 10 * Z.of_nat n) 90.
Proof.
  revert prev. induction n as [|n IH]; intros prev Hprev.
  - simpl. lia.
  - cbn [Home.ticks]. rewrite IH by (unfold Home.tick; lia).
    unfold Home.tick. lia.
Qed.

(** X3. The simulated upload progress of [handleSubmit] starts from 0,
    never decreases, never passes 90, and stands at 90 from the ninth
    firing of the interval on. *)
Theorem X3_simulated_progress (n : nat) :
  Home.ticks n 0 = Z.min (10 * Z.of_nat n) 90
  ∧ (0 ≤ Home.ticks n 0 ≤ 90)%Z
  ∧ (Home.ticks n 0 ≤ Home.ticks (S n) 0)%Z
  ∧ ((9 ≤ n)%nat → Home.ticks n 0 = 90%Z).
Proof.
  rewrite !ticks_from by lia. repeat split; lia.
Qed.

Lemma X3_simulated_progress_witness :
  (9 ≤ 12)%nat ∧ Home.ticks 12 0 = 90%Z.
Proof.
  split; [lia|].
  destruct (X3_simulated_progress 12) as (_ & _ & _ & H). apply H. lia.
Defined.

(** ** The progress tracker *)

(** X4. Every step of the tracker is in exactly one of the three states
    completed, active and pending, whatever the status. A failed project
    has no active step and no completed one: all steps are drawn as
    pending, and the failure mark of the active step is never drawn. In
    [pending] and in [voice_mapping] no step is active either, and the
    spinner turns on the active step of every other status but
    [completed]. *)
Theorem X4_tracker_steps (status : ProjectStatus) :
  (∀ key, key ∈ ProgressTracker.steps.*1 →
     ProgressTracker.failure_mark status key = false
     ∧ ProgressTracker.icon status key = true
     ∧ ((ProgressTracker.isCompleted status key = true
         ∧ ProgressTracker.isActive status key = false
         ∧ ProgressTracker.isPending status key = false)
        ∨ (ProgressTracker.isCompleted status key = false
           ∧ ProgressTracker.isActive status key = true
           ∧ ProgressTracker.isPending status key = false)
        ∨ (ProgressTracker.isCompleted status key = false
           ∧ ProgressTracker.isActive status key = false
           ∧ ProgressTracker.isPending status key = true)))
  ∧ (status = failed →
     ∀ key, key ∈ ProgressTracker.steps.*1 →
       ProgressTracker.isPending status key = true)
  ∧ ((∃ key, key ∈ ProgressTracker.steps.*1
             ∧ ProgressTracker.isActive status key = true)
     ↔ status ≠ failed ∧ status ≠ pending ∧ status ≠ voice_mapping)
  ∧ (∀ key, ProgressTracker.spinner status key = true
            ↔ status = key ∧ status ≠ failed ∧ status ≠ completed).
Proof.
  split; [|split; [|split]].
  - intros key Hkey. simpl in Hkey.
    repeat (apply elem_of_cons in Hkey as [-> | Hkey];
            [destruct status; vm_compute; tauto|]).
    by apply elem_of_nil in Hkey.
  - intros -> key Hkey. simpl in Hkey.
    repeat (apply elem_of_cons in Hkey as [-> | Hkey]; [reflexivity|]).
    by apply elem_of_nil in Hkey.
  - split.
    + intros (key & Hkey & Hact).
      apply bool_decide_eq_true in Hact. subst key. simpl in Hkey.
      repeat (apply elem_of_cons in Hkey as [-> | Hkey]; [done|]).
      by apply elem_of_nil in Hkey.
    + intros (Hf & Hp & Hv). exists status. split.
      * destruct status; try done; simpl; set_solver.
      * by apply bool_decide_eq_true.
  - intros key. unfold ProgressTracker.spinner, ProgressTracker.isActive,
      ProgressTracker.isFailed.
    rewrite !andb_true_iff, !negb_true_iff, !bool_decide_eq_true,
      !bool_decide_eq_false. tauto.
Qed.

Lemma X4_tracker_steps_witness :
  dubbing ∈ ProgressTracker.steps.*1
  ∧ ProgressTracker.isPending failed dubbing = true.
Proof.
  assert (Hkey : dubbing ∈ ProgressTracker.steps.*1).
  { simpl. do 4 apply list_elem_of_further. apply list_elem_of_here. }
  split; [exact Hkey|].
  destruct (X4_tracker_steps failed) as (_ & Hfailed & _).
  exact (Hfailed eq_refl dubbing Hkey).
Defined.

(** ** What the project page shows *)

(** X5. The spinner of the project page and its polling go by two lists
    that differ in [uploading]: whenever the page shows a status as
    processing it also polls, and it polls without showing the processing
    panel exactly in [uploading]. The four panels (start of analysis, voice
    mapping, processing, completed) exclude one another, and in
    [uploading] and [failed] none of them is shown. *)
Theorem X5_panels_and_polling (p : ProjectPage.Project) :
  (ProjectPage.isProcessingStatus p = true →
   ProjectPage.polls (Some p) = true)
  ∧ (ProjectPage.polls (Some p) = true
     ∧ ProjectPage.isProcessingStatus p = false
     ↔ ProjectPage.status p = uploading)
  ∧ (Z.b2z (ProjectPage.isPending p)
     + Z.b2z (ProjectPage.shows_voice_mapping p)
     + Z.b2z (ProjectPage.isProcessingStatus p)
     + Z.b2z (ProjectPage.isCompleted p) ≤ 1)%Z
  ∧ (ProjectPage.status p = uploading ∨ ProjectPage.status p = failed →
     ProjectPage.isPending p = false
     ∧ ProjectPage.shows_voice_mapping p = false
     ∧ ProjectPage.isProcessingStatus p = false
     ∧ ProjectPage.isCompleted p = false).
Proof.
  destruct p as [st sps].
  unfold ProjectPage.isProcessingStatus, ProjectPage.polls,
    ProjectPage.isPending, ProjectPage.shows_voice_mapping,
    ProjectPage.isVoiceMappingStep, ProjectPage.isCompleted. simpl.
  destruct st; simpl;
    (split; [done|]); (split; [split; [by intros [? ?]|done]|]);
    (split; [try done; by destruct (bool_decide _)|]);
    intros [?|?]; done.
Qed.

Lemma X5_panels_and_polling_witness :
  ProjectPage.polls (Some (ProjectPage.mkProject mixing [])) = true.
Proof.
  destruct (X5_panels_and_polling (ProjectPage.mkProject mixing []))
    as (H & _).
  apply H. reflexivity.
Defined.

(** X6. Every status has a label of its own: [statusLabels] gives no two
    statuses the same text, and no status an empty one. *)
Theorem X6_status_labels_distinct :
  (∀ s t, statusLabels s = statusLabels t → s = t)
  ∧ (∀ s, statusLabels s ≠ "").
Proof.
  split.
  - intros s t. destruct s, t; simpl; intros H; try reflexivity;
      discriminate H.
  - intros s. destruct s; discriminate.
Qed.



(** ** Choosing voices on the page *)

Lemma obj_get_set_eq (k v : string) (o : Obj) :
  obj_get k (obj_set k v o) = Some v.
Proof.
  induction o as [|[k' v'] o IH]; simpl.
  - by rewrite decide_True.
  - case_decide as Hk; simpl.
    + by rewrite decide_True.
    + by rewrite decide_False.
Qed.

Lemma obj_get_set_ne (k k' v : string) (o : Obj) :
  k ≠ k' → obj_get k' (obj_set k v o) = obj_get k' o.
Proof.
  intros Hne. induction o as [|[k0 v0] o IH]; simpl.
  - by rewrite decide_False.
  - case_decide as Hk; simpl.
    + subst k0. by rewrite !decide_False.
    + case_decide; [done|exact IH].
Qed.

Lemma obj_set_length (k v : string) (o : Obj) :
  length (obj_keys (obj_set k v o))
  = (length (obj_keys o)
     + match obj_get k o with Some _ => 0 | None => 1 end)%nat.
Proof.
  unfold obj_keys. induction o as [|[k' v'] o IH]; simpl; [done|].
  destruct (decide (k' = k)) as [Hk|Hk]; simpl; [lia|].
  f_equal. exact IH.
Qed.

(** X8. Choosing a voice for a speaker sets that speaker's entry of the
    page's mapping and no other; the keys stay distinct, and the number of
    chosen voices shown by the counter goes up by one exactly when the
    speaker had no voice chosen yet. Nothing else of the page's state
    changes. *)
Theorem X8_handleVoiceSelect (l v : string) (s : ProjectPage.State) :
  let s' := ProjectPage.handleVoiceSelect l v s in
  obj_get l (ProjectPage.voiceMapping s') = Some v
  ∧ (∀ l', l ≠ l' →
       obj_get l' (ProjectPage.voiceMapping s')
       = obj_get l' (ProjectPage.voiceMapping s))
  ∧ (obj_wf (ProjectPage.voiceMapping s) → obj_wf (ProjectPage.voiceMapping s'))
  ∧ ProjectPage.chosen s'
    = (ProjectPage.chosen s
       + match obj_get l (ProjectPage.voiceMapping s) with
         | Some _ => 0
         | None => 1
         end)%nat
  ∧ ProjectPage.project s' = ProjectPage.project s
  ∧ ProjectPage.isProcessing s' = ProjectPage.isProcessing s
  ∧ ProjectPage.error s' = ProjectPage.error s.
Proof.
  intros s'. subst s'. unfold ProjectPage.handleVoiceSelect, ProjectPage.chosen.
  simpl. split; [apply obj_get_set_eq|].
  split; [intros l' Hne; by apply obj_get_set_ne|].
  split; [apply obj_set_wf|]. split; [apply obj_set_length|]. done.
Qed.

Lemma X8_handleVoiceSelect_witness :
  obj_wf (ProjectPage.voiceMapping sample_page)
  ∧ obj_wf (ProjectPage.voiceMapping
              (ProjectPage.handleVoiceSelect "spk1" "v9" sample_page))
  ∧ obj_get "spk0"
      (ProjectPage.voiceMapping
         (ProjectPage.handleVoiceSelect "spk1" "v9" sample_page))
    = Some "v1".
Proof.
  assert (Hwf : obj_wf (ProjectPage.voiceMapping sample_page))
    by (unfold obj_wf; compute_done).
  split; [exact Hwf|].
  destruct (X8_handleVoiceSelect "spk1" "v9" sample_page)
    as (_ & Hother & Hkeep & _).
  split; [exact (Hkeep Hwf)|].
  rewrite (Hother "spk0"); [reflexivity | discriminate].
Defined.




(** ** The speaker card *)

Lemma find_voice (voices : list Voice) (v : Voice) :
  NoDup (voice_id <$> voices) → v ∈ voices →
  SpeakerCard.selectedVoiceData voices (Some (voice_id v)) = Some v.
Proof.
  unfold SpeakerCard.selectedVoiceData.
  induction voices as [|v0 voices IH]; intros Hnd Hin.
  - by apply elem_of_nil in Hin.
  - simpl in Hnd. apply NoDup_cons in Hnd as [Hfresh Hnd]. simpl.
    apply elem_of_cons in Hin as [->|Hin].
    + by rewrite bool_decide_eq_true_2.
    + rewrite bool_decide_eq_false_2; [by apply IH|].
      intros [= Heq]. apply Hfresh. rewrite Heq.
      apply list_elem_of_fmap. by exists v.
Qed.

Lemma find_no_voice (voices : list Voice) (sel : option string) :
  (∀ v, v ∈ voices → Some (voice_id v) ≠ sel) →
  SpeakerCard.selectedVoiceData voices sel = None.
Proof.
  unfold SpeakerCard.selectedVoiceData.
  induction voices as [|v0 voices IH]; intros Hno; [done|]. simpl.
  rewrite bool_decide_eq_false_2 by (apply Hno; by left).
  apply IH. intros v Hv. apply Hno. by right.
Qed.

(** X10. What a speaker card shows. Once a voice of the catalogue has been
    chosen for a speaker, the selector of that speaker's card shows the
    name of that voice (the ids of the catalogue being distinct and the
    name not empty). With no voice chosen, or with a voice id that is not
    in the catalogue, it shows the placeholder; in the second case the
    check mark is drawn all the same. The colour of a card is always one of
    the six, and repeats every six cards. *)
Theorem X10_speaker_card (voices : list Voice) :
  (∀ v l s, NoDup (voice_id <$> voices) → v ∈ voices → voice_name v ≠ "" →
     SpeakerCard.shown_name voices
       (obj_get l (ProjectPage.voiceMapping
                     (ProjectPage.handleVoiceSelect l (voice_id v) s)))
     = voice_name v)
  ∧ (∀ sel, (∀ v, v ∈ voices → Some (voice_id v) ≠ sel) →
       SpeakerCard.shown_name voices sel = SpeakerCard.placeholder)
  ∧ (∀ id, id ≠ "" → SpeakerCard.checked (Some id) = true)
  ∧ (∀ index, is_Some (SpeakerCard.color index)
              ∧ SpeakerCard.color (index + 6) = SpeakerCard.color index).
Proof.
  split; [|split; [|split]].
  - intros v l s Hnd Hin Hname. unfold ProjectPage.handleVoiceSelect.
    cbn [ProjectPage.voiceMapping ProjectPage.setVoiceMapping].
    rewrite obj_get_set_eq. unfold SpeakerCard.shown_name.
    rewrite find_voice by done. by rewrite decide_False.
  - intros sel Hno. unfold SpeakerCard.shown_name.
    by rewrite find_no_voice.
  - intros id Hid. simpl. by rewrite bool_decide_eq_false_2.
  - intros index. unfold SpeakerCard.color.
    change (length SpeakerCard.colors) with 6%nat. split.
    + apply lookup_lt_is_Some. change (length SpeakerCard.colors) with 6%nat.
      apply Nat.mod_upper_bound. lia.
    + f_equal. replace (index + 6)%nat with (index + 1 * 6)%nat by lia.
      apply Nat.Div0.mod_add.
Qed.

Lemma X10_speaker_card_witness :
  SpeakerCard.shown_name voicesApi.default_voices
    (obj_get "spk0"
       (ProjectPage.voiceMapping
          (ProjectPage.handleVoiceSelect "spk0" "TxGEqnHWrfWFTfGW9XjX"
             sample_page)))
  = "Josh".
Proof.
  destruct (X10_speaker_card voicesApi.default_voices) as (Hshown & _).
  apply (Hshown (voicesApi.premade "TxGEqnHWrfWFTfGW9XjX" "Josh" "male")).
  - compute_done.
  - unfold voicesApi.default_voices. set_solver.
  - discriminate.
Defined.

(** ** Reading a project *)

#[local] Instance label_le_total : Total label_le.
Proof. intros a b. unfold label_le. apply String.leb_total. Qed.

Lemma speakers_of_spec (id : string) (d : Db) :
  Sorted label_le (speakers_of id d)
  ∧ NoDup (speakers_of id d).*1
  ∧ ∀ k row, (k, row) ∈ speakers_of id d
             ↔ speakers d !! k = Some row ∧ Speakers.project_id row = id.
Proof.
  unfold speakers_of.
  set (m := filter (λ kv, Speakers.project_id kv.2 = id) (speakers d)).
  split; [apply (Sorted_merge_sort label_le)|]. split.
  - rewrite (merge_sort_Permutation label_le (map_to_list m)).
    apply NoDup_fst_map_to_list.
  - intros k row.
    rewrite (merge_sort_Permutation label_le (map_to_list m)).
    rewrite elem_of_map_to_list. unfold m.
    by rewrite map_lookup_filter_Some.
Qed.

(** X11. [projectsApi.get] returns the project together with exactly the
    speakers whose [project_id] is the project, each once, in the order of
    their labels. It rejects with the error of [.single()] when there is no
    such project, and with the error of the request when either of its two
    requests is refused; it never writes. *)
Theorem X11_get_project (id : string) (w : World) :
  (∀ e, head_reply w = Refused e →
     projectsApi.get id w = (Throw e, pop w))
  ∧ (head_reply w = Applied → projects (db w) !! id = None →
     projectsApi.get id w = (Throw PGRST116, pop w))
  ∧ (∀ r e, head_reply w = Applied → projects (db w) !! id = Some r →
     head_reply (pop w) = Refused e →
     projectsApi.get id w = (Throw e, pop (pop w)))
  ∧ (∀ r, head_reply w = Applied → projects (db w) !! id = Some r →
     head_reply (pop w) = Applied →
     ∃ sps, projectsApi.get id w
            = (Ok (mkProjectWithSpeakers id r sps), pop (pop w))
            ∧ Sorted label_le sps
            ∧ NoDup sps.*1
            ∧ ∀ k row, (k, row) ∈ sps
                       ↔ speakers (db w) !! k = Some row
                         ∧ Speakers.project_id row = id)
  ∧ (∀ res w', projectsApi.get id w = (res, w') →
     db w' = db w ∧ storage w' = storage w ∧ posted w' = posted w).
Proof.
  split; [|split; [|split; [|split]]].
  - intros e He. unfold projectsApi.get, bind. by rewrite read_eq, He.
  - intros Ha Hnone. unfold projectsApi.get, bind.
    by rewrite read_eq, Ha, Hnone.
  - intros r e Ha Hr He. unfold projectsApi.get, bind.
    rewrite read_eq, Ha, Hr. by rewrite read_eq, He.
  - intros r Ha Hr Ha2. exists (speakers_of id (db w)).
    split; [|apply speakers_of_spec].
    unfold projectsApi.get, bind.
    rewrite read_eq, Ha, Hr. by rewrite read_eq, Ha2, db_pop.
  - intros res w' Hget.
    destruct (get_quiet id w) as (res0 & w0 & Hget0 & Hdb & Hposted).
    rewrite Hget in Hget0. injection Hget0 as <- <-.
    split; [done|]. split; [|done].
    clear Hdb Hposted. revert Hget. unfold projectsApi.get, bind.
    rewrite read_eq.
    assert (Hst : ∀ w0, storage (pop w0) = storage w0).
    { intros w0. unfold pop. by destruct (replies w0). }
    destruct (head_reply w) as [|e].
    + destruct (projects (db w) !! id) as [r|].
      * rewrite read_eq. destruct (head_reply (pop w));
          intros [= _ <-]; by rewrite !Hst.
      * intros [= _ <-]. apply Hst.
    + intros [= _ <-]. apply Hst.
Qed.

Lemma X11_get_project_witness :
  ∃ sps, projectsApi.get "p1" (calm sample_db)
         = (Ok (mkProjectWithSpeakers "p1" (sample_project voice_mapping) sps),
            pop (pop (calm sample_db)))
         ∧ length sps = 2%nat.
Proof.
  destruct (X11_get_project "p1" (calm sample_db)) as (_ & _ & _ & Hok & _).
  destruct (Hok (sample_project voice_mapping) eq_refl eq_refl eq_refl)
    as (sps & Hget & _).
  exists sps. split; [exact Hget|].
  assert (H : (projectsApi.get "p1" (calm sample_db)).1
              = Ok (mkProjectWithSpeakers "p1" (sample_project voice_mapping)
                      sps)) by (by rewrite Hget).
  vm_compute in H. injection H as <-. reflexivity.
Defined.

(** ** The handlers of the project page *)

Lemma guarded_never_throws (id : string) (s1 : ProjectPage.State) {A}
    (m : M A) (message : string) (w : World) :
  ∃ s2 w',
    try_catch (bind m (λ _, ProjectPage.fetchProject id s1))
      (λ _, ret (ProjectPage.setError message s1)) w = (Ok s2, w')
    ∧ ProjectPage.isProcessing s2 = ProjectPage.isProcessing s1
    ∧ (∀ e w1, m w = (Throw e, w1) →
         s2 = ProjectPage.setError message s1 ∧ w' = w1).
Proof.
  unfold try_catch, bind. destruct (m w) as [[a|e] w1] eqn:Hm.
  - destruct (fetchProject_quiet id s1 w1) as (s2 & w2 & -> & _ & _ & Hp).
    exists s2, w2. split; [done|]. split; [done|]. intros e w0 [=].
  - eexists _, _. split; [reflexivity|]. split; [done|].
    by intros e0 w0 [= <- <-].
Qed.

(** X12. [handleAnalyze] and [handleProcess] never reject: whatever the
    requests and the processing server do, they resolve. [handleAnalyze],
    and [handleProcess] once its check has passed, leave the page not
    marked as processing; when the command itself ([analyze],
    [startProcessing]) rejects, the page is what it was, with the failure
    message of the handler as its error. When the check of [handleProcess]
    does not pass, nothing is requested and the processing mark is left as
    it is. *)
Theorem X12_handlers_resolve (id : string) (s : ProjectPage.State) (w : World) :
  (∃ s' w', ProjectPage.handleAnalyze id s w = (Ok s', w')
            ∧ ProjectPage.isProcessing s' = false
            ∧ (∀ e w1, projectsApi.analyze id w = (Throw e, w1) →
                 w' = w1
                 ∧ ProjectPage.error s' = Some ProjectPage.analysis_failed
                 ∧ ProjectPage.project s' = ProjectPage.project s
                 ∧ ProjectPage.voiceMapping s' = ProjectPage.voiceMapping s))
  ∧ (∃ s' w', ProjectPage.handleProcess id s w = (Ok s', w')
              ∧ (ProjectPage.incomplete s = true →
                 w' = w
                 ∧ ProjectPage.isProcessing s' = ProjectPage.isProcessing s)
              ∧ (ProjectPage.incomplete s = false →
                 ProjectPage.isProcessing s' = false
                 ∧ ∀ e w1,
                   projectsApi.startProcessing id (ProjectPage.voiceMapping s) w
                   = (Throw e, w1) →
                   w' = w1
                   ∧ ProjectPage.error s' = Some ProjectPage.processing_failed
                   ∧ ProjectPage.project s' = ProjectPage.project s
                   ∧ ProjectPage.voiceMapping s' = ProjectPage.voiceMapping s)).
Proof.
  split.
  - unfold ProjectPage.handleAnalyze.
    destruct (guarded_never_throws id (ProjectPage.setIsProcessing true s)
                (projectsApi.analyze id) ProjectPage.analysis_failed w)
      as (s2 & w' & Hrun & _ & Hthrow).
    rewrite (bind_eq _ _ _ _ _ Hrun). eexists _, _.
    split; [reflexivity|]. split; [done|].
    intros e w1 He. destruct (Hthrow e w1 He) as [-> ->]. done.
  - unfold ProjectPage.handleProcess.
    destruct (ProjectPage.incomplete s) eqn:Hinc.
    + eexists _, _. split; [reflexivity|]. split; [done|]. done.
    + destruct (guarded_never_throws id (ProjectPage.setIsProcessing true s)
                  (projectsApi.startProcessing id
                     (ProjectPage.voiceMapping (ProjectPage.setIsProcessing true s)))
                  ProjectPage.processing_failed w)
        as (s2 & w' & Hrun & _ & Hthrow).
      rewrite (bind_eq _ _ _ _ _ Hrun). eexists _, _.
      split; [reflexivity|]. split; [done|]. intros _. split; [done|].
      intros e w1 He. destruct (Hthrow e w1 He) as [-> ->]. done.
Qed.

Lemma X12_handlers_resolve_witness :
  let w := with_fetches [NetworkError "offline"] (calm sample_db) in
  ProjectPage.incomplete sample_page = false
  ∧ ∃ s' w', ProjectPage.handleProcess "p1" sample_page w = (Ok s', w')
             ∧ ProjectPage.error s' = Some ProjectPage.processing_failed.
Proof.
  intros w. split; [reflexivity|].
  destruct (X12_handlers_resolve "p1" sample_page w)
    as (_ & s' & w' & Hrun & _ & Hgo).
  exists s', w'. split; [exact Hrun|].
  destruct (Hgo eq_refl) as [_ Hthrow].
  destruct (Hthrow "offline"
              (projectsApi.startProcessing "p1"
                 (ProjectPage.voiceMapping sample_page) w).2)
    as (_ & Herr & _); [vm_compute; reflexivity | exact Herr].
Defined.

(** ** Starting the processing: failures *)

(** X13. [startProcessing] writes before it asks. If the update of the
    project's mapping is refused it rejects with that error and neither
    writes nor contacts the processing server. If the writes go through
    and the server cannot be reached, or answers with a status that is not
    ok, it rejects, and the mapping stays written to the project and to its
    speakers. *)
Theorem X13_startProcessing_failures (id : string) (m : Obj) (w : World) :
  (∀ e, head_reply w = Refused e →
     projectsApi.startProcessing id m w = (Throw e, pop w)
     ∧ db (pop w) = db w
     ∧ posted (pop w) = posted w
     ∧ fetches (pop w) = fetches w)
  ∧ (∀ e fs, replies w = [] → fetches w = NetworkError e :: fs →
     ∃ w', projectsApi.startProcessing id m w = (Throw e, w')
           ∧ db w' = assign_db id m
                       (update_project (head_time w) id (mapping_update m)
                          (db w))
           ∧ posted w' = posted w)
  ∧ (∀ json fs, replies w = [] → fetches w = Response false json :: fs →
     ∃ w', projectsApi.startProcessing id m w
           = (Throw "Failed to start processing", w')
           ∧ db w' = assign_db id m
                       (update_project (head_time w) id (mapping_update m)
                          (db w))
           ∧ posted w' = (posted w ++ [process_command id m])%list).
Proof.
  split; [|split].
  - intros e He. unfold projectsApi.startProcessing, projectsApi.assignVoices.
    unfold bind. rewrite write_now_eq, He.
    split; [done|]. split; [apply db_pop|].
    by destruct (pop_fields w) as (-> & -> & _).
  - intros e fs Hr Hf. unfold projectsApi.startProcessing.
    destruct (assignVoices_calm id m w Hr) as (w1 & Hrun & Hdb & Hf1 & Hp1 & _).
    rewrite (bind_eq _ _ _ _ _ Hrun).
    unfold bind, next_fetch, throw. rewrite Hf1, Hf.
    eexists. split; [reflexivity|]. fields. by rewrite Hdb, Hp1.
  - intros json fs Hr Hf. unfold projectsApi.startProcessing.
    destruct (assignVoices_calm id m w Hr) as (w1 & Hrun & Hdb & Hf1 & Hp1 & _).
    rewrite (bind_eq _ _ _ _ _ Hrun).
    unfold bind, next_fetch, throw, post. rewrite Hf1, Hf.
    fold (process_command id m).
    eexists. split; [reflexivity|]. fields. by rewrite Hdb, Hp1.
Qed.

Lemma X13_startProcessing_failures_witness :
  let w := with_fetches [Response false None] (calm sample_db) in
  replies w = []
  ∧ ∃ w', projectsApi.startProcessing "p1" sample_mapping w
          = (Throw "Failed to start processing", w')
          ∧ db w' = assign_db "p1" sample_mapping
                      (update_project 0 "p1" (mapping_update sample_mapping)
                         sample_db).
Proof.
  intros w. split; [reflexivity|].
  destruct (X13_startProcessing_failures "p1" sample_mapping w)
    as (_ & _ & Hnotok).
  destruct (Hnotok None [] eq_refl eq_refl) as (w' & Hrun & Hdb & _).
  exists w'. split; [exact Hrun | exact Hdb].
Defined.

(** ** Assigning twice *)

Lemma db_eta (d : Db) : d = mkDb (projects d) (speakers d) (segments d).
Proof. by destruct d. Qed.

Lemma updated_twice (m : Obj) (t1 t2 : Z) (r : Projects.Row) :
  Projects.updated t2 (mapping_update m)
    (Projects.updated t1 (mapping_update m) r)
  = Projects.update_updated_at t2 (Projects.updated t1 (mapping_update m) r).
Proof. done. Qed.

Lemma assigned_twice (id : string) (m : Obj) (r : Speakers.Row) :
  assigned id m (assigned id m r) = assigned id m r.
Proof.
  unfold assigned. destruct (decide (Speakers.project_id r = id)) as [Hp|Hp].
  - destruct (obj_get (Speakers.speaker_label r) m) as [v|] eqn:Hv; simpl.
    + rewrite decide_True by done. simpl. by rewrite Hv.
    + rewrite decide_True by done. by rewrite Hv.
  - by rewrite decide_False.
Qed.

(** The database after [assignVoices] has gone through, in one piece. *)
Lemma assign_db_whole (id : string) (m : Obj) (now : Z) (d : Db) :
  obj_wf m →
  assign_db id m (update_project now id (mapping_update m) d)
  = mkDb (alter (Projects.updated now (mapping_update m)) id (projects d))
         (assigned id m <$> speakers d)
         (segments d).
Proof.
  intros Hwf.
  rewrite (db_eta (assign_db _ _ _)).
  destruct (assign_db_tables id m (update_project now id (mapping_update m) d))
    as [-> ->].
  by rewrite assign_db_speakers.
Qed.

(** X14. Assigning the same voices a second time changes nothing but the
    time of the project's last update. When the requests go through, after
    two calls of [assignVoices] with one mapping the speakers and the
    segments are as after the first call, and so are the projects except
    that the trigger has set [updated_at] of the project's row again, to
    the time of the second update. *)
Theorem X14_assignVoices_twice (id : string) (m : Obj) (w : World) :
  obj_wf m →
  replies w = [] →
  ∃ w1 w2,
    projectsApi.assignVoices id m w = (Ok ("updated", m), w1)
    ∧ projectsApi.assignVoices id m w1 = (Ok ("updated", m), w2)
    ∧ speakers (db w2) = speakers (db w1)
    ∧ segments (db w2) = segments (db w1)
    ∧ projects (db w2)
      = alter (Projects.update_updated_at (head_time w1)) id
          (projects (db w1))
    ∧ head_time w1 = head_time (pop_time w)
    ∧ (∀ r, projects (db w) !! id = Some r →
         Projects.updated_at <$> projects (db w1) !! id = Some (head_time w)
         ∧ Projects.updated_at <$> projects (db w2) !! id
           = Some (head_time w1)).
Proof.
  intros Hwf Hr.
  destruct (assignVoices_calm id m w Hr)
    as (w1 & Hrun1 & Hdb1 & _ & _ & Hr1 & _ & Hti).
  destruct (assignVoices_calm id m w1 Hr1) as (w2 & Hrun2 & Hdb2 & _).
  exists w1, w2. split; [done|]. split; [done|].
  rewrite Hdb2, Hdb1, !assign_db_whole by done. simpl.
  split.
  { rewrite <- map_fmap_compose. apply map_fmap_ext. intros k r _.
    apply assigned_twice. }
  split; [done|]. split.
  { rewrite !alter_alter_eq. apply alter_ext. intros r _.
    apply updated_twice. }
  split; [unfold head_time; by rewrite Hti|].
  intros r Hrow. by rewrite !lookup_alter_eq, Hrow.
Qed.

Lemma X14_assignVoices_twice_witness :
  let w := with_server_time [5%Z; 9%Z] (calm sample_db) in
  obj_wf sample_mapping
  ∧ replies w = []
  ∧ ∃ w1 w2,
      projectsApi.assignVoices "p1" sample_mapping w
      = (Ok ("updated", sample_mapping), w1)
      ∧ projectsApi.assignVoices "p1" sample_mapping w1
        = (Ok ("updated", sample_mapping), w2)
      ∧ speakers (db w2) = speakers (db w1)
      ∧ Projects.updated_at <$> projects (db w1) !! "p1" = Some 5%Z
      ∧ Projects.updated_at <$> projects (db w2) !! "p1" = Some 9%Z.
Proof.
  intros w.
  assert (Hwf : obj_wf sample_mapping) by (unfold obj_wf; compute_done).
  split; [exact Hwf|]. split; [reflexivity|].
  destruct (X14_assignVoices_twice "p1" sample_mapping w Hwf eq_refl)
    as (w1 & w2 & Hrun1 & Hrun2 & Hsp & _ & _ & Ht & Hat).
  destruct (Hat (sample_project voice_mapping) eq_refl) as [Hat1 Hat2].
  exists w1, w2. split; [exact Hrun1|]. split; [exact Hrun2|].
  split; [exact Hsp|]. split; [exact Hat1|].
  rewrite Hat2, Ht. reflexivity.
Defined.

(** ** Deleting twice *)

Lemma set_null_empty (r : Segments.Row) : set_null ∅ r = r.
Proof.
  unfold set_null. destruct (Segments.speaker_id r); [|done].
  by rewrite decide_False by apply not_elem_of_empty.
Qed.

Lemma set_null_project (gone : gset string) (r : Segments.Row) :
  Segments.project_id (set_null gone r) = Segments.project_id r.
Proof. unfold set_null. destruct (Segments.speaker_id r); [case_decide|]; done. Qed.

Lemma delete_project_twice (pid : string) (d : Db) :
  delete_project pid (delete_project pid d) = delete_project pid d.
Proof.
  unfold delete_project. simpl. f_equal.
    - apply delete_id, lookup_delete_eq.
    - apply map_eq. intros k. apply option_eq. intros r.
      rewrite !map_lookup_filter_Some. tauto.
    - assert (Hgone : dom (filter (λ kv, Speakers.project_id kv.2 = pid)
                 (filter (λ kv : string * Speakers.Row,
                            Speakers.project_id kv.2 ≠ pid) (speakers d)))
              = (∅ : gset string)).
      { apply dom_empty_iff_L, map_empty. intros k.
        apply eq_None_not_Some. intros [r Hr].
        apply map_lookup_filter_Some in Hr as [Hr Hp].
        apply map_lookup_filter_Some in Hr as [_ Hn]. done. }
      rewrite Hgone. apply map_eq. intros k.
      rewrite !lookup_fmap. apply option_eq. intros r.
      rewrite !fmap_Some. split.
      + intros (r1 & Hr1 & ->).
        apply map_lookup_filter_Some in Hr1 as [Hr1 _].
        rewrite lookup_fmap, fmap_Some in Hr1.
        destruct Hr1 as (r0 & Hr0 & ->). exists r0.
        by rewrite set_null_empty.
      + intros (r0 & Hr0 & ->). eexists. split; [|by rewrite set_null_empty].
        apply map_lookup_filter_Some. split.
        * rewrite lookup_fmap, Hr0. done.
        * simpl. rewrite set_null_project.
          by apply map_lookup_filter_Some in Hr0 as [_ ?].
Qed.

(** [projectsApi.delete] when every request is applied. *)
Lemma delete_calm (pid : string) (w : World) :
  replies w = [] →
  ∃ w1, projectsApi.delete pid w = (Ok (), w1)
        ∧ db w1 = delete_project pid (db w)
        ∧ replies w1 = []
        ∧ (projects (db w) !! pid = None → storage w1 = storage w).
Proof.
  destruct w as [d st rp fe uu cl su hi po ti]. fields. intros ->.
  unfold projectsApi.delete. run_async.
  destruct (projects d !! pid) as [row|]; [case_decide|];
    unfold storage_remove; run_async;
    (eexists; split; [reflexivity|]); fields; by repeat split.
Qed.

(** X15. Deleting a project a second time changes nothing. The database
    after two deletions of the same project is the database after one.
    [projectsApi.delete] of a project that has no row asks for the row and
    deletes, in two requests and none to the storage, and resolves when
    both go through, so that when every request goes through a second
    [projectsApi.delete] resolves like the first and leaves the database
    and the bucket as the first left them. *)
Theorem X15_delete_idempotent (pid : string) (w : World) :
  delete_project pid (delete_project pid (db w)) = delete_project pid (db w)
  ∧ (projects (db w) !! pid = None →
     head_reply w = Applied → head_reply (pop w) = Applied →
     projectsApi.delete pid w
     = (Ok (), with_db (delete_project pid (db w)) (pop (pop w))))
  ∧ (replies w = [] →
     ∃ w1 w2,
       projectsApi.delete pid w = (Ok (), w1)
       ∧ db w1 = delete_project pid (db w)
       ∧ projectsApi.delete pid w1 = (Ok (), w2)
       ∧ db w2 = db w1
       ∧ storage w2 = storage w1).
Proof.
  split; [apply delete_project_twice|]. split.
  - intros Hrow H1 H2. unfold projectsApi.delete.
    unfold bind at 1. unfold bind at 1. rewrite read_eq, H1, Hrow.
    unfold ret at 1. unfold bind. rewrite write_eq, H2.
    by rewrite db_pop.
  - intros Hr.
    destruct (delete_calm pid w Hr) as (w1 & Hrun1 & Hdb1 & Hr1 & _).
    destruct (delete_calm pid w1 Hr1) as (w2 & Hrun2 & Hdb2 & _ & Hst).
    exists w1, w2. split; [exact Hrun1|]. split; [exact Hdb1|].
    split; [exact Hrun2|]. split.
    + by rewrite Hdb2, Hdb1, delete_project_twice.
    + apply Hst. rewrite Hdb1. unfold delete_project. simpl.
      apply lookup_delete_eq.
Qed.

Lemma X15_delete_idempotent_witness :
  let w := with_storage {["p1/clip.mp4"]} (calm sample_ledger) in
  replies w = []
  ∧ ∃ w1 w2,
      projectsApi.delete "p1" w = (Ok (), w1)
      ∧ projectsApi.delete "p1" w1 = (Ok (), w2)
      ∧ db w2 = db w1
      ∧ storage w2 = storage w1.
Proof.
  intros w. split; [reflexivity|].
  destruct (X15_delete_idempotent "p1" w) as (_ & _ & Htwice).
  destruct (Htwice eq_refl) as (w1 & w2 & Hrun1 & _ & Hrun2 & Hdb & Hst).
  by exists w1, w2.
Defined.

(** ** Storage helpers *)

Lemma pop_storage (w : World) : storage (pop w) = storage w.
Proof. unfold pop. by destruct (replies w). Qed.

Lemma pop_config (w : World) :
  clock (pop w) = clock w ∧ supabaseUrl (pop w) = supabaseUrl w
  ∧ uuids (pop w) = uuids w.
Proof. unfold pop. by destruct (replies w). Qed.

Lemma uploadVideo_eq (file : File) (projectId : string) (w : World) :
  let fileName := projectId +:+ "/original_" +:+ pretty (clock w) +:+ "_"
                  +:+ file_name file in
  uploadVideo file projectId w
  = match head_reply w with
    | Refused e => (Throw e, pop w)
    | Applied =>
        if decide (fileName ∈ storage w)
        then (Throw "The resource already exists", pop w)
        else (Ok (getPublicUrl (supabaseUrl w) STORAGE_BUCKET fileName),
              with_storage ({[fileName]} ∪ storage w) (pop w))
    end.
Proof.
  intros fileName.
  unfold uploadVideo, storage_upload, bind, now. fold fileName.
  rewrite next_reply_eq. destruct (pop_config w) as (_ & Hurl & _).
  destruct (head_reply w); [|done].
  rewrite pop_storage. case_decide; [done|]. unfold throw.
  fields. by rewrite Hurl.
Qed.

Lemma deleteVideo_eq (p : string) (w : World) :
  deleteVideo p w
  = match head_reply w with
    | Refused e => (Throw e, pop w)
    | Applied => (Ok (), with_storage (storage w ∖ {[p]}) (pop w))
    end.
Proof.
  unfold deleteVideo, storage_remove, bind. rewrite next_reply_eq.
  destruct (head_reply w); [|done].
  unfold ret. rewrite pop_storage. do 2 f_equal.
  simpl. by rewrite union_empty_r_L.
Qed.

(** X16. [uploadVideo] stores the video under
    [projectId/original_<now>_<file name>] and returns the public URL of
    that object. It never overwrites: if an object of that name exists, or
    if the request is refused, it rejects and the bucket is as before. It
    never touches the database. *)
Theorem X16_uploadVideo (file : File) (projectId : string) (w : World) :
  let fileName := projectId +:+ "/original_" +:+ pretty (clock w) +:+ "_"
                  +:+ file_name file in
  (∀ e, head_reply w = Refused e →
     uploadVideo file projectId w = (Throw e, pop w))
  ∧ (head_reply w = Applied → fileName ∈ storage w →
     uploadVideo file projectId w
     = (Throw "The resource already exists", pop w))
  ∧ (head_reply w = Applied → fileName ∉ storage w →
     uploadVideo file projectId w
     = (Ok (getPublicUrl (supabaseUrl w) STORAGE_BUCKET fileName),
        with_storage ({[fileName]} ∪ storage w) (pop w)))
  ∧ (∀ r w', uploadVideo file projectId w = (r, w') →
     db w' = db w
     ∧ (storage w' = storage w ∨ storage w' = {[fileName]} ∪ storage w)
     ∧ ∀ url, r = Ok url → storage w' = {[fileName]} ∪ storage w
                          ∧ fileName ∉ storage w).
Proof.
  intros fileName.
  pose proof (uploadVideo_eq file projectId w) as Hrun.
  cbv zeta in Hrun. fold fileName in Hrun.
  split; [intros e He; by rewrite Hrun, He|].
  split; [intros Ha Hin; by rewrite Hrun, Ha, decide_True|].
  split; [intros Ha Hnin; by rewrite Hrun, Ha, decide_False|].
  intros r w'. rewrite Hrun. destruct (head_reply w).
  - case_decide as Hin; intros [= <- <-].
    + rewrite db_pop, pop_storage. split; [done|]. split; [by left|]. done.
    + fields. rewrite db_pop. split; [done|].
      split; [by right|]. done.
  - intros [= <- <-]. rewrite db_pop, pop_storage.
    split; [done|]. split; [by left|]. done.
Qed.

Lemma X16_uploadVideo_witness :
  head_reply (calm empty_db) = Applied
  ∧ ("p1/original_0_clip.mp4" ∉ storage (calm empty_db))
  ∧ uploadVideo (data_video sample_data) "p1" (calm empty_db)
    = (Ok "https://db.example/storage/v1/object/public/videos/p1/original_0_clip.mp4",
       with_storage ({["p1/original_0_clip.mp4"]} ∪ storage (calm empty_db))
         (pop (calm empty_db))).
Proof.
  split; [reflexivity|].
  assert (Hnin : "p1/original_0_clip.mp4" ∉ storage (calm empty_db))
    by apply not_elem_of_empty.
  split; [exact Hnin|].
  destruct (X16_uploadVideo (data_video sample_data) "p1" (calm empty_db))
    as (_ & _ & Hok & _).
  exact (Hok eq_refl Hnin).
Defined.

(** X17. A video that was uploaded and is then removed with [deleteVideo]
    under the name it was stored leaves the bucket as it was before the
    upload, when both requests go through; the database is not touched. *)
Theorem X17_upload_then_deleteVideo
    (file : File) (projectId : string) (w : World) :
  let fileName := projectId +:+ "/original_" +:+ pretty (clock w) +:+ "_"
                  +:+ file_name file in
  replies w = [] →
  fileName ∉ storage w →
  ∃ url w1 w2,
    uploadVideo file projectId w = (Ok url, w1)
    ∧ deleteVideo fileName w1 = (Ok (), w2)
    ∧ storage w2 = storage w
    ∧ db w2 = db w.
Proof.
  intros fileName Hr Hnin.
  pose proof (uploadVideo_eq file projectId w) as Hrun.
  cbv zeta in Hrun. fold fileName in Hrun.
  rewrite (head_calm w Hr), (pop_calm w Hr), decide_False in Hrun by done.
  eexists _, _, _. split; [exact Hrun|].
  rewrite deleteVideo_eq.
  assert (Hr1 : replies (with_storage ({[fileName]} ∪ storage w) w) = [])
    by exact Hr.
  rewrite (head_calm _ Hr1), (pop_calm _ Hr1).
  split; [reflexivity|]. fields. split; [|done].
  apply set_eq. intros x. rewrite elem_of_difference, elem_of_union,
    elem_of_singleton. split; [tauto|].
  intros Hx. split; [by right|]. intros ->. done.
Qed.

Lemma X17_upload_then_deleteVideo_witness :
  replies (calm empty_db) = []
  ∧ ("p1/original_0_clip.mp4" ∉ storage (calm empty_db))
  ∧ ∃ url w1 w2,
      uploadVideo (data_video sample_data) "p1" (calm empty_db) = (Ok url, w1)
      ∧ deleteVideo "p1/original_0_clip.mp4" w1 = (Ok (), w2)
      ∧ storage w2 = storage (calm empty_db).
Proof.
  split; [reflexivity|].
  assert (Hnin : "p1/original_0_clip.mp4" ∉ storage (calm empty_db))
    by apply not_elem_of_empty.
  split; [exact Hnin|].
  destruct (X17_upload_then_deleteVideo (data_video sample_data) "p1"
              (calm empty_db) eq_refl Hnin)
    as (url & w1 & w2 & Hup & Hdel & Hst & _).
  by exists url, w1, w2.
Defined.

(** ** From the public URL back to the object *)

Lemma append_cons (x : Ascii.ascii) (a b : string) :
  String x a +:+ b = String x (a +:+ b).
Proof. reflexivity. Qed.

Lemma append_assoc (a b c : string) : (a +:+ b) +:+ c = a +:+ b +:+ c.
Proof.
  induction a as [|x a IH]; [done|]. rewrite !append_cons. f_equal. exact IH.
Qed.

Lemma length_append (a b : string) :
  String.length (a +:+ b) = (String.length a + String.length b)%nat.
Proof.
  induction a as [|x a IH]; [done|]. rewrite append_cons. cbn. f_equal.
  exact IH.
Qed.

Lemma prefix_append (a b : string) : String.prefix a (a +:+ b) = true.
Proof.
  induction a as [|x a IH]; [by destruct b|]. rewrite append_cons. cbn.
  destruct (Ascii.ascii_dec x x); [exact IH|done].
Qed.

Lemma prefix_longer (s t x : string) :
  String.prefix s t = true → String.prefix s (t +:+ x) = true.
Proof.
  revert t. induction s as [|c s IH]; intros [|d t];
    rewrite ?append_cons; cbn; try done.
  - by destruct x.
  - destruct (Ascii.ascii_dec c d); [apply IH|done].
Qed.

Lemma prefix_within (s t x : string) :
  (String.length s ≤ String.length t)%nat →
  String.prefix s (t +:+ x) = String.prefix s t.
Proof.
  revert t. induction s as [|c s IH]; intros [|d t];
    rewrite ?append_cons; cbn; try done; try lia.
  - by destruct x.
  - intros Hlen. destruct (Ascii.ascii_dec c d); [apply IH; lia|done].
Qed.

Lemma substring_all (b : string) : String.substring 0 (String.length b) b = b.
Proof. induction b as [|x b IH]; [done|]. cbn. f_equal. exact IH. Qed.

Lemma substring_append (a b : string) (n : nat) :
  String.substring (String.length a) n (a +:+ b) = String.substring 0 n b.
Proof. induction a as [|x a IH]; [done|]. rewrite append_cons. exact IH. Qed.

Lemma after_first_unfold (sep s : string) :
  projectsApi.after_first sep s
  = if String.prefix sep s
    then Some (String.substring (String.length sep)
                 (String.length s - String.length sep) s)
    else match s with
         | EmptyString => None
         | String _ s' => projectsApi.after_first sep s'
         end.
Proof. by destruct s. Qed.

Lemma before_first_unfold (sep s : string) :
  projectsApi.before_first sep s
  = if String.prefix sep s then EmptyString
    else match s with
         | EmptyString => EmptyString
         | String c s' => String c (projectsApi.before_first sep s')
         end.
Proof. by destruct s. Qed.

Lemma after_first_here (sep p : string) :
  projectsApi.after_first sep (sep +:+ p) = Some p.
Proof.
  rewrite after_first_unfold, prefix_append, length_append.
  replace (String.length sep + String.length p - String.length sep)%nat
    with (String.length p) by lia.
  by rewrite substring_append, substring_all.
Qed.

Lemma after_first_skip (sep pre rest : string) :
  clear_before sep pre rest = true →
  projectsApi.after_first sep (pre +:+ rest)
  = projectsApi.after_first sep rest.
Proof.
  induction pre as [|c pre IH]; [done|].
  cbn [clear_before]. intros [Hhere Hrest]%andb_true_iff.
  apply negb_true_iff in Hhere.
  rewrite append_cons, after_first_unfold, <- append_cons, Hhere.
  by apply IH.
Qed.

Lemma before_first_skip (sep pre rest : string) :
  clear_before sep pre rest = true →
  projectsApi.before_first sep (pre +:+ rest)
  = pre +:+ projectsApi.before_first sep rest.
Proof.
  induction pre as [|c pre IH]; [done|].
  cbn [clear_before]. intros [Hhere Hrest]%andb_true_iff.
  apply negb_true_iff in Hhere.
  rewrite append_cons, before_first_unfold, <- append_cons, Hhere.
  rewrite append_cons. f_equal. by apply IH.
Qed.

Lemma clear_before_rest (sep pre x : string) :
  clear_before sep pre (sep +:+ x) = clear_before sep pre sep.
Proof.
  induction pre as [|c pre IH]; [done|].
  cbn [clear_before]. rewrite IH. f_equal. f_equal.
  rewrite <- append_assoc. apply prefix_within.
  rewrite length_append. cbn. lia.
Qed.

Lemma clear_before_absent (sep p : string) :
  sep ≠ "" → clear_before sep p sep = true →
  projectsApi.after_first sep p = None.
Proof.
  intros Hsep. induction p as [|c p IH]; rewrite after_first_unfold.
  - by destruct sep.
  - cbn [clear_before]. intros [Hhere Hrest]%andb_true_iff.
    apply negb_true_iff in Hhere.
    destruct (String.prefix sep (String c p)) eqn:Hpre; [|by apply IH].
    apply (prefix_longer _ _ sep) in Hpre. congruence.
Qed.

Lemma before_first_absent (sep p : string) :
  projectsApi.after_first sep p = None → projectsApi.before_first sep p = p.
Proof.
  induction p as [|c p IH]; rewrite after_first_unfold, before_first_unfold.
  - by destruct (String.prefix sep "").
  - destruct (String.prefix sep (String c p)); [done|].
    intros Hp. by rewrite IH.
Qed.

Lemma append_empty (a : string) : a +:+ "" = a.
Proof.
  induction a as [|x a IH]; [done|]. rewrite append_cons. f_equal. exact IH.
Qed.

Lemma encodeURI_append (a b : string) :
  encodeURI (a +:+ b) = encodeURI a +:+ encodeURI b.
Proof.
  induction a as [|c a IH]; [done|]. rewrite append_cons.
  cbn [encodeURI]. rewrite IH. destruct (uri_unescaped c); [done|].
  by rewrite append_assoc.
Qed.

Lemma encodeURI_plain (s : string) : uri_plain s = true → encodeURI s = s.
Proof.
  induction s as [|c s IH]; [done|]. cbn [uri_plain encodeURI].
  intros [-> Hs]%andb_true_iff. by rewrite IH.
Qed.

Lemma encodeURI_longer (s : string) :
  uri_plain s = false → (String.length s < String.length (encodeURI s))%nat.
Proof.
  assert (Hle : ∀ t, (String.length t ≤ String.length (encodeURI t))%nat).
  { induction t as [|c t IH]; [done|]. cbn [encodeURI].
    destruct (uri_unescaped c); [simpl; lia|].
    rewrite length_append.
    change (String.length (percent c)) with 3%nat. simpl. lia. }
  induction s as [|c s IH]; [done|]. cbn [uri_plain encodeURI].
  destruct (uri_unescaped c).
  - simpl. intros Hs. apply IH in Hs. lia.
  - intros _. specialize (Hle s). rewrite length_append.
    change (String.length (percent c)) with 3%nat. simpl. lia.
Qed.

Lemma encodeURI_not_empty (s : string) : s ≠ "" → encodeURI s ≠ "".
Proof.
  destruct s as [|c s]; [done|]. intros _. cbn [encodeURI].
  by destruct (uri_unescaped c).
Qed.

Lemma public_url_path (base x : string) :
  clear_before (STORAGE_BUCKET +:+ "/")
    (encodeURI (base +:+ "/storage/v1/object/public/"))
    (STORAGE_BUCKET +:+ "/") = true →
  projectsApi.after_first (STORAGE_BUCKET +:+ "/")
    (getPublicUrl base STORAGE_BUCKET x) = Some (encodeURI x).
Proof.
  intros Hbase. unfold getPublicUrl.
  replace (base +:+ "/storage/v1/object/public/" +:+ STORAGE_BUCKET
           +:+ "/" +:+ x)
    with ((base +:+ "/storage/v1/object/public/")
          +:+ (STORAGE_BUCKET +:+ "/") +:+ x)
    by by rewrite !append_assoc.
  rewrite (encodeURI_append (base +:+ "/storage/v1/object/public/")).
  rewrite (encodeURI_append (STORAGE_BUCKET +:+ "/")).
  change (encodeURI (STORAGE_BUCKET +:+ "/")) with (STORAGE_BUCKET +:+ "/").
  rewrite after_first_skip by by rewrite clear_before_rest.
  apply after_first_here.
Qed.

(** The object path [projectsApi.delete] reads off the public URL of [x]. *)
Lemma storage_path_public_url (base x : string) :
  x ≠ "" →
  clear_before (STORAGE_BUCKET +:+ "/")
    (encodeURI (base +:+ "/storage/v1/object/public/"))
    (STORAGE_BUCKET +:+ "/") = true →
  clear_before (STORAGE_BUCKET +:+ "/") (encodeURI x) (STORAGE_BUCKET +:+ "/")
  = true →
  projectsApi.storage_path (Some (getPublicUrl base STORAGE_BUCKET x))
  = [encodeURI x].
Proof.
  intros Hx Hbase Hclear.
  unfold projectsApi.storage_path, projectsApi.split_1.
  rewrite public_url_path by exact Hbase.
  cbn [fmap option_fmap option_map].
  rewrite before_first_absent by by apply clear_before_absent.
  rewrite decide_False; [done|]. by apply encodeURI_not_empty.
Qed.

(** X18. The object path [projectsApi.delete] reads off a public URL is the
    path as [encodeURI] has left it in the URL. When [videos/] occurs
    neither in the URL before the bucket nor in the encoded path (nor
    across its end), the path read off the URL of [p] is [encodeURI p]:
    [p] itself when no character of [p] is escaped, and another name when
    one is (a space, a non-ASCII letter, a percent sign); and the path read
    off the URL of a longer object [p videos/ r] is cut short to that of
    [p]. A URL that is [null] or empty, one in which [videos/] does not
    occur, and the URL of the empty path give no path at all. *)
Theorem X18_storage_path (base p r : string) :
  let sep := STORAGE_BUCKET +:+ "/" in
  p ≠ "" →
  clear_before sep (encodeURI (base +:+ "/storage/v1/object/public/")) sep
  = true →
  clear_before sep (encodeURI p) sep = true →
  projectsApi.storage_path (Some (getPublicUrl base STORAGE_BUCKET p))
  = [encodeURI p]
  ∧ (uri_plain p = true → encodeURI p = p)
  ∧ (uri_plain p = false → encodeURI p ≠ p)
  ∧ projectsApi.storage_path
      (Some (getPublicUrl base STORAGE_BUCKET (p +:+ sep +:+ r)))
    = [encodeURI p]
  ∧ projectsApi.storage_path
      (Some (getPublicUrl base STORAGE_BUCKET "")) = []
  ∧ projectsApi.storage_path None = []
  ∧ projectsApi.storage_path (Some "") = []
  ∧ (∀ u, projectsApi.after_first sep u = None →
          projectsApi.storage_path (Some u) = []).
Proof.
  intros sep Hp Hbase Hclear.
  split; [by apply storage_path_public_url|].
  split; [apply encodeURI_plain|].
  split.
  { intros Hesc Heq. apply encodeURI_longer in Hesc. rewrite Heq in Hesc.
    lia. }
  unfold projectsApi.storage_path, projectsApi.split_1. fold sep.
  rewrite !(public_url_path base) by exact Hbase.
  repeat split.
  - cbn [fmap option_fmap option_map].
    rewrite (encodeURI_append p), (encodeURI_append sep).
    change (encodeURI sep) with sep.
    rewrite before_first_skip by by rewrite clear_before_rest.
    rewrite before_first_unfold, prefix_append, append_empty.
    rewrite decide_False; [done|]. by apply encodeURI_not_empty.
  - intros u Hu. by rewrite Hu.
Qed.

Lemma X18_storage_path_witness :
  projectsApi.storage_path
    (Some (getPublicUrl "https://db.example.co" STORAGE_BUCKET "p1/17.mp4"))
  = ["p1/17.mp4"]
  ∧ projectsApi.storage_path
      (Some (getPublicUrl "https://db.example.co" STORAGE_BUCKET
               "p1/my clip.mp4"))
    = ["p1/my%20clip.mp4"].
Proof.
  destruct (X18_storage_path "https://db.example.co" "p1/17.mp4" "x")
    as (H1 & _); [done|vm_compute; reflexivity..|].
  destruct (X18_storage_path "https://db.example.co" "p1/my clip.mp4" "x")
    as (H2 & _); [done|vm_compute; reflexivity..|].
  split; [exact H1|exact H2].
Defined.

(** ** What [create] and [delete] leave behind *)

(** X19. The failures of [projectsApi.create] that its cleanup does not
    undo. When the insertion is refused, or the generated key is taken,
    [create] throws that error with nothing written and no delete sent (the
    row already stored under the key stays as it is). When the upload goes
    through and the follow-up update is refused, the inserted row is
    deleted again but the uploaded object stays in the bucket. *)
Theorem X19_create_failures
    (data : CreateData) (w : World) (id : string) (us : list string) :
  uuids w = id :: us →
  let fileName := id +:+ "/original_" +:+ pretty (clock w) +:+ "_"
                  +:+ file_name (data_video data) in
  (∀ e rs, replies w = Refused e :: rs →
     projectsApi.create data w = (Throw e, with_replies rs w))
  ∧ (∀ rs, replies w = Applied :: rs → id ∈ dom (projects (db w)) →
     projectsApi.create data w
     = (Throw duplicate_key, with_uuids us (with_replies rs w)))
  ∧ (∀ e rs, replies w = Applied :: Applied :: Refused e :: Applied :: rs →
     projects (db w) !! id = None →
     fileName ∉ storage w →
     ∃ w', projectsApi.create data w = (Throw e, w')
           ∧ projects (db w') !! id = None
           ∧ fileName ∈ storage w'
           ∧ storage w' = {[fileName]} ∪ storage w).
Proof.
  intros Hu fileName.
  destruct w as [d st rp fe uu cl su hi po ti]. simpl in Hu. subst uu.
  subst fileName. fields.
  repeat split.
  - intros e rs ->.
    unfold projectsApi.create, insert_select_single. run_async. done.
  - intros rs -> Hin.
    unfold projectsApi.create, insert_select_single. run_async.
    rewrite decide_True by done. done.
  - intros e rs -> Hf Hnin.
    destruct ti as [|t0 ti];
      unfold projectsApi.create, insert_select_single; run_async;
      rewrite decide_False by (by apply fresh_not_in_dom); run_async;
      unfold uploadVideo, storage_upload; run_async;
      rewrite decide_False by done; run_async;
      unfold update_select_single; run_async;
      (eexists; split; [reflexivity|]); fields;
      rewrite delete_inserted_project by done;
      (split; [done|]); (split; [|done]);
      apply elem_of_union_l; by apply elem_of_singleton.
Qed.

Lemma X19_create_failures_witness :
  let w := with_replies [Applied; Applied; Refused "offline"; Applied]
             (with_uuids ["p1"] (calm empty_db)) in
  ∃ w', projectsApi.create sample_data w = (Throw "offline", w')
        ∧ projects (db w') !! "p1" = None
        ∧ "p1/original_0_clip.mp4" ∈ storage w'.
Proof.
  intros w.
  destruct (X19_create_failures sample_data w "p1" [] eq_refl)
    as (_ & _ & Hupdate).
  destruct (Hupdate "offline" [] eq_refl eq_refl) as (w' & Hrun & Hgone & Hin & _).
  - vm_compute. set_solver.
  - exists w'. split; [exact Hrun|]. split; [exact Hgone|exact Hin].
Defined.

Lemma delete_updated_project (d : Db) (id : string) (r : Projects.Row)
    (u : Projects.Update) (now : Z) :
  projects d !! id = None →
  projects (delete_project id (update_project now id u (insert_project id r d)))
  = projects d.
Proof.
  intros H. unfold delete_project, update_project, insert_project. simpl.
  apply map_eq. intros k. destruct (decide (k = id)) as [->|Hne].
  - by rewrite lookup_delete_eq.
  - by rewrite lookup_delete_ne, lookup_alter_ne, lookup_insert_ne.
Qed.

(** X20. Creation undone by deletion, as far as the name of the video
    allows. When every request goes through (and [videos/] occurs neither
    in the Supabase URL before the bucket nor in the encoded name of the
    uploaded object), [projectsApi.delete] of the project
    [projectsApi.create] has just made deletes the row, so that the
    [projects] table is what it was before [create], and asks the storage
    to remove the name it reads off the URL, which is the name as
    [encodeURI] has left it. If no character of the name is escaped the
    video is removed and the bucket is what it was before [create]; if one
    is (a space or a non-ASCII letter in the name of the file) the video
    stays in the bucket. *)
Theorem X20_create_then_delete
    (data : CreateData) (w : World) (id : string) (us : list string) :
  let sep := STORAGE_BUCKET +:+ "/" in
  let fileName := id +:+ "/original_" +:+ pretty (clock w) +:+ "_"
                  +:+ file_name (data_video data) in
  uuids w = id :: us →
  replies w = [] →
  projects (db w) !! id = None →
  fileName ∉ storage w →
  clear_before sep
    (encodeURI (supabaseUrl w +:+ "/storage/v1/object/public/")) sep = true →
  clear_before sep (encodeURI fileName) sep = true →
  ∃ row w1 w2,
    projectsApi.create data w = (Ok (id, row), w1)
    ∧ fileName ∈ storage w1
    ∧ projectsApi.delete id w1 = (Ok (), w2)
    ∧ projects (db w2) = projects (db w)
    ∧ storage w2 = ({[fileName]} ∪ storage w) ∖ {[encodeURI fileName]}
    ∧ (uri_plain fileName = true → storage w2 = storage w)
    ∧ (uri_plain fileName = false → fileName ∈ storage w2).
Proof.
  intros sep fileName. destruct w as [d st rp fe uu cl su hi po ti].
  cbn [clock supabaseUrl uuids replies db storage] in *.
  intros -> -> Hf Hnin Hbase Hclear.
  assert (Hname : fileName ≠ "").
  { subst fileName. by destruct id. }
  pose proof (storage_path_public_url su fileName Hname Hbase Hclear) as Hpath.
  assert (Hlast : ∀ s : gset string,
            s = ({[fileName]} ∪ st) ∖ {[encodeURI fileName]} →
            (uri_plain fileName = true → s = st)
            ∧ (uri_plain fileName = false → fileName ∈ s)).
  { intros s ->. split.
    - intros Hplain. rewrite (encodeURI_plain _ Hplain).
      apply set_eq. intros x. rewrite elem_of_difference, elem_of_union,
        elem_of_singleton. split; [tauto|].
      intros Hx. split; [tauto|]. by intros ->.
    - intros Hesc. apply elem_of_difference. split.
      + apply elem_of_union_l. by apply elem_of_singleton.
      + rewrite elem_of_singleton. intros Heq.
        apply encodeURI_longer in Hesc. rewrite <- Heq in Hesc. lia. }
  destruct ti as [|t0 [|t1 ti]];
    unfold projectsApi.create, insert_select_single; run_async;
    rewrite decide_False by (by apply fresh_not_in_dom); run_async;
    unfold uploadVideo, storage_upload; run_async; fold fileName;
    rewrite decide_False by done; run_async;
    unfold update_select_single; run_async;
    rewrite updated_inserted_project;
    (eexists _, _, _; split; [reflexivity|]); fields;
    (split; [apply elem_of_union_l; by apply elem_of_singleton|]);
    unfold projectsApi.delete; run_async;
    rewrite updated_inserted_project;
    cbn [Projects.updated Projects.update_updated_at Projects.apply
         Projects.inserted Projects.original_video_url
         Projects.output_video_url Projects.set_original_video_url
         Projects.set_voice_mapping Projects.set_status];
    rewrite Hpath; cbn [projectsApi.storage_path app length];
    rewrite decide_True by lia;
    unfold storage_remove; run_async;
    (split; [reflexivity|]); fields;
    (split; [by apply delete_updated_project|]);
    cbn [list_to_set foldr]; rewrite union_empty_r_L;
    (split; [reflexivity|]); by apply Hlast.
Qed.

Lemma X20_create_then_delete_witness :
  let w := with_uuids ["p1"] (calm empty_db) in
  let spaced := mkCreateData "clip" "en" "vi" 2 (mkFile "my clip.mp4") in
  (∃ row w1 w2,
     projectsApi.create sample_data w = (Ok ("p1", row), w1)
     ∧ projectsApi.delete "p1" w1 = (Ok (), w2)
     ∧ projects (db w2) = ∅
     ∧ storage w2 = ∅)
  ∧ (∃ row w1 w2,
       projectsApi.create spaced w = (Ok ("p1", row), w1)
       ∧ projectsApi.delete "p1" w1 = (Ok (), w2)
       ∧ projects (db w2) = ∅
       ∧ "p1/original_0_my clip.mp4" ∈ storage w2).
Proof.
  intros w spaced.
  assert (Hnin : ∀ x : string, x ∉ storage w) by apply not_elem_of_empty.
  split.
  - destruct (X20_create_then_delete sample_data w "p1" [])
      as (row & w1 & w2 & Hc & _ & Hd & Hp & _ & Hs & _);
      [reflexivity|reflexivity|reflexivity|apply Hnin
      |vm_compute; reflexivity|vm_compute; reflexivity|].
    exists row, w1, w2. repeat split; [exact Hc|exact Hd|exact Hp|].
    apply Hs. vm_compute. reflexivity.
  - destruct (X20_create_then_delete spaced w "p1" [])
      as (row & w1 & w2 & Hc & _ & Hd & Hp & _ & _ & Hs);
      [reflexivity|reflexivity|reflexivity|apply Hnin
      |vm_compute; reflexivity|vm_compute; reflexivity|].
    exists row, w1, w2. repeat split; [exact Hc|exact Hd|exact Hp|].
    apply Hs. vm_compute. reflexivity.
Defined.

(** X21. [projectsApi.delete] takes the storage for granted. For a project
    whose video is the object [p]: when the first select is refused, or the
    removal from the bucket is refused, [delete] still deletes the row and
    resolves, and the object stays in the bucket; when the select and the
    removal go through and the delete of the row is refused, [delete]
    throws that error with the row still there and its video gone. *)
Theorem X21_delete_and_storage
    (id p e : string) (row : Projects.Row) (rs : list Reply) (w : World) :
  projects (db w) !! id = Some row →
  projectsApi.storage_path (Projects.original_video_url row) = [p] →
  p ∈ storage w →
  (replies w = Refused e :: Applied :: rs →
   ∃ w', projectsApi.delete id w = (Ok (), w')
         ∧ projects (db w') !! id = None
         ∧ storage w' = storage w)
  ∧ (replies w = Applied :: Refused e :: Applied :: rs →
     ∃ w', projectsApi.delete id w = (Ok (), w')
           ∧ projects (db w') !! id = None
           ∧ storage w' = storage w)
  ∧ (replies w = Applied :: Applied :: Refused e :: rs →
     ∃ w', projectsApi.delete id w = (Throw e, w')
           ∧ projects (db w') !! id = Some row
           ∧ p ∉ storage w').
Proof.
  destruct w as [d st rp fe uu cl su hi po ti]. fields.
  intros Hrow Hpath Hin.
  assert (Hlen : 0 < length (projectsApi.storage_path
                               (Projects.original_video_url row)
                             ++ projectsApi.storage_path
                                  (Projects.output_video_url row))%list).
  { rewrite Hpath. simpl. lia. }
  repeat split.
  - intros ->. unfold projectsApi.delete. run_async.
    eexists. split; [reflexivity|]. fields.
    split; [|done]. unfold delete_project. simpl. apply lookup_delete_eq.
  - intros ->. unfold projectsApi.delete. run_async. rewrite Hrow.
    rewrite decide_True by exact Hlen.
    unfold storage_remove. run_async.
    eexists. split; [reflexivity|]. fields.
    split; [|done]. unfold delete_project. simpl. apply lookup_delete_eq.
  - intros ->. unfold projectsApi.delete. run_async. rewrite Hrow.
    rewrite decide_True by exact Hlen.
    unfold storage_remove. run_async.
    eexists. split; [reflexivity|]. fields.
    split; [done|]. rewrite Hpath.
    rewrite elem_of_difference, elem_of_list_to_set, elem_of_app.
    intros [_ Hn]. apply Hn. left. apply list_elem_of_here.
Qed.

Lemma X21_delete_and_storage_witness :
  let url := getPublicUrl "https://db.example" STORAGE_BUCKET "p1/clip.mp4" in
  let row := Projects.apply (Projects.mkUpdate (Some url) None None)
               (sample_project pending) in
  let w := with_replies [Applied; Refused "offline"; Applied]
             (with_storage {["p1/clip.mp4"]}
                (calm (insert_project "p1" row empty_db))) in
  ∃ w', projectsApi.delete "p1" w = (Ok (), w')
        ∧ projects (db w') !! "p1" = None
        ∧ storage w' = {["p1/clip.mp4"]}.
Proof.
  intros url row w.
  destruct (X21_delete_and_storage "p1" "p1/clip.mp4" "offline" row [] w)
    as (_ & Hremove & _);
    [reflexivity|vm_compute; reflexivity|vm_compute; set_solver|].
  exact (Hremove eq_refl).
Defined.

(** X22. [projectsApi.analyze] sends one request to the processing server
    and nothing to Supabase: whatever the answer, the database, the bucket
    and the queue of Supabase replies are as before. It resolves exactly
    when the answer is ok and its body parses, and then with that body; a
    request the network rejects reaches no server, any other one reaches
    [/api/projects/<id>/analyze] without a voice mapping. *)
Theorem X22_analyze (id : string) (f : Fetched) (fs : list Fetched) (w : World) :
  fetches w = f :: fs →
  ∃ r w', projectsApi.analyze id w = (r, w')
    ∧ db w' = db w ∧ storage w' = storage w ∧ history w' = history w
    ∧ replies w' = replies w ∧ fetches w' = fs
    ∧ (∀ b, r = Ok b ↔ f = Response true (Some b))
    ∧ posted w'
      = match f with
        | NetworkError _ => posted w
        | Response _ _ =>
            (posted w
             ++ [mkPosted ("/api/projects/" +:+ id +:+ "/analyze") None])%list
        end.
Proof.
  destruct w as [d st rp fe uu cl su hi po ti]. fields. intros ->.
  unfold projectsApi.analyze. run_async.
  destruct f as [e|[|] [b|]]; run_async;
    (eexists _, _; split; [reflexivity|]; fields;
     do 5 (split; [done|]); split; [|done]);
    intros b'; split; intros H; by inversion H.
Qed.

Lemma X22_analyze_witness :
  let w := with_fetches [Response false None] (calm empty_db) in
  ∃ r w', projectsApi.analyze "p1" w = (r, w')
    ∧ db w' = empty_db
    ∧ (∀ b, r ≠ Ok b)
    ∧ posted w' = [mkPosted "/api/projects/p1/analyze" None].
Proof.
  intros w.
  destruct (X22_analyze "p1" (Response false None) [] w eq_refl)
    as (r & w' & Hrun & Hdb & _ & _ & _ & _ & Hok & Hposted).
  exists r, w'. split; [exact Hrun|]. split; [exact Hdb|].
  split; [|exact Hposted].
  intros b Hb. apply Hok in Hb. discriminate.
Defined.

(** ** Public URLs *)

(** X23. The URL [uploadVideo] has returned for a video is the URL
    [getVideoUrl] gives, with no request, for the name under which the
    video is then in the bucket. *)
Theorem X23_getVideoUrl
    (file : File) (projectId url : string) (w w1 : World) :
  let fileName := projectId +:+ "/original_" +:+ pretty (clock w) +:+ "_"
                  +:+ file_name file in
  uploadVideo file projectId w = (Ok url, w1) →
  fileName ∈ storage w1
  ∧ getVideoUrl fileName w1 = (Ok url, w1).
Proof.
  intros fileName.
  pose proof (uploadVideo_eq file projectId w) as Hrun.
  cbv zeta in Hrun. fold fileName in Hrun. rewrite Hrun.
  destruct (pop_config w) as (_ & Hurl & _).
  destruct (head_reply w); [|done].
  case_decide; [done|]. intros [= <- <-]. split.
  - fields. apply elem_of_union_l. by apply elem_of_singleton.
  - unfold getVideoUrl. fields. by rewrite Hurl.
Qed.

Lemma X23_getVideoUrl_witness :
  let url :=
    "https://db.example/storage/v1/object/public/videos/p1/original_0_clip.mp4"
  in
  let w1 := with_storage ({["p1/original_0_clip.mp4"]} ∪ ∅) (calm empty_db) in
  uploadVideo (data_video sample_data) "p1" (calm empty_db) = (Ok url, w1)
  ∧ getVideoUrl "p1/original_0_clip.mp4" w1 = (Ok url, w1).
Proof.
  intros url w1.
  assert (Hup : uploadVideo (data_video sample_data) "p1" (calm empty_db)
                = (Ok url, w1)) by (vm_compute; reflexivity).
  split; [exact Hup|].
  apply (X23_getVideoUrl (data_video sample_data) "p1" url (calm empty_db) w1
           Hup).
Defined.
